(** * httpkeepalive: graceful shutdown, connection tracking, latency sampling
      and proxy relay of the demo services

    A shallow embedding of [go-demo/main.go], of the drain loop of the
    Node.js demo and of the proxy of [java-demo/.../DemoApplication.java],
    followed by the properties of the specification.

    Conventions.
    - [time.Duration] is an [int64] count of nanoseconds, kept as a [Z] with
      the wrap-around of the Go arithmetic written out ([wrap64]).
    - [atomic.Int32] is a [Z] wrapped to 32 bits ([wrap32]).
    - [float32] is IEEE binary32, through the Standard Library's [SpecFloat]
      at precision 24 and maximal exponent 128.
    - Go strings are byte strings: [string].
    - A value read from shared state by a goroutine ([shutdownInitiated],
      [numConnections]) is an input of the step that reads it.
    - Functions of the Go and Java standard libraries that the code calls
      ([time.ParseDuration], [fmt.Sscanf], [http.Client.Do]) are parameters;
      the small ones ([strings.Split], [http.Header]) are written out.
    - The log lines written to the standard output and error streams are
      left out. *)

From Stdlib Require Import ZArith List Bool Ascii String Lia SpecFloat.
From stdpp Require Import base option list relations gmap strings.
Import ListNotations.

Local Open Scope Z_scope.

(** ** Machine integers *)

Module Int.

(** Two's complement wrap-around of a mathematical integer to [w] bits. *)
Definition wrap (w : Z) (x : Z) : Z :=
  (x + 2 ^ (w - 1)) mod 2 ^ w - 2 ^ (w - 1).

Definition wrap32 : Z -> Z := wrap 32.
Definition wrap64 : Z -> Z := wrap 64.

Definition min_int64 : Z := - 2 ^ 63.
Definition max_int64 : Z := 2 ^ 63 - 1.
Definition max_int32 : Z := 2 ^ 31 - 1.

Definition in_int64 (x : Z) : Prop := min_int64 <= x <= max_int64.

End Int.

(** ** IEEE binary32 *)

Module Float32.

Definition prec : Z := 24.
Definition emax : Z := 128.

Definition float32 : Type := spec_float.

Definition zero : float32 := S754_zero false.
(** [float32(1.0)]: mantissa 2^23, exponent -23. *)
Definition one : float32 := S754_finite false 8388608 (-23).

Definition add : float32 -> float32 -> float32 := SFadd prec emax.
Definition mul : float32 -> float32 -> float32 := SFmul prec emax.
Definition div : float32 -> float32 -> float32 := SFdiv prec emax.
(** The Go comparison [x <= y]: false as soon as one side is a NaN. *)
Definition leb : float32 -> float32 -> bool := SFleb.

End Float32.

(** ** Durations *)

Module Duration.

Definition Nanosecond : Z := 1.
Definition Millisecond : Z := 1000000.
Definition Second : Z := 1000000000.

End Duration.

(** ** The part of [net/http] the handlers use *)

Module Http.

Definition StatusSwitchingProtocols : Z := 101.
Definition StatusOK : Z := 200.
Definition StatusNoContent : Z := 204.
Definition StatusNotModified : Z := 304.
Definition StatusBadRequest : Z := 400.
Definition StatusInternalServerError : Z := 500.
Definition StatusBadGateway : Z := 502.
Definition StatusServiceUnavailable : Z := 503.

(** *** Header keys *)

Definition is_lower (c : ascii) : bool :=
  let n := nat_of_ascii c in (97 <=? n)%nat && (n <=? 122)%nat.
Definition is_upper (c : ascii) : bool :=
  let n := nat_of_ascii c in (65 <=? n)%nat && (n <=? 90)%nat.
Definition is_digit (c : ascii) : bool :=
  let n := nat_of_ascii c in (48 <=? n)%nat && (n <=? 57)%nat.

(** The token bytes of RFC 7230, as [validHeaderFieldByte] has them. *)
Definition validHeaderFieldByte (c : ascii) : bool :=
  is_lower c || is_upper c || is_digit c ||
  existsb (Ascii.eqb c)
    (list_ascii_of_string "!#$%&'*+-.^_`|~").

Definition to_upper (c : ascii) : ascii :=
  if is_lower c then ascii_of_nat (nat_of_ascii c - 32) else c.
Definition to_lower (c : ascii) : ascii :=
  if is_upper c then ascii_of_nat (nat_of_ascii c + 32) else c.

(** First letter and every letter after a dash in upper case, the others
    in lower case. *)
Fixpoint canon (upper : bool) (s : string) : string :=
  match s with
  | EmptyString => EmptyString
  | String c s' =>
      let c' := if upper then to_upper c else to_lower c in
      String c' (canon (Ascii.eqb c' "-") s')
  end.

(** [textproto.CanonicalMIMEHeaderKey]: a key with a byte that is not a
    token byte is returned unchanged. *)
Definition CanonicalMIMEHeaderKey (s : string) : string :=
  if forallb validHeaderFieldByte (list_ascii_of_string s)
  then canon true s else s.

(** *** [http.Header], a [map[string][]string] *)

Abbreviation Header := (gmap string (list string)).

(** [h.Get(key)]: the first value of the canonical key, [""] without one. *)
Definition Get (h : Header) (key : string) : string :=
  match h !! CanonicalMIMEHeaderKey key with
  | Some (v :: _) => v
  | _ => EmptyString
  end.

(** [h.Set(key, value)] replaces all the values of the canonical key. *)
Definition Set_ (h : Header) (key value : string) : Header :=
  <[CanonicalMIMEHeaderKey key := [value]]> h.

Definition Del (h : Header) (key : string) : Header :=
  delete (CanonicalMIMEHeaderKey key) h.

(** *** [http.ConnState], [http.Request], [http.Response] *)

Inductive ConnState : Type :=
| StateNew
| StateActive
| StateIdle
| StateHijacked
| StateClosed.

Definition Reader : Type := list string.

(** [http.NoBody]: a reader that is at its end. *)
Definition NoBody : Reader := [].

Record Request : Type := mkRequest {
  Method : string;
  URL_Scheme : string;
  URL_Host : string;
  URL_Path : string;
  URL_RawQuery : string;
  ReqHeader : Header;
  Body : Reader
}.

Record Response : Type := mkResponse_ {
  StatusCode : Z;
  RespBody : Reader
}.

(** [validMethod]: a non-empty token. *)
Definition validMethod (method : string) : bool :=
  negb (String.eqb method "") &&
  forallb validHeaderFieldByte (list_ascii_of_string method).

(** [http.NewRequest(method, "http://" + host + "/", body)] for a [host]
    that is a host name: the URL parses to scheme [http], that host and
    the path [/]; an empty method is [GET]; an invalid method is the
    error ([None]). *)
Definition NewRequest (method host : string) (body : Reader)
    : option Request :=
  let method := if String.eqb method "" then "GET"%string else method in
  if validMethod method then
    Some {| Method := method; URL_Scheme := "http"; URL_Host := host;
            URL_Path := "/"; URL_RawQuery := ""; ReqHeader := ∅;
            Body := body |}
  else None.

(** *** [http.ResponseWriter]

    The interface, with the two optional interfaces the decorator asks
    for by a type assertion ([http.Flusher], [io.ReaderFrom]).  A reader
    is the list of the chunks it yields.  The byte counts and errors the
    write methods return are passed through by every caller in this
    program and are left out.

    [WriteHeader] panics on a status code the server refuses; no other
    method does.  A panic ends the handler at that call: [Panicked] says
    of a writer that a call on it has panicked. *)

Class ResponseWriter (W : Type) : Type := {
  HeaderSet : string -> string -> W -> W;
  HeaderDel : string -> W -> W;
  WriteHeader : Z -> W -> W;
  Write : string -> W -> W;
  AsFlusher : option (W -> W);
  AsReaderFrom : option (Reader -> W -> W);
  Panicked : W -> bool
}.

(** [io.Copy(dst, src)]: through [dst.ReadFrom] when the destination has
    it, otherwise one [Write] per chunk read. *)
Definition Copy `{ResponseWriter W} (src : Reader) (w : W) : W :=
  match AsReaderFrom with
  | Some readFrom => readFrom src w
  | None => fold_left (fun acc chunk => Write chunk acc) src w
  end.

(** The line feed. *)
Definition nl : string := String "010" EmptyString.

(** [http.Error(w, msg, code)]; [fmt.Fprintln] ends the message with a
    line feed. *)
Definition Error `{ResponseWriter W} (msg : string) (code : Z) (w : W) : W :=
  Write (msg ++ nl)%string
    (WriteHeader code
      (HeaderSet "X-Content-Type-Options" "nosniff"
        (HeaderSet "Content-Type" "text/plain; charset=utf-8"
          (HeaderDel "Content-Length" w)))).

(** *** The server's response, as a [ResponseWriter]

    The header map the handler mutates; the informational responses
    sent; the header of the response as it is committed (the status and
    a snapshot of the header map, which the server writes out with the
    fields it adds of its own); the body bytes the server has accepted
    from the handler; the log of the calls made on the writer; and
    whether one of them has panicked.  The handler ends at the call that
    panics: a handler that can make such a call is a [Panic] then.

    The handlers of this program set neither [Content-Length] nor
    [Transfer-Encoding] and do not hijack the connection, so the limits
    the server derives from these are left out. *)

Inductive call : Type :=
| CSet (key value : string)
| CDel (key : string)
| CWriteHeader (code : Z)
| CWrite (b : string)
| CFlush
| CReadFrom (src : Reader).

Record response : Type := mkResponse {
  header : Header;
  early : list (Z * Header);
  wire : option (Z * Header);
  body : string;
  calls : list call;
  panicked : bool
}.

Definition new_response : response :=
  {| header := ∅; early := []; wire := None; body := EmptyString;
     calls := []; panicked := false |}.

Definition log (c : call) (w : response) : response :=
  {| header := header w; early := early w; wire := wire w; body := body w;
     calls := calls w ++ [c]; panicked := panicked w |}.

(** [checkWriteHeaderCode]: the server panics on a code that has not
    three digits. *)
Definition checkWriteHeaderCode (code : Z) : bool :=
  (100 <=? code) && (code <=? 999).

(** The codes sent as an informational response: 1xx, but for 101. *)
Definition informational (code : Z) : bool :=
  (100 <=? code) && (code <=? 199)
  && negb (code =? StatusSwitchingProtocols).

(** [bodyAllowedForStatus]. *)
Definition bodyAllowedForStatus (status : Z) : bool :=
  if (100 <=? status) && (status <=? 199) then false
  else if status =? StatusNoContent then false
  else if status =? StatusNotModified then false
  else true.

(** The header fields of an informational response: the header map
    without [Content-Length] and [Transfer-Encoding]. *)
Definition informational_header (h : Header) : Header :=
  Del (Del h "Content-Length") "Transfer-Encoding".

(** [response.WriteHeader].  The header is committed once: a later call
    is superfluous, whatever its code.  On an uncommitted header the call
    panics for a code outside 100 to 999; it sends an informational
    response for a code from 100 to 199 other than 101, and leaves the
    header uncommitted; it commits the header with any other code. *)
Definition commit (code : Z) (w : response) : response :=
  match wire w with
  | Some _ => w
  | None =>
      if negb (checkWriteHeaderCode code) then
        {| header := header w; early := early w; wire := wire w;
           body := body w; calls := calls w; panicked := true |}
      else if informational code then
        {| header := header w;
           early := early w ++ [(code, informational_header (header w))];
           wire := wire w; body := body w; calls := calls w;
           panicked := panicked w |}
      else
        {| header := header w; early := early w;
           wire := Some (code, header w); body := body w; calls := calls w;
           panicked := panicked w |}
  end.

(** [response.bodyAllowed], once the header is committed. *)
Definition bodyAllowed (w : response) : bool :=
  match wire w with
  | Some (status, _) => bodyAllowedForStatus status
  | None => false
  end.

(** [response.Write]: the header is committed with 200 if it is not yet,
    and the bytes are refused ([ErrBodyNotAllowed]) when the status
    allows no body. *)
Definition send (b : string) (w : response) : response :=
  let w' := commit StatusOK w in
  if bodyAllowed w' then
    {| header := header w'; early := early w'; wire := wire w';
       body := (body w' ++ b)%string; calls := calls w';
       panicked := panicked w' |}
  else w'.

Definition set_header (k v : string) (w : response) : response :=
  {| header := Set_ (header w) k v; early := early w; wire := wire w;
     body := body w; calls := calls w; panicked := panicked w |}.

Definition del_header (k : string) (w : response) : response :=
  {| header := Del (header w) k; early := early w; wire := wire w;
     body := body w; calls := calls w; panicked := panicked w |}.

#[export] Instance response_writer : ResponseWriter response := {|
  HeaderSet k v w := log (CSet k v) (set_header k v w);
  HeaderDel k w := log (CDel k) (del_header k w);
  WriteHeader code w := log (CWriteHeader code) (commit code w);
  Write b w := log (CWrite b) (send b w);
  AsFlusher := Some (fun w => log CFlush (commit StatusOK w));
  AsReaderFrom :=
    Some (fun src w => log (CReadFrom src) (fold_left (fun acc c => send c acc) src w));
  Panicked := panicked
|}.

(** When the handler returns, the server commits a header that is still
    uncommitted, with the status 200; when it has panicked, the server
    closes the connection instead. *)
Definition finish (w : response) : response :=
  if panicked w then w else commit StatusOK w.

(** The status and a header field of the response as committed. *)
Definition status_of (w : response) : option Z := fst <$> wire w.
Definition wire_header (w : response) (key : string) : option string :=
  (fun sh => Get (snd sh) key) <$> wire w.

End Http.

(** ** The part of [strings] the handlers use *)

Module Strings.

(** [strings.Split(s, sep)] for a one-byte separator: the pieces between
    the separators, [[""]] for the empty string. *)
Fixpoint Split (sep : ascii) (s : string) : list string :=
  match s with
  | EmptyString => [EmptyString]
  | String c s' =>
      if Ascii.eqb c sep then EmptyString :: Split sep s'
      else match Split sep s' with
           | p :: ps => String c p :: ps
           | [] => [String c EmptyString]
           end
  end.

(** The text before and after the first separator, if there is one. *)
Fixpoint Cut (sep : ascii) (s : string) : option (string * string) :=
  match s with
  | EmptyString => None
  | String c s' =>
      if Ascii.eqb c sep then Some (EmptyString, s')
      else match Cut sep s' with
           | Some (before, after) => Some (String c before, after)
           | None => None
           end
  end.

(** [strings.SplitN(s, sep, 2)] for a one-byte separator: at most two
    pieces, the second one unsplit. *)
Definition SplitN2 (sep : ascii) (s : string) : list string :=
  match Cut sep s with
  | Some (before, after) => [before; after]
  | None => [s]
  end.

(** The slice expression [s[n:]]; [None] is the run-time panic on a bound
    out of range. *)
Fixpoint SliceFrom (n : nat) (s : string) : option string :=
  match n, s with
  | O, _ => Some s
  | S n', String _ s' => SliceFrom n' s'
  | S _, EmptyString => None
  end.

End Strings.

(** ** [go-demo/main.go] *)

Module GoDemo.

Import Int Float32 Duration Http Strings.

(** What a handler leaves behind: the response writer and the durations it
    slept for, or a run-time panic. *)
Inductive result (W : Type) : Type :=
| Return (w : W) (sleeps : list Z)
| Panic.
Arguments Return {W} w sleeps.
Arguments Panic {W}.

Definition shutdownSleepDuration : Z := 10 * Second.
Definition clientSideIdleTimeout : Z := 15 * Second.

(** *** The response decorator *)

Record connectionCloseWriter (W : Type) : Type := mkCloseWriter {
  ResponseWriter_ : W;
  headerWritten : bool
}.
Arguments mkCloseWriter {W} ResponseWriter_ headerWritten.
Arguments ResponseWriter_ {W} c.
Arguments headerWritten {W} c.

Section Decorator.
Context {W : Type} `{ResponseWriter W}.

(** [shutdownInitiated] is what [shutdownInitiated.Load()] returns if this
    call gets to it. *)
Definition injectHeader (shutdownInitiated : bool)
    (w : connectionCloseWriter W) : connectionCloseWriter W :=
  if negb (headerWritten w) then
    let w := mkCloseWriter (ResponseWriter_ w) true in
    if shutdownInitiated then
      mkCloseWriter (HeaderSet "Connection" "close" (ResponseWriter_ w))
                    (headerWritten w)
    else w
  else w.

Definition on_inner (f : W -> W) (w : connectionCloseWriter W)
    : connectionCloseWriter W :=
  mkCloseWriter (f (ResponseWriter_ w)) (headerWritten w).

Definition cw_WriteHeader (shutdownInitiated : bool) (code : Z)
    (w : connectionCloseWriter W) : connectionCloseWriter W :=
  let w := injectHeader shutdownInitiated w in
  on_inner (WriteHeader code) w.

Definition cw_Write (shutdownInitiated : bool) (b : string)
    (w : connectionCloseWriter W) : connectionCloseWriter W :=
  let w := injectHeader shutdownInitiated w in
  on_inner (Write b) w.

Definition cw_Flush (w : connectionCloseWriter W) : connectionCloseWriter W :=
  match AsFlusher with
  | Some flush => on_inner flush w
  | None => w
  end.

Definition cw_ReadFrom (shutdownInitiated : bool) (src : Reader)
    (w : connectionCloseWriter W) : connectionCloseWriter W :=
  let w := injectHeader shutdownInitiated w in
  match AsReaderFrom with
  | Some readFrom => on_inner (readFrom src) w
  | None => on_inner (Copy src) w
  end.

(** The calls a handler makes on its writer, each with the value of the
    shared flag at the time of the call. *)
Inductive op : Type :=
| OpWriteHeader (code : Z)
| OpWrite (b : string)
| OpFlush
| OpReadFrom (src : Reader).

Definition exec (shutdownInitiated : bool) (o : op)
    (w : connectionCloseWriter W) : connectionCloseWriter W :=
  match o with
  | OpWriteHeader code => cw_WriteHeader shutdownInitiated code w
  | OpWrite b => cw_Write shutdownInitiated b w
  | OpFlush => cw_Flush w
  | OpReadFrom src => cw_ReadFrom shutdownInitiated src w
  end.

Definition run (ops : list (bool * op)) (w : connectionCloseWriter W)
    : connectionCloseWriter W :=
  fold_left (fun acc o => exec (fst o) (snd o) acc) ops w.

(** The same calls on the writer itself, without the decorator. *)
Definition exec_plain (o : op) (w : W) : W :=
  match o with
  | OpWriteHeader code => WriteHeader code w
  | OpWrite b => Write b w
  | OpFlush => match AsFlusher with Some flush => flush w | None => w end
  | OpReadFrom src =>
      match AsReaderFrom with
      | Some readFrom => readFrom src w
      | None => Copy src w
      end
  end.

Definition run_plain (ops : list op) (w : W) : W :=
  fold_left (fun acc o => exec_plain o acc) ops w.

Definition is_write (o : op) : bool :=
  match o with OpFlush => false | _ => true end.

(** The decorated writer is a [ResponseWriter] again; [Header()] is the
    promoted method of the embedded writer.  [shutdownInitiated] is the
    value the one load of the response returns. *)
Definition cw_writer (shutdownInitiated : bool)
    : ResponseWriter (connectionCloseWriter W) := {|
  HeaderSet k v := on_inner (HeaderSet k v);
  HeaderDel k := on_inner (HeaderDel k);
  WriteHeader := cw_WriteHeader shutdownInitiated;
  Write := cw_Write shutdownInitiated;
  AsFlusher := Some cw_Flush;
  AsReaderFrom := Some (cw_ReadFrom shutdownInitiated);
  Panicked w := Panicked (ResponseWriter_ w)
|}.

End Decorator.

(** A handler runs on any response writer. *)
Definition Handler : Type := forall W, ResponseWriter W -> W -> result W.

(** [graceful(next)]: [gracefulShutdown] is the environment's
    [GRACEFUL_SHUTDOWN == "true"]. *)
Definition graceful (gracefulShutdown : bool) (shutdownInitiated : bool)
    (next : Handler) : Handler :=
  if negb gracefulShutdown then next
  else fun W _ w =>
    let cw := mkCloseWriter w false in
    match next (connectionCloseWriter W) (cw_writer shutdownInitiated) cw with
    | Return cw' sleeps => Return (ResponseWriter_ cw') sleeps
    | Panic => Panic
    end.

(** *** The latency sampler *)

(** The first loop of [buildInverseDiscreteCDF]: the running sums. *)
Fixpoint cumulate (cumProb : float32) (probabilities : list float32)
    : list float32 :=
  match probabilities with
  | [] => []
  | p :: ps => let cumProb := add cumProb p in cumProb :: cumulate cumProb ps
  end.

(** The loop of the returned closure: the index [i] of the first [cp] with
    [r <= cp], counted from [i]. *)
Fixpoint first_reached (r : float32) (cdf : list float32) (i : nat)
    : option nat :=
  match cdf with
  | [] => None
  | cp :: cdf' => if leb r cp then Some i else first_reached r cdf' (S i)
  end.

(** The closure is a function of the draw [r] of [rand.Float32()]; [None]
    is the panic of an index out of range. *)
Definition buildInverseDiscreteCDF (values : list Z)
    (probabilities : list float32) : float32 -> option Z :=
  let cdf := cumulate zero probabilities in
  fun r =>
    match first_reached r cdf 0 with
    | Some i => values !! i
    | None => last values
    end.

(** [rand.Int63n(n)]: panics for [n <= 0], otherwise reduces the accepted
    63-bit draw [v] modulo [n]. *)
Definition Int63n (v : Z) (n : Z) : option Z :=
  if n <=? 0 then None else Some (v mod n).

(** The query parameters [r.URL.Query().Get(..)] of a request to [/sleep]. *)
Record SleepQuery : Type := mkSleepQuery {
  q_min : string;
  q_max : string;
  q_pdf : string
}.

(** The draws of the random generator: [rand.Float32()], in [[0, 1)], and
    the 63 bits [rand.Int63n] reduces. *)
Record Rand : Type := mkRand {
  Float32_ : float32;
  Int63_ : Z
}.

Section Sleep.

(** [time.ParseDuration], [fmt.Sscanf(s, "%f", &prob)] on a [float32] and
    [Duration.String]; [None] is [err != nil]. *)
Variable ParseDuration : string -> option Z.
Variable Sscanf_f : string -> option float32.
Variable DurationString : Z -> string.

(** The [pdf] loop over the pairs, with its three accumulators; [inl] is
    the message of the [http.Error] it returns with. *)
Fixpoint parse_pairs (pairs : list string) (values : list Z)
    (probabilities : list float32) (totalProb : float32)
    : string + (list Z * list float32 * float32) :=
  match pairs with
  | [] => inr (values, probabilities, totalProb)
  | pair_ :: pairs' =>
      match SplitN2 ":" pair_ with
      | [durStr; probStr] =>
          match ParseDuration durStr with
          | None => inl ("Failed to parse duration in pdf" ++ nl)%string
          | Some dur =>
              match Sscanf_f probStr with
              | None => inl ("Failed to parse probability in pdf" ++ nl)%string
              | Some prob =>
                  parse_pairs pairs' (values ++ [dur])
                    (probabilities ++ [prob]) (add totalProb prob)
              end
          end
      | _ => inl ("Invalid pdf parameter" ++ nl)%string
      end
  end.

Definition slept_for (d : Z) : string :=
  ("Slept for " ++ DurationString d ++ nl)%string.

Definition sleep {W : Type} `{ResponseWriter W} (w : W) (r : SleepQuery)
    (rnd : Rand) : result W :=
  let lo := 50 * Millisecond in
  let hi := 1 * Second in
  let minD := q_min r in
  let maxD := q_max r in
  let pdf := q_pdf r in
  if negb (String.eqb pdf "") then
    match parse_pairs (Split "," pdf) [] [] zero with
    | inl msg => Return (Error msg StatusBadRequest w) []
    | inr (values, probabilities, totalProb) =>
        if leb totalProb zero then
          Return (Error ("Total probability in pdf must be greater than 0"
                           ++ nl)%string StatusBadRequest w) []
        else
          let invTotalProb := div one totalProb in
          let probabilities :=
            map (fun p => mul p invTotalProb) probabilities in
          let inverseCDF := buildInverseDiscreteCDF values probabilities in
          match inverseCDF (Float32_ rnd) with
          | None => Panic
          | Some sleepDuration =>
              Return (Write (slept_for sleepDuration) w) [sleepDuration]
          end
    end
  else
    let lo' :=
      match ParseDuration minD with
      | Some d => inr d
      | None => if negb (String.eqb minD "")
                then inl ("Failed to parse min duration" ++ nl)%string else inr lo
      end in
    match lo' with
    | inl msg => Return (Error msg StatusBadRequest w) []
    | inr lo =>
        let hi' :=
          match ParseDuration maxD with
          | Some d => inr d
          | None => if negb (String.eqb maxD "")
                    then inl ("Failed to parse max duration" ++ nl)%string else inr hi
          end in
        match hi' with
        | inl msg => Return (Error msg StatusBadRequest w) []
        | inr hi =>
            match Int63n (Int63_ rnd) (wrap64 (wrap64 (hi - lo) + 1)) with
            | None => Panic
            | Some k =>
                let sleepDuration := wrap64 (lo + k) in
                Return (Write (slept_for sleepDuration) w) [sleepDuration]
            end
        end
    end.

End Sleep.

(** *** The proxy relay *)

Definition traceHeaders : list string :=
  [ "X-Request-ID"; "X-B3-Traceid"; "X-B3-Spanid"; "X-B3-Parentspanid";
    "X-B3-Sampled"; "X-B3-Flags"; "X-Ot-Span-Context"; "Traceparent";
    "Tracestate"; "B3" ]%string.

Definition forwardTraceHeaders (src dest : Header) : Header :=
  fold_left
    (fun dest h =>
       let v := Get src h in
       if negb (String.eqb v "") then Set_ dest h v else dest)
    traceHeaders dest.

(** [client] is [client.Do]; [None] is [err != nil].  The handler panics
    on a path shorter than [/service], and in [w.WriteHeader] on a
    status code of the upstream that the server refuses. *)
Definition proxy {W : Type} `{ResponseWriter W} (service : string) (w : W)
    (r : Request) (client : Request -> option Response) : result W :=
  match NewRequest (Method r) service NoBody with
  | None => Return (Error ("Failed to create request" ++ nl)%string
                      StatusInternalServerError w) []
  | Some req =>
      let header := forwardTraceHeaders (ReqHeader r) (ReqHeader req) in
      match SliceFrom (1 + String.length service) (URL_Path r) with
      | None => Panic
      | Some path =>
          let req :=
            {| Method := Method req; URL_Scheme := URL_Scheme req;
               URL_Host := URL_Host req; URL_Path := path;
               URL_RawQuery := URL_RawQuery r; ReqHeader := header;
               Body := Body req |} in
          match client req with
          | None => Return (Error ("Request to envoy failed" ++ nl)%string
                              StatusBadGateway w) []
          | Some resp =>
              let w := WriteHeader (StatusCode resp) w in
              if Panicked w then Panic
              else Return (Copy (RespBody resp) w) []
          end
      end
  end.

(** *** The routes of [registerHandlers] *)

(** [now] is [time.Now().Format(http.TimeFormat)]. *)
Definition withLastModified (now : string) (next : Handler) : Handler :=
  fun W _ w => next W _ (HeaderSet "Last-Modified" now w).

(** The services the relay is mounted for, each on the pattern
    [/service/]. *)
Definition services : list string :=
  [ "envoy"; "nginx"; "varnish"; "node-demo"; "java-demo" ]%string.

(** The handler of [/sleep] and the handler of [/service/]. *)
Definition sleep_route (ParseDuration : string -> option Z)
    (Sscanf_f : string -> option float32) (DurationString : Z -> string)
    (gracefulShutdown shutdownInitiated : bool) (now : string)
    (r : SleepQuery) (rnd : Rand) : Handler :=
  graceful gracefulShutdown shutdownInitiated
    (withLastModified now
       (fun W _ w => sleep ParseDuration Sscanf_f DurationString w r rnd)).

Definition proxy_route (gracefulShutdown shutdownInitiated : bool)
    (service : string) (r : Request) (client : Request -> option Response)
    : Handler :=
  graceful gracefulShutdown shutdownInitiated
    (fun W _ w => proxy service w r client).

(** *** Readiness *)

Definition ready {W : Type} `{ResponseWriter W} (shutdownInitiated : bool)
    (w : W) : W :=
  if shutdownInitiated then
    WriteHeader StatusServiceUnavailable (HeaderSet "Connection" "close" w)
  else Write "OK" w.

(** *** Connection tracking *)

(** [atomic.Int32.Add]. *)
Definition Add (delta : Z) (n : Z) : Z := wrap32 (n + delta).

(** The [ConnState] hook of the server, on the value of [numConnections]. *)
Definition ConnState (state : Http.ConnState) (numConnections : Z) : Z :=
  match state with
  | StateNew => Add 1 numConnections
  | StateClosed | StateHijacked => Add (-1) numConnections
  | _ => numConnections
  end.

Definition replay (events : list Http.ConnState) (numConnections : Z) : Z :=
  fold_left (fun n state => ConnState state n) events numConnections.

(** *** Shutdown *)

(** Where the main goroutine is. *)
Inductive pc : Type :=
| AwaitSignal          (* main: <-done *)
| PreShutdownSleep     (* shutdown: time.Sleep(shutdownSleepDuration) *)
| DrainWait            (* doGracefulShutdown: <-gracefulChan *)
| ServerShutdown       (* shutdown: server.Shutdown(ctx) *)
| Exited               (* main returned *)
| Crashed.             (* an unrecovered panic *)

Record process : Type := mkProcess {
  at_pc : pc;
  shutdownInitiated : bool;
  numConnections : Z;
  timerPending : bool
}.

Definition start : process :=
  {| at_pc := AwaitSignal; shutdownInitiated := false; numConnections := 0;
     timerPending := false |}.

Inductive event : Type :=
| Signal               (* SIGTERM or SIGINT is delivered *)
| SleepElapsed         (* time.Sleep returns; the flag is stored *)
| Tick                 (* the ticker fires in the polling goroutine *)
| TimerFired           (* the function of time.AfterFunc runs *)
| ShutdownReturned     (* server.Shutdown returns *)
| Conn (state : Http.ConnState).

Definition goto (l : pc) (p : process) : process :=
  {| at_pc := l; shutdownInitiated := shutdownInitiated p;
     numConnections := numConnections p; timerPending := timerPending p |}.

(** One step of the process; [None] when the event cannot happen there.
    [gracefulShutdown] is the environment's [GRACEFUL_SHUTDOWN == "true"]. *)
Definition step (gracefulShutdown : bool) (e : event) (p : process)
    : option process :=
  match e, at_pc p with
  | Signal, AwaitSignal => Some (goto PreShutdownSleep p)
  | Signal, _ => Some p
  | SleepElapsed, PreShutdownSleep =>
      Some {| at_pc := if gracefulShutdown then DrainWait else ServerShutdown;
              shutdownInitiated := true;
              numConnections := numConnections p;
              timerPending := gracefulShutdown |}
  | Tick, DrainWait =>
      if numConnections p =? 0 then Some (goto ServerShutdown p) else Some p
  | TimerFired, DrainWait =>
      Some {| at_pc := ServerShutdown;
              shutdownInitiated := shutdownInitiated p;
              numConnections := numConnections p;
              timerPending := false |}
  | TimerFired, ServerShutdown =>
      (* close of a channel the polling goroutine has closed *)
      if timerPending p then Some (goto Crashed p) else None
  | ShutdownReturned, ServerShutdown => Some (goto Exited p)
  | Conn state, (Exited | Crashed) => None
  | Conn state, _ =>
      Some {| at_pc := at_pc p; shutdownInitiated := shutdownInitiated p;
              numConnections := ConnState state (numConnections p);
              timerPending := timerPending p |}
  | _, _ => None
  end.

Fixpoint steps (gracefulShutdown : bool) (es : list event) (p : process)
    : option process :=
  match es with
  | [] => Some p
  | e :: es' =>
      match step gracefulShutdown e p with
      | Some p' => steps gracefulShutdown es' p'
      | None => None
      end
  end.

(** The response to [GET /ready] in a state of the process. *)
Definition serve_ready (p : process) : response :=
  ready (shutdownInitiated p) new_response.

(** The wait of [doGracefulShutdown], in nanoseconds since it began.  The
    ticker fires every [tickInterval]; the timer at
    [clientSideIdleTimeout]; [numConnections t] is what the load at time
    [t] returns; [timerFirst] says who runs first when both are due. The
    result is the time [gracefulChan] is closed at and who closed it. *)
Definition tickInterval : Z := 500 * Millisecond.

Inductive closer : Type := ByPoller | ByTimer.

Fixpoint poll (fuel : nat) (numConnections : Z -> Z) (timerFirst : bool)
    (t : Z) : option (Z * closer) :=
  match fuel with
  | O => None
  | S fuel' =>
      if (clientSideIdleTimeout <? t)
         || ((clientSideIdleTimeout =? t) && timerFirst)
      then Some (clientSideIdleTimeout, ByTimer)
      else if numConnections t =? 0 then Some (t, ByPoller)
      else poll fuel' numConnections timerFirst (t + tickInterval)
  end.

Definition doGracefulShutdown (fuel : nat) (numConnections : Z -> Z)
    (timerFirst : bool) : option (Z * closer) :=
  poll fuel numConnections timerFirst tickInterval.

End GoDemo.

(** ** The drain loop of the Node.js demo *)

Module NodeDemo.

Record config : Type := mkConfig {
  ENABLE_DRAIN : bool;
  DRAIN_TIMEOUT : Z;
  KEEP_ALIVE_TIMEOUT : Z
}.

(** The module-level [draining], whether [server.close] has been called,
    and the milliseconds since the signal. *)
Record server : Type := mkServer {
  draining : bool;
  closeCalled : bool;
  clock : Z
}.

Definition listening : server :=
  {| draining := false; closeCalled := false; clock := 0 |}.

Definition close (s : server) : server :=
  {| draining := draining s; closeCalled := true; clock := clock s |}.

Definition delay (ms : Z) (s : server) : server :=
  {| draining := draining s; closeCalled := closeCalled s;
     clock := clock s + ms |}.

(** Whether the asynchronous function has returned or is still in its
    [while (true)]. *)
Inductive activity : Type := Returned | Looping.

(** The loop of [drainConnections], for at most [fuel] polls.
    [getConnections i] is what the [i]-th [await getConnectionsAsync]
    yields; [None] is the rejected promise. *)
Fixpoint drain_loop (fuel : nat) (getConnections : nat -> option Z)
    (i : nat) (s : server) : server * activity :=
  match fuel with
  | O => (s, Looping)
  | S fuel' =>
      match getConnections i with
      | None => (s, Returned)
      | Some count =>
          if count <=? 0 then (close s, Returned)
          else drain_loop fuel' getConnections (S i) (delay 500 s)
      end
  end.

Definition drainConnections (fuel : nat) (getConnections : nat -> option Z)
    (s : server) : server * activity :=
  let s := {| draining := true; closeCalled := closeCalled s;
              clock := clock s |} in
  drain_loop fuel getConnections O s.

Definition gracefulShutdown (cfg : config) (fuel : nat)
    (getConnections : nat -> option Z) (s : server) : server * activity :=
  if negb (ENABLE_DRAIN cfg) || (DRAIN_TIMEOUT cfg <=? 0) then
    (close s, Returned)
  else drainConnections fuel getConnections s.

End NodeDemo.

(** ** The proxy of the Java demo *)

Module JavaDemo.

Import Strings.

Record HttpServletRequest : Type := mkServletRequest {
  getMethod : string;
  getRequestURI : string;
  getQueryString : option string;
  getHeader : string -> option string;
  getBody : string
}.

Definition TRACE_HEADERS : list string :=
  [ "x-request-id"; "x-b3-traceid"; "x-b3-spanid"; "x-b3-parentspanid";
    "x-b3-sampled"; "x-b3-flags"; "x-ot-span-context"; "traceparent";
    "tracestate"; "b3" ]%string.

(** [HttpHeaders]: the pairs added, in order. *)
Definition HttpHeaders : Type := list (string * string).

Definition forwardTraceHeaders (from : HttpServletRequest) (to : HttpHeaders)
    : HttpHeaders :=
  fold_left
    (fun to header =>
       match getHeader from header with
       | Some value => to ++ [(header, value)]
       | None => to
       end)
    TRACE_HEADERS to.

(** [new HttpEntity<>(headers)] has no body. *)
Record HttpEntity : Type := mkEntity {
  headers : HttpHeaders;
  entityBody : option string
}.

Record Exchange : Type := mkExchange {
  uriHost : string;
  uriPath : string;
  uriQuery : option string;
  method : string;
  entity : HttpEntity
}.

(** [restTemplate] is [restTemplate.exchange(..).getBody()]; [None] is an
    exception, also the one of [substring] past the end. *)
Definition proxy (serviceName : string) (request : HttpServletRequest)
    (restTemplate : Exchange -> option string) : option string :=
  let method := getMethod request in
  let headers := forwardTraceHeaders request [] in
  let httpEntity := {| headers := headers; entityBody := None |} in
  match SliceFrom (String.length ("/" ++ serviceName)%string)
          (getRequestURI request) with
  | None => None
  | Some path =>
      restTemplate
        {| uriHost := serviceName; uriPath := path;
           uriQuery := getQueryString request; method := method;
           entity := httpEntity |}
  end.

End JavaDemo.

(** ** The words of the specification *)

Module Spec.

Import Http.

(** The phase of the specification, read off a state of the Go process:
    running until the flag is stored, draining while the process waits in
    [doGracefulShutdown], stopped from [server.Shutdown] on. *)
Inductive Phase : Type := Running | Draining | Stopped.

Definition phase_of (p : GoDemo.process) : Phase :=
  if negb (GoDemo.shutdownInitiated p) then Running
  else match GoDemo.at_pc p with
       | GoDemo.DrainWait => Draining
       | _ => Stopped
       end.

Definition is_SleepElapsed (e : GoDemo.event) : bool :=
  match e with GoDemo.SleepElapsed => true | _ => false end.

Definition is_open (s : ConnState) : bool :=
  match s with StateNew => true | _ => false end.

(** Closed, or taken over by another protocol. *)
Definition is_close (s : ConnState) : bool :=
  match s with StateClosed | StateHijacked => true | _ => false end.

Fixpoint count (f : ConnState -> bool) (events : list ConnState) : Z :=
  match events with
  | [] => 0
  | s :: events' => (if f s then 1 else 0) + count f events'
  end.

Definition opens : list ConnState -> Z := count is_open.
Definition closes : list ConnState -> Z := count is_close.

(** The contract of the transport.  The hook is called with the
    connection and its state, and the server reports the states of a
    connection in the order of its life: [StateNew] first and once,
    [StateActive] and [StateIdle] while it is open, and one of the final
    states [StateHijacked] and [StateClosed], once.  [report open e] is
    the set of the open connections after the event [e], or [None] for
    an event that the transport does not report when the connections
    [open] are open. *)
Definition report (open : gset nat) (e : nat * ConnState)
    : option (gset nat) :=
  let conn := fst e in
  match snd e with
  | StateNew =>
      if decide (conn ∈ open) then None else Some ({[conn]} ∪ open)
  | StateActive | StateIdle =>
      if decide (conn ∈ open) then Some open else None
  | StateHijacked | StateClosed =>
      if decide (conn ∈ open) then Some (open ∖ {[conn]}) else None
  end.

Fixpoint reports (events : list (nat * ConnState)) (open : gset nat)
    : option (gset nat) :=
  match events with
  | [] => Some open
  | e :: events' =>
      match report open e with
      | Some open' => reports events' open'
      | None => None
      end
  end.

(** The states the hook sees, the connection left out as the hook does. *)
Definition states (events : list (nat * ConnState)) : list ConnState :=
  map snd events.

(** At every prefix the live count is in the range of the 32-bit
    counter: fewer than [2 ^ 31] connections are open at a time. *)
Definition fits (events : list ConnState) : Prop :=
  forall k : nat,
    opens (take k events) - closes (take k events) <= Int.max_int32.

(** The calls on the server's response that set [Connection: close]. *)
Definition is_close_set (c : call) : bool :=
  match c with
  | CSet key value =>
      String.eqb (CanonicalMIMEHeaderKey key) "Connection"
      && String.eqb value "close"
  | _ => false
  end.

Fixpoint close_sets (cs : list call) : nat :=
  match cs with
  | [] => O
  | c :: cs' => ((if is_close_set c then 1 else 0) + close_sets cs')%nat
  end.

(** *** The weighted distribution of the sampler *)

Section Distribution.
Variable ParseDuration : string -> option Z.
Variable Sscanf_f : string -> option Float32.float32.

(** A pair without the shape [duration:weight]. *)
Definition malformed (pair_ : string) : Prop :=
  forall durStr probStr, Strings.SplitN2 ":" pair_ <> [durStr; probStr].

Definition bad_duration (pair_ : string) : Prop :=
  exists durStr probStr,
    Strings.SplitN2 ":" pair_ = [durStr; probStr]
    /\ ParseDuration durStr = None.

Definition bad_weight (pair_ : string) : Prop :=
  exists durStr probStr,
    Strings.SplitN2 ":" pair_ = [durStr; probStr]
    /\ Sscanf_f probStr = None.

(** The (duration, weight) entry a pair stands for. *)
Definition entry (pair_ : string) : option (Z * Float32.float32) :=
  match Strings.SplitN2 ":" pair_ with
  | [durStr; probStr] =>
      match ParseDuration durStr, Sscanf_f probStr with
      | Some dur, Some prob => Some (dur, prob)
      | _, _ => None
      end
  | _ => None
  end.

(** The entries of a [pdf] parameter, in the given order. *)
Definition entries (pdf : string) : list (Z * Float32.float32) :=
  omap entry (Strings.Split "," pdf).

Definition total (weights : list Float32.float32) : Float32.float32 :=
  fold_left Float32.add weights Float32.zero.

(** Invalid input: a pair that is malformed or has an unparsable duration
    or weight, or a total weight that is zero or negative. *)
Definition invalid (pdf : string) : Prop :=
  (exists pair_, In pair_ (Strings.Split "," pdf)
     /\ (malformed pair_ \/ bad_duration pair_ \/ bad_weight pair_))
  \/ Float32.leb (total (map snd (entries pdf))) Float32.zero = true.

End Distribution.

(** The weights scaled by the reciprocal of their total. *)
Definition normalized (weights : list Float32.float32)
    : list Float32.float32 :=
  map (fun p => Float32.mul p (Float32.div Float32.one (total weights)))
      weights.

(** The cumulative distribution in the given order: entry [i] is the sum
    of the first [i + 1] probabilities. *)
Definition cumulative (probabilities : list Float32.float32)
    : list Float32.float32 :=
  map (fun i => fold_left Float32.add (take (S i) probabilities) Float32.zero)
      (seq 0 (length probabilities)).

(** [d] is the duration of the first entry whose cumulative probability is
    [>= r], or of the last entry when there is none. *)
Definition selected (r : Float32.float32) (cdf : list Float32.float32)
    (values : list Z) (d : Z) : Prop :=
  (exists (i : nat) cp,
      cdf !! i = Some cp /\ Float32.leb r cp = true
      /\ (forall (j : nat) cq, (j < i)%nat -> cdf !! j = Some cq ->
            Float32.leb r cq = false)
      /\ values !! i = Some d)
  \/ ((forall cp, In cp cdf -> Float32.leb r cp = false)
      /\ last values = Some d).

(** *** The proxy relay *)

(** A header name of the allow-list, up to the case of its letters. *)
Definition listed (l : list string) (h : string) : bool :=
  existsb (String.eqb (CanonicalMIMEHeaderKey h))
    (map CanonicalMIMEHeaderKey l).

Definition allow_listed : string -> bool := listed GoDemo.traceHeaders.


(** The same request with another body. *)
Definition with_body (b : Reader) (r : Request) : Request :=
  {| Method := Method r; URL_Scheme := URL_Scheme r; URL_Host := URL_Host r;
     URL_Path := URL_Path r; URL_RawQuery := URL_RawQuery r;
     ReqHeader := ReqHeader r; Body := b |}.

Definition servlet_with_body (b : string) (r : JavaDemo.HttpServletRequest)
    : JavaDemo.HttpServletRequest :=
  {| JavaDemo.getMethod := JavaDemo.getMethod r;
     JavaDemo.getRequestURI := JavaDemo.getRequestURI r;
     JavaDemo.getQueryString := JavaDemo.getQueryString r;
     JavaDemo.getHeader := JavaDemo.getHeader r;
     JavaDemo.getBody := b |}.

(** The upstream request for a request with a valid method: the method
    and the query string of the incoming request, the allow-listed
    headers, the given path and no body, to [http://service]. *)
Definition upstream (service : string) (r : Request) (path : string)
    : Request :=
  {| Method := Method r; URL_Scheme := "http"; URL_Host := service;
     URL_Path := path; URL_RawQuery := URL_RawQuery r;
     ReqHeader := GoDemo.forwardTraceHeaders (ReqHeader r) ∅;
     Body := NoBody |}.

(** What the relay answers with, given what the upstream answered. *)
Definition relay {W : Type} `{ResponseWriter W} (w : W)
    (upstream : option Response) : GoDemo.result W :=
  match upstream with
  | Some resp =>
      let w := WriteHeader (StatusCode resp) w in
      if Panicked w then GoDemo.Panic
      else GoDemo.Return (Copy (RespBody resp) w) []
  | None =>
      GoDemo.Return
        (Error ("Request to envoy failed" ++ nl)%string StatusBadGateway w) []
  end.

(** The header map is [h], and what is on the wire, if anything, is a
    snapshot of [h]. *)
Definition carries (h : Header) (w : response) : Prop :=
  header w = h /\ (wire w = None \/ exists code, wire w = Some (code, h)).

End Spec.

(** ** Sample instances of the library functions

    The three parameters of [sleep], on the literals of the examples of
    the specification. *)

Module Sample.

Import Duration.

Definition ParseDuration (s : string) : option Z :=
  if String.eqb s "50ms" then Some (50 * Millisecond)
  else if String.eqb s "100ms" then Some (100 * Millisecond)
  else if String.eqb s "150ms" then Some (150 * Millisecond)
  else if String.eqb s "200ms" then Some (200 * Millisecond)
  else None.

Definition Sscanf_f (s : string) : option Float32.float32 :=
  if String.eqb s "0" then Some Float32.zero
  else if String.eqb s "1" then Some Float32.one
  else None.

Definition DurationString (d : Z) : string :=
  if d =? 50 * Millisecond then "50ms"
  else if d =? 100 * Millisecond then "100ms"
  else if d =? 150 * Millisecond then "150ms"
  else if d =? 200 * Millisecond then "200ms"
  else "?".

(** [float32(0.25)] and [float32(0.75)]. *)
Definition quarter : Float32.float32 := S754_finite false 8388608 (-25).
Definition three_quarters : Float32.float32 :=
  S754_finite false 12582912 (-24).

End Sample.

(** ** Further words for the properties of the code *)

Module More.

Import Http.

(** Two responses with one body and one status line. *)
Definition same_answer (w1 w2 : response) : Prop :=
  body w1 = body w2 /\ status_of w1 = status_of w2.

(** The header names [http.Error] deletes or sets. *)
Definition error_header (k : string) : bool :=
  existsb (String.eqb (CanonicalMIMEHeaderKey k))
    [ "Content-Length"; "Content-Type"; "X-Content-Type-Options" ]%string.

(** The first value a header map has under a key as it is stored, [""]
    without one. *)
Definition first_value (h : Header) (k : string) : string :=
  match h !! k with
  | Some (v :: _) => v
  | _ => EmptyString
  end.

(** The keys the allow-list of the Go relay is stored under. *)
Definition trace_key (k : string) : bool :=
  existsb (String.eqb k) (map CanonicalMIMEHeaderKey GoDemo.traceHeaders).

(** The order of the phases. *)
Definition rank (ph : Spec.Phase) : nat :=
  match ph with
  | Spec.Running => 0
  | Spec.Draining => 1
  | Spec.Stopped => 2
  end.

(** The flag is unset exactly while the main goroutine waits for the
    signal or sleeps before the shutdown. *)
Definition flag_matches_pc (p : GoDemo.process) : Prop :=
  match GoDemo.at_pc p with
  | GoDemo.AwaitSignal | GoDemo.PreShutdownSleep =>
      GoDemo.shutdownInitiated p = false
  | _ => GoDemo.shutdownInitiated p = true
  end.

(** A draw scaled to [x] lies between zero and [x]. *)
Definition scales (scaled : Z -> Z) : Prop :=
  forall x, - 2 ^ 53 <= x <= 2 ^ 53 ->
            (0 <= x -> 0 <= scaled x <= x) /\ (x <= 0 -> x <= scaled x <= 0).

End More.

(** ** [go-demo/main.go]: the status endpoint *)

Module GoStatus.

Import Http GoDemo.

Section Status.

(** [fmt.Sscanf(codeStr, "%d", &code)] on an [int] ([None] is
    [err != nil]) and the [%d] of [fmt.Fprintf]. *)
Variable Sscanf_d : string -> option Z.
Variable FormatInt : Z -> string.

Definition returned (code : Z) : string :=
  ("Returned status code " ++ FormatInt code ++ nl)%string.

(** [codeStr] is [r.URL.Query().Get("code")]. *)
Definition status {W : Type} `{ResponseWriter W} (w : W) (codeStr : string)
    : W :=
  if String.eqb codeStr "" then
    Error ("Missing code parameter" ++ nl)%string StatusBadRequest w
  else
    match Sscanf_d codeStr with
    | None => Error ("Invalid code parameter" ++ nl)%string StatusBadRequest w
    | Some code =>
        if (code <? 100) || (599 <? code) then
          Error ("Invalid code parameter" ++ nl)%string StatusBadRequest w
        else
          let w := WriteHeader code w in
          Write (returned code) w
    end.

(** The handler of [/status] in [registerHandlers]. *)
Definition status_route (gracefulShutdown shutdownInitiated : bool)
    (codeStr : string) : Handler :=
  graceful gracefulShutdown shutdownInitiated
    (fun W _ w => Return (status w codeStr) []).

End Status.

End GoStatus.

(** ** More sample instances of the library functions *)

Module SampleMore.

(** [fmt.Sscanf] with [%f], also on the literal [NaN]. *)
Definition Sscanf_f (s : string) : option Float32.float32 :=
  if String.eqb s "NaN" then Some S754_nan else Sample.Sscanf_f s.

(** [fmt.Sscanf] with [%d] on a few literals. *)
Definition Sscanf_d (s : string) : option Z :=
  if String.eqb s "103" then Some 103
  else if String.eqb s "204" then Some 204
  else if String.eqb s "404" then Some 404
  else if String.eqb s "99" then Some 99
  else if String.eqb s "600" then Some 600
  else None.

Definition FormatInt (n : Z) : string :=
  if n =? 103 then "103"
  else if n =? 204 then "204" else if n =? 404 then "404" else "?".

End SampleMore.

(** ** The Node.js demo: [respond] *)

Module NodeRespond.

Import NodeDemo.

(** A [ServerResponse]: the status code, the headers under their
    lower-case names, and the body once [end] has been called. *)
Record res : Type := mkRes {
  statusCode : Z;
  headers : gmap string string;
  ended : option string
}.

Definition fresh : res :=
  {| statusCode := 200; headers := ∅; ended := None |}.

Definition setHeader (name value : string) (r : res) : res :=
  {| statusCode := statusCode r; headers := <[name := value]> (headers r);
     ended := ended r |}.

Definition respond (cfg : config) (s : server) (r : res) (status : Z)
    (msg : string) : res :=
  let r := {| statusCode := status; headers := headers r;
              ended := ended r |} in
  let r := setHeader "content-type" "text/plain" r in
  let r := if ENABLE_DRAIN cfg && draining s
           then setHeader "connection" "close" r else r in
  {| statusCode := statusCode r; headers := headers r; ended := Some msg |}.

End NodeRespond.

(** ** The Java demo: [sleep] *)

Module JavaSleep.

Import Int.

(** [scaled x] is [(long) (Math.random() * x)], the product of the draw
    and the [long] [x] as a [double], truncated.  The result is the
    argument of [Thread.sleep]. *)
Definition sleep (scaled : Z -> Z) (min max : Z) : Z :=
  let min := Z.max 0 min in
  let max := Z.min 30000 (Z.max min max) in
  let sleepTime := wrap64 (min + scaled (wrap64 (max - min))) in
  sleepTime.

End JavaSleep.

(** * Properties *)

(** ** Machine integers *)

Section IntFacts.
Import Int.

Lemma wrap32_small (x : Z) : - 2 ^ 31 <= x <= max_int32 -> wrap32 x = x.
Proof.
  unfold wrap32, wrap, max_int32. intros Hx.
  change (2 ^ (32 - 1)) with 2147483648 in *.
  change (2 ^ 32) with 4294967296 in *.
  change (2 ^ 31) with 2147483648 in *.
  rewrite Z.mod_small; lia.
Qed.

Lemma wrap32_range (x : Z) : - 2 ^ 31 <= wrap32 x <= max_int32.
Proof.
  unfold wrap32, wrap, max_int32.
  change (2 ^ (32 - 1)) with 2147483648.
  change (2 ^ 32) with 4294967296.
  change (2 ^ 31) with 2147483648.
  pose proof (Z.mod_pos_bound (x + 2147483648) 4294967296 ltac:(lia)). lia.
Qed.

Lemma wrap32_add_l (x d : Z) : wrap32 (wrap32 x + d) = wrap32 (x + d).
Proof.
  unfold wrap32, wrap.
  change (2 ^ (32 - 1)) with 2147483648.
  change (2 ^ 32) with 4294967296.
  f_equal.
  replace ((x + 2147483648) mod 4294967296 - 2147483648 + d + 2147483648)
    with ((x + 2147483648) mod 4294967296 + d) by lia.
  rewrite Zplus_mod_idemp_l. f_equal. lia.
Qed.

Lemma wrap64_small (x : Z) : in_int64 x -> wrap64 x = x.
Proof.
  unfold in_int64, min_int64, max_int64, wrap64, wrap. intros Hx.
  change (2 ^ (64 - 1)) with 9223372036854775808 in *.
  change (2 ^ 64) with 18446744073709551616 in *.
  change (2 ^ 63) with 9223372036854775808 in *.
  rewrite Z.mod_small; lia.
Qed.

End IntFacts.

(** ** The connection tracker *)

Section Tracker.
Import Int Http Spec.

(** The hook adds one for an open and takes one off for a close, in 32
    bits, whatever the sequence. *)
Lemma replay_wrap events : forall n,
  - 2 ^ 31 <= n <= max_int32 ->
  GoDemo.replay events n = wrap32 (n + opens events - closes events).
Proof.
  unfold opens, closes.
  induction events as [|s events IH]; intros n Hn; simpl.
  - rewrite wrap32_small by lia. unfold GoDemo.replay. simpl. lia.
  - unfold GoDemo.replay in *. simpl.
    destruct s; simpl; unfold GoDemo.Add.
    all: try (rewrite IH by assumption; f_equal; lia).
    all: rewrite IH by apply wrap32_range.
    all: rewrite <- Z.add_sub_assoc, wrap32_add_l; f_equal; lia.
Qed.

Lemma reports_app events1 : forall events2 (open : gset nat),
  reports (events1 ++ events2) open
  = match reports events1 open with
    | Some open' => reports events2 open'
    | None => None
    end.
Proof.
  induction events1 as [|e events1 IH]; intros events2 open; [reflexivity|].
  cbn [app reports]. destruct (report open e); [apply IH | reflexivity].
Qed.

(** What the transport reports keeps the books: the opens less the
    closes are the connections that the sequence leaves open, less those
    that were open before it. *)
Lemma reports_count events : forall open open' : gset nat,
  reports events open = Some open' ->
  opens (states events) - closes (states events)
  = Z.of_nat (size open') - Z.of_nat (size open).
Proof.
  unfold opens, closes, states.
  induction events as [|[conn s] events IH]; intros open open' Hr.
  - cbn in Hr. inversion Hr; subst. cbn. lia.
  - cbn [reports] in Hr. unfold report in Hr. cbn [fst snd] in Hr.
    cbn [map snd count].
    destruct s; cbn [is_open is_close];
      destruct (decide (conn ∈ open)) as [Hin|Hnin]; try discriminate Hr;
      specialize (IH _ _ Hr).
    + rewrite size_union, size_singleton in IH by set_solver. lia.
    + lia.
    + lia.
    + rewrite size_difference, size_singleton in IH by set_solver.
      assert (size open <> 0%nat) by (apply size_non_empty_iff; set_solver).
      lia.
    + rewrite size_difference, size_singleton in IH by set_solver.
      assert (size open <> 0%nat) by (apply size_non_empty_iff; set_solver).
      lia.
Qed.

(** C4: for every sequence of connection events that the transport
    reports (every close, a closed or a hijacked connection, after the
    open of its connection, and once) to a server that starts without
    connections, and that at no time has more connections open than the
    32-bit counter holds, the count after every prefix is the number of
    opens minus the number of closes of that prefix; it is the number of
    the connections that are open then, and so it is never negative. *)
Theorem tracker_count_balanced (events : list (nat * ConnState))
    (open : gset nat) :
  reports events ∅ = Some open ->
  fits (states events) ->
  forall k : nat,
    let pre := take k events in
    GoDemo.replay (states pre) 0
      = opens (states pre) - closes (states pre)
    /\ 0 <= GoDemo.replay (states pre) 0
    /\ exists open_k : gset nat,
         reports pre ∅ = Some open_k
         /\ GoDemo.replay (states pre) 0 = Z.of_nat (size open_k).
Proof.
  intros Hr Hfit k pre.
  assert (Hpre : exists open_k, reports pre ∅ = Some open_k).
  { rewrite <- (take_drop k events), reports_app in Hr. fold pre in Hr.
    destruct (reports pre ∅) as [open_k|]; [eauto | discriminate]. }
  destruct Hpre as [open_k Hk].
  pose proof (reports_count pre ∅ open_k Hk) as Hc.
  rewrite size_empty in Hc.
  assert (Hle : opens (states pre) - closes (states pre) <= max_int32).
  { specialize (Hfit k). unfold states in *. subst pre.
    rewrite firstn_map in Hfit. exact Hfit. }
  assert (Hv : GoDemo.replay (states pre) 0
               = opens (states pre) - closes (states pre)).
  { rewrite replay_wrap by (unfold max_int32; lia).
    apply wrap32_small. lia. }
  split; [exact Hv|]. split; [lia|].
  exists open_k. split; [exact Hk | lia].
Qed.

Lemma tracker_count_balanced_witness :
  let events := [(1%nat, StateNew); (1%nat, StateActive); (2%nat, StateNew);
                 (1%nat, StateIdle); (1%nat, StateClosed);
                 (2%nat, StateHijacked)] in
  GoDemo.replay (states (take 5 events)) 0 = 1
  /\ 0 <= GoDemo.replay (states (take 5 events)) 0.
Proof.
  intros events.
  assert (Hr : reports events ∅ = Some (∅ : gset nat))
    by (vm_compute; reflexivity).
  assert (Hfit : fits (states events)).
  { intros k. do 7 (try destruct k as [|k]); vm_compute; congruence. }
  destruct (tracker_count_balanced events _ Hr Hfit 5) as (Hc & Hn & _).
  split; [exact Hc | exact Hn].
Defined.

End Tracker.

(** ** The server's response *)

Section ResponseFacts.
Import Http.

(** The codes that commit the header: three digits, and not sent as an
    informational response. *)
Lemma final_code (code : Z) :
  200 <= code <= 999 ->
  checkWriteHeaderCode code = true /\ informational code = false.
Proof.
  intros Hc. unfold checkWriteHeaderCode, informational. split.
  - apply andb_true_iff. split; apply Z.leb_le; lia.
  - apply andb_false_iff. left. apply andb_false_iff. right.
    apply Z.leb_gt. lia.
Qed.



Lemma commit_committed code (w : response) x :
  wire w = Some x -> commit code w = w.
Proof. unfold commit. intros ->. reflexivity. Qed.

Lemma commit_final code (w : response) :
  wire w = None -> 200 <= code <= 999 ->
  commit code w
  = {| header := header w; early := early w; wire := Some (code, header w);
       body := body w; calls := calls w; panicked := panicked w |}.
Proof.
  intros Hw Hc. destruct (final_code code Hc) as [Hv Hi].
  unfold commit. rewrite Hw, Hv, Hi. reflexivity.
Qed.

Lemma commit_header code (w : response) : header (commit code w) = header w.
Proof.
  unfold commit. destruct (wire w); [reflexivity|].
  destruct (negb _); [reflexivity|]. destruct (informational _); reflexivity.
Qed.

Lemma commit_body code (w : response) : body (commit code w) = body w.
Proof.
  unfold commit. destruct (wire w); [reflexivity|].
  destruct (negb _); [reflexivity|]. destruct (informational _); reflexivity.
Qed.

Lemma commit_calls code (w : response) : calls (commit code w) = calls w.
Proof.
  unfold commit. destruct (wire w); [reflexivity|].
  destruct (negb _); [reflexivity|]. destruct (informational _); reflexivity.
Qed.

(** A committed header stays, and a header is committed as the header
    map is then. *)
Lemma commit_wire code (w : response) :
  wire (commit code w)
  = match wire w with
    | Some x => Some x
    | None =>
        if checkWriteHeaderCode code && negb (informational code)
        then Some (code, header w) else None
    end.
Proof.
  unfold commit. destruct (wire w) eqn:E; [exact E|].
  destruct (checkWriteHeaderCode code); cbn [negb andb]; [|reflexivity].
  destruct (informational code); reflexivity.
Qed.

(** A call panics on an uncommitted header and a code that has not
    three digits, and nowhere else. *)
Lemma commit_panicked code (w : response) :
  panicked (commit code w)
  = panicked w
    || match wire w with
       | Some _ => false
       | None => negb (checkWriteHeaderCode code)
       end.
Proof.
  unfold commit. destruct (wire w); [rewrite orb_false_r; reflexivity|].
  destruct (checkWriteHeaderCode code); cbn [negb].
  - rewrite orb_false_r. destruct (informational code); reflexivity.
  - rewrite orb_true_r. reflexivity.
Qed.

Lemma commit_OK (w : response) :
  wire w = None ->
  commit StatusOK w
  = {| header := header w; early := early w;
       wire := Some (StatusOK, header w);
       body := body w; calls := calls w; panicked := panicked w |}.
Proof. intros Hw. apply commit_final; [exact Hw | unfold StatusOK; lia]. Qed.

Lemma send_header c (w : response) : header (send c w) = header w.
Proof.
  unfold send. destruct (bodyAllowed _); cbn [header]; apply commit_header.
Qed.

Lemma send_calls c (w : response) : calls (send c w) = calls w.
Proof.
  unfold send. destruct (bodyAllowed _); cbn [calls]; apply commit_calls.
Qed.

Lemma send_wire c (w : response) : wire (send c w) = wire (commit StatusOK w).
Proof. unfold send. destruct (bodyAllowed _); reflexivity. Qed.

Lemma send_panicked c (w : response) : panicked (send c w) = panicked w.
Proof.
  unfold send. destruct (bodyAllowed _); cbn [panicked];
    rewrite commit_panicked; destruct (wire w); apply orb_false_r.
Qed.

(** The bytes are taken when the status of the response allows a body. *)
Lemma send_body c (w : response) :
  body (send c w)
  = if bodyAllowed (commit StatusOK w) then (body w ++ c)%string else body w.
Proof.
  unfold send. destruct (bodyAllowed _); cbn [body]; rewrite commit_body;
    reflexivity.
Qed.

Lemma send_committed c (w : response) x :
  wire w = Some x -> wire (send c w) = Some x.
Proof. intros Hw. rewrite send_wire, (commit_committed _ _ _ Hw). exact Hw. Qed.


(** A header committed by [WriteHeader] with a final code, and then a
    write. *)
Lemma WriteHeader_Write_wire code b (w : response) :
  wire w = None -> 200 <= code <= 999 ->
  wire (Write b (WriteHeader code w)) = Some (code, header w).
Proof.
  intros Hw Hc. cbn [Write WriteHeader response_writer log wire].
  apply send_committed. cbn [log wire].
  rewrite (commit_final code w Hw Hc). reflexivity.
Qed.

End ResponseFacts.

(** ** The response decorator *)

Section DecoratorFacts.
Import Http GoDemo.
Context {W : Type} `{ResponseWriter W}.

Lemma injectHeader_written sd (w : connectionCloseWriter W) :
  headerWritten w = true -> injectHeader sd w = w.
Proof. unfold injectHeader. intros ->. reflexivity. Qed.

(** Once the flag is set the decorator passes every call through, whatever
    the shared flag says. *)
Lemma exec_written sd o (w : connectionCloseWriter W) :
  headerWritten w = true ->
  exec sd o w = on_inner (exec_plain o) w.
Proof.
  intros Hw. destruct o; unfold exec, exec_plain;
    unfold cw_WriteHeader, cw_Write, cw_Flush, cw_ReadFrom;
    rewrite ?injectHeader_written by assumption; try reflexivity.
  - destruct AsFlusher; [reflexivity|]. destruct w; reflexivity.
  - unfold Copy. destruct AsReaderFrom; reflexivity.
Qed.

Lemma run_written ops : forall w : connectionCloseWriter W,
  headerWritten w = true ->
  run ops w = on_inner (run_plain (map snd ops)) w.
Proof.
  induction ops as [|[sd o] ops IH]; intros w Hw.
  - destruct w; reflexivity.
  - unfold run, run_plain in *. simpl.
    rewrite exec_written by assumption.
    rewrite IH by (simpl; assumption). reflexivity.
Qed.

(** A flush does not look at the flag. *)
Lemma exec_flush sd (w : connectionCloseWriter W) :
  exec sd OpFlush w = on_inner (exec_plain OpFlush) w.
Proof.
  unfold exec, exec_plain, cw_Flush. destruct AsFlusher; [reflexivity|].
  destruct w; reflexivity.
Qed.

Lemma run_flushes pre : forall w : connectionCloseWriter W,
  Forall (fun x => snd x = OpFlush) pre ->
  run pre w = on_inner (run_plain (map snd pre)) w.
Proof.
  induction pre as [|[sd o] pre IH]; intros w Hpre.
  - destruct w; reflexivity.
  - inversion Hpre as [|? ? Ho Hpre']; subst. simpl in Ho. subst o.
    unfold run, run_plain in *. simpl fold_left.
    change (cw_Flush w) with (exec sd OpFlush w).
    rewrite exec_flush, IH by assumption. reflexivity.
Qed.

(** The first write of a response takes the decision. *)
Lemma exec_first_write sd o (w : W) :
  is_write o = true ->
  exec sd o (mkCloseWriter w false)
  = mkCloseWriter
      (exec_plain o (if sd then HeaderSet "Connection" "close" w else w))
      true.
Proof.
  intros Ho. destruct o; try discriminate; unfold exec, exec_plain;
    unfold cw_WriteHeader, cw_Write, cw_ReadFrom, injectHeader, on_inner;
    simpl; destruct sd; simpl; try reflexivity.
  all: unfold Copy; destruct AsReaderFrom; reflexivity.
Qed.

Lemma run_app ops1 ops2 (w : connectionCloseWriter W) :
  run (ops1 ++ ops2) w = run ops2 (run ops1 w).
Proof. unfold run. apply fold_left_app. Qed.

Lemma run_cons x ops (w : connectionCloseWriter W) :
  run (x :: ops) w = run ops (exec (fst x) (snd x) w).
Proof. reflexivity. Qed.

(** A decorated response is the undecorated one with at most one
    [Header().Set("Connection", "close")], placed just before the first
    write and decided by the flag at that write. *)
Lemma run_decorated pre sd o rest (w : W) :
  Forall (fun x => snd x = OpFlush) pre ->
  is_write o = true ->
  run (pre ++ (sd, o) :: rest) (mkCloseWriter w false)
  = mkCloseWriter
      (run_plain (map snd rest)
         (exec_plain o
            (let w1 := run_plain (map snd pre) w in
             if sd then HeaderSet "Connection" "close" w1 else w1)))
      true.
Proof.
  intros Hpre Ho.
  rewrite run_app, (run_flushes pre) by assumption. rewrite run_cons.
  unfold on_inner at 1. simpl.
  rewrite exec_first_write by assumption.
  rewrite run_written by reflexivity. reflexivity.
Qed.

Lemma run_plain_app ops1 ops2 (w : W) :
  run_plain (ops1 ++ ops2) w = run_plain ops2 (run_plain ops1 w).
Proof. unfold run_plain. apply fold_left_app. Qed.

End DecoratorFacts.

Section DecoratedResponse.
Import Http GoDemo Spec.

Lemma close_sets_app cs1 cs2 :
  close_sets (cs1 ++ cs2) = (close_sets cs1 + close_sets cs2)%nat.
Proof. induction cs1 as [|c cs1 IH]; simpl; [reflexivity|]. rewrite IH. lia. Qed.

Lemma calls_sends src : forall w : response,
  calls (fold_left (fun acc c => send c acc) src w) = calls w.
Proof.
  induction src as [|c src IH]; intros w; simpl; [reflexivity|].
  rewrite IH. apply send_calls.
Qed.

(** The calls the decorator passes through are no header calls. *)
Lemma close_sets_exec_plain o (w : response) :
  close_sets (calls (exec_plain o w)) = close_sets (calls w).
Proof.
  destruct o;
    cbn [exec_plain WriteHeader Write AsFlusher AsReaderFrom response_writer
         log calls];
    rewrite close_sets_app; cbn [close_sets is_close_set];
    rewrite ?calls_sends, ?commit_calls, ?send_calls; lia.
Qed.

Lemma close_sets_run_plain ops : forall w : response,
  close_sets (calls (run_plain ops w)) = close_sets (calls w).
Proof.
  induction ops as [|o ops IH]; intros w; [reflexivity|].
  unfold run_plain in *. simpl. rewrite IH. apply close_sets_exec_plain.
Qed.

Lemma close_sets_HeaderSet (w : response) :
  close_sets (calls (HeaderSet "Connection" "close" w))
  = S (close_sets (calls w)).
Proof. simpl. rewrite close_sets_app. simpl. lia. Qed.

Lemma carries_commit h code (w : response) :
  carries h w -> carries h (commit code w).
Proof.
  intros [Hh Hw]. split; [rewrite commit_header; exact Hh|].
  rewrite commit_wire. destruct Hw as [Hn|[c Hs]].
  - rewrite Hn. destruct (_ && _); [right; rewrite Hh; eauto | left; reflexivity].
  - rewrite Hs. eauto.
Qed.

Lemma carries_send h c (w : response) :
  carries h w -> carries h (send c w).
Proof.
  intros Hw. destruct (carries_commit h StatusOK w Hw) as [Hh Hc].
  split; [rewrite send_header; apply Hw|]. rewrite send_wire. exact Hc.
Qed.

Lemma carries_sends h src : forall w : response,
  carries h w -> carries h (fold_left (fun acc c => send c acc) src w).
Proof.
  induction src as [|c src IH]; intros w Hw; simpl; [exact Hw|].
  apply IH, carries_send, Hw.
Qed.

Lemma carries_exec_plain h o (w : response) :
  carries h w -> carries h (exec_plain o w).
Proof.
  intros Hw. destruct o;
    cbn [exec_plain WriteHeader Write AsFlusher AsReaderFrom response_writer].
  - exact (carries_commit h code w Hw).
  - exact (carries_send h b w Hw).
  - exact (carries_commit h StatusOK w Hw).
  - exact (carries_sends h src w Hw).
Qed.

Lemma carries_run_plain h ops : forall w : response,
  carries h w -> carries h (run_plain ops w).
Proof.
  induction ops as [|o ops IH]; intros w Hw; [exact Hw|].
  unfold run_plain in *. simpl. apply IH, carries_exec_plain, Hw.
Qed.

(** When the handler has returned, the header the client receives is the
    header map. *)
Lemma carries_finish h (w : response) (key : string) :
  carries h w -> panicked w = false ->
  wire_header (finish w) key = Some (Get h key).
Proof.
  intros [Hh Hw] Hp. unfold wire_header, finish. rewrite Hp.
  destruct Hw as [Hn|[c Hs]].
  - rewrite (commit_OK w Hn). cbn. rewrite Hh. reflexivity.
  - rewrite (commit_committed _ _ _ Hs), Hs. reflexivity.
Qed.

Lemma Get_Set h key value : Get (Set_ h key value) key = value.
Proof. unfold Get, Set_. rewrite lookup_insert_eq. reflexivity. Qed.

(** A sequence with a write splits at its first write. *)
Lemma first_write_split (ops : list (bool * op)) :
  Exists (fun x => is_write (snd x) = true) ops ->
  exists pre sd o rest,
    ops = pre ++ (sd, o) :: rest
    /\ Forall (fun x => snd x = OpFlush) pre
    /\ is_write o = true.
Proof.
  induction ops as [|[sd o] ops IH]; intros Hex.
  - inversion Hex.
  - destruct (is_write o) eqn:Ho.
    + exists [], sd, o, ops. repeat split; [constructor | exact Ho].
    + assert (Hex' : Exists (fun x => is_write (snd x) = true) ops).
      { inversion Hex as [? ? Hx|? ? Hx]; subst; [|exact Hx].
        simpl in Hx. congruence. }
      destruct (IH Hex') as (pre & sd' & o' & rest & -> & Hpre & Ho').
      exists ((sd, o) :: pre), sd', o', rest. repeat split; [|exact Ho'].
      constructor; [|exact Hpre]. destruct o; simpl in *; congruence.
Qed.

(** C2: while the process is draining (every load of the shared flag
    returns true), a decorated response that is written to at least once,
    by [WriteHeader], [Write] or [ReadFrom] and however often, has the
    [Connection: close] header set exactly once; and when its first call
    is such a write on a response whose header is still uncommitted, the
    header map has [Connection: close] from then on, and the header the
    client receives, unless a call of the handler has panicked, carries
    it. *)
Theorem decorator_sets_close_once (ops : list (bool * op)) (w : response) :
  Forall (fun x => fst x = true) ops ->
  Exists (fun x => is_write (snd x) = true) ops ->
  let w' := ResponseWriter_ (run ops (mkCloseWriter w false)) in
  close_sets (calls w') = S (close_sets (calls w))
  /\ (wire w = None ->
      (exists x rest, ops = x :: rest /\ is_write (snd x) = true) ->
      Get (header w') "Connection" = "close"%string
      /\ (panicked w' = false ->
          wire_header (finish w') "Connection" = Some "close"%string)).
Proof.
  intros Hsd Hex.
  destruct (first_write_split ops Hex) as (pre & sd & o & rest & -> & Hpre & Ho).
  assert (sd = true) as ->.
  { rewrite Forall_app in Hsd. destruct Hsd as [_ Hsd].
    inversion Hsd; subst. assumption. }
  rewrite run_decorated by assumption. cbv zeta. cbn [ResponseWriter_]. split.
  - rewrite close_sets_run_plain, close_sets_exec_plain.
    rewrite close_sets_HeaderSet, close_sets_run_plain. reflexivity.
  - intros Hwire (x & rest' & Heq & Hx).
    destruct pre as [|y pre].
    + change (let w2 := run_plain (map snd rest)
                          (exec_plain o (HeaderSet "Connection" "close" w)) in
              Get (header w2) "Connection" = "close"%string
              /\ (panicked w2 = false ->
                  wire_header (finish w2) "Connection"
                  = Some "close"%string)).
      intros w2.
      assert (Hc : carries (Set_ (header w) "Connection" "close") w2).
      { apply carries_run_plain, carries_exec_plain.
        split; [reflexivity|]. left. exact Hwire. }
      split.
      * rewrite (proj1 Hc). apply Get_Set.
      * intros Hp. rewrite (carries_finish _ _ _ Hc Hp).
        rewrite Get_Set. reflexivity.
    + simpl in Heq. inversion Heq; subst.
      inversion Hpre as [|? ? Hy _]; subst. rewrite Hy in Hx. discriminate.
Qed.

Lemma decorator_sets_close_once_witness :
  let ops := [(true, OpWriteHeader 200); (true, OpWrite "a"%string);
              (true, OpFlush); (true, OpWrite "b"%string);
              (true, OpReadFrom ["c"; "d"]%string)] in
  let w' := ResponseWriter_ (run ops (mkCloseWriter new_response false)) in
  close_sets (calls w') = 1%nat
  /\ wire_header (finish w') "Connection" = Some "close"%string.
Proof.
  intros ops w'.
  assert (Hsd : Forall (fun x : bool * op => fst x = true) ops)
    by (repeat constructor).
  assert (Hex : Exists (fun x : bool * op => is_write (snd x) = true) ops)
    by (constructor; reflexivity).
  destruct (decorator_sets_close_once ops new_response Hsd Hex) as [Hn Hc].
  split; [exact Hn|]. apply Hc; [reflexivity | | reflexivity].
  eexists _, _. split; reflexivity.
Defined.

(** C9: the decision is taken at the first write of a response
    ([WriteHeader], [Write] or [ReadFrom]; a [Flush] before it does not
    count).  When the shared flag is still false at that write, the
    response is the undecorated one, whatever the flag says at the later
    calls: [Connection: close] is never set on it. *)
Theorem decorator_decides_at_first_write
    (pre rest : list (bool * op)) (o : op) (w : response) :
  Forall (fun x => snd x = OpFlush) pre ->
  is_write o = true ->
  let ops := pre ++ (false, o) :: rest in
  let w' := ResponseWriter_ (run ops (mkCloseWriter w false)) in
  headerWritten (run (pre ++ [(false, o)]) (mkCloseWriter w false)) = true
  /\ w' = run_plain (map snd ops) w
  /\ close_sets (calls w') = close_sets (calls w).
Proof.
  intros Hpre Ho ops w'. subst ops w'.
  rewrite !run_decorated by assumption. simpl.
  split; [reflexivity|].
  rewrite map_app, run_plain_app. simpl map.
  split; [reflexivity|].
  change (run_plain (snd (false, o) :: map snd rest)
            (run_plain (map snd pre) w))
    with (run_plain (map snd rest)
            (exec_plain o (run_plain (map snd pre) w))).
  rewrite !close_sets_run_plain, close_sets_exec_plain.
  apply close_sets_run_plain.
Qed.

Lemma decorator_decides_at_first_write_witness :
  let ops := [(false, OpWrite "a"%string); (true, OpWrite "b"%string);
              (true, OpWriteHeader 200); (true, OpReadFrom ["c"%string])] in
  let w' := ResponseWriter_ (run ops (mkCloseWriter new_response false)) in
  close_sets (calls w') = O
  /\ wire_header (finish w') "Connection" = Some ""%string.
Proof.
  intros ops w'.
  destruct (decorator_decides_at_first_write []
              [(true, OpWrite "b"%string); (true, OpWriteHeader 200);
               (true, OpReadFrom ["c"%string])]
              (OpWrite "a"%string) new_response
              (Forall_nil_2 _) eq_refl) as (_ & _ & Hn).
  split; [exact Hn | reflexivity].
Defined.

End DecoratedResponse.

(** ** Readiness and the shutdown sequence *)

Section Shutdown.
Import Int Duration Http GoDemo Spec.

(** No step of the process clears the flag, and only the end of the
    pre-shutdown sleep sets it. *)
Lemma step_flag g e p p' :
  step g e p = Some p' ->
  shutdownInitiated p' = shutdownInitiated p || is_SleepElapsed e.
Proof.
  destruct p as [l f n t]. unfold step. simpl.
  destruct e, l; simpl; intros Hs;
    repeat match type of Hs with
           | context [if ?b then _ else _] => destruct b
           end;
    inversion Hs; subst; simpl;
    rewrite ?orb_false_r, ?orb_true_r; reflexivity.
Qed.

Lemma steps_flag g es : forall p p',
  steps g es p = Some p' ->
  shutdownInitiated p' = shutdownInitiated p || existsb is_SleepElapsed es.
Proof.
  induction es as [|e es IH]; intros p p' Hs; simpl in Hs.
  - inversion Hs; subst. simpl. rewrite orb_false_r. reflexivity.
  - destruct (step g e p) as [p1|] eqn:H1; [|discriminate].
    rewrite (IH _ _ Hs), (step_flag _ _ _ _ H1). simpl.
    rewrite orb_assoc. reflexivity.
Qed.

Lemma existsb_SleepElapsed es :
  existsb is_SleepElapsed es = true <-> In SleepElapsed es.
Proof.
  rewrite existsb_exists. split.
  - intros (e & He & Hb). destruct e; try discriminate. exact He.
  - intros He. exists SleepElapsed. split; [exact He | reflexivity].
Qed.

Lemma ready_draining p :
  shutdownInitiated p = true ->
  status_of (serve_ready p) = Some StatusServiceUnavailable
  /\ wire_header (serve_ready p) "Connection" = Some "close"%string.
Proof. unfold serve_ready. intros ->. split; reflexivity. Qed.

Lemma ready_running p :
  shutdownInitiated p = false ->
  status_of (serve_ready p) = Some StatusOK
  /\ body (serve_ready p) = "OK"%string.
Proof. unfold serve_ready. intros ->. split; reflexivity. Qed.

(** C3, as amended: the signal starts the pre-shutdown sleep of
    [shutdownSleepDuration]; the shared flag is stored when that sleep has
    elapsed, and in every state the process reaches from then on
    [GET /ready] is answered with 503 and [Connection: close], never with
    200.  In the states before it, [GET /ready] is answered with 200. *)
Theorem ready_unavailable_after_sleep (g : bool) (es : list event)
    (p : process) :
  steps g es start = Some p ->
  (In SleepElapsed es ->
     phase_of p <> Running
     /\ status_of (serve_ready p) = Some StatusServiceUnavailable
     /\ wire_header (serve_ready p) "Connection" = Some "close"%string)
  /\ (~ In SleepElapsed es ->
     phase_of p = Running /\ status_of (serve_ready p) = Some StatusOK).
Proof.
  intros Hs. pose proof (steps_flag _ _ _ _ Hs) as Hf. simpl in Hf. split.
  - intros Hin. apply existsb_SleepElapsed in Hin. rewrite Hin in Hf.
    split; [|exact (ready_draining p Hf)].
    unfold phase_of. rewrite Hf. simpl. destruct (at_pc p); discriminate.
  - intros Hnin.
    destruct (existsb is_SleepElapsed es) eqn:Hex.
    + apply existsb_SleepElapsed in Hex. contradiction.
    + split; [|exact (proj1 (ready_running p Hf))].
      unfold phase_of. rewrite Hf. reflexivity.
Qed.

Lemma ready_unavailable_after_sleep_witness :
  exists p,
    steps true [Signal; Conn StateNew; SleepElapsed; Tick; TimerFired] start
      = Some p
    /\ status_of (serve_ready p) = Some StatusServiceUnavailable
    /\ wire_header (serve_ready p) "Connection" = Some "close"%string.
Proof.
  eexists. split; [reflexivity|].
  refine (proj2 (proj1 (ready_unavailable_after_sleep true
            [Signal; Conn StateNew; SleepElapsed; Tick; TimerFired] _
            eq_refl) _)).
  simpl. tauto.
Defined.

(** C3, as stated, fails: in the state the process is in once the signal
    has been received, the phase is still running and [GET /ready] is
    answered with 200 and the body [OK], without a [Connection] header. *)
Lemma ready_ok_after_signal :
  exists p,
    steps true [Signal] start = Some p
    /\ at_pc p = PreShutdownSleep
    /\ phase_of p = Running
    /\ status_of (serve_ready p) = Some StatusOK
    /\ body (serve_ready p) = "OK"%string
    /\ wire_header (serve_ready p) "Connection" = Some ""%string.
Proof. eexists. repeat split. Qed.

(** The wait of [doGracefulShutdown] ends, at the deadline at the
    latest, whatever the connection count is and whoever runs first. *)
Lemma poll_bounded numConnections timerFirst : forall (fuel : nat) (t : Z),
  0 < t ->
  (1 <= fuel)%nat ->
  clientSideIdleTimeout < t + (Z.of_nat fuel - 1) * tickInterval ->
  exists closedAt who,
    poll fuel numConnections timerFirst t = Some (closedAt, who)
    /\ 0 < closedAt <= clientSideIdleTimeout.
Proof.
  assert (Hd : 0 < clientSideIdleTimeout) by reflexivity.
  assert (Hi : 0 < tickInterval) by reflexivity.
  induction fuel as [|fuel IH]; intros t Ht Hf Hlt; [lia|].
  cbn [poll].
  destruct ((clientSideIdleTimeout <? t)
            || (clientSideIdleTimeout =? t) && timerFirst) eqn:Hdue.
  - eexists _, _. split; [reflexivity | lia].
  - assert (Hle : t <= clientSideIdleTimeout).
    { apply orb_false_iff in Hdue. destruct Hdue as [Hdue _].
      apply Z.ltb_ge in Hdue. exact Hdue. }
    destruct (numConnections t =? 0).
    + eexists _, _. split; [reflexivity | lia].
    + apply IH; [lia | | lia].
      destruct fuel; [|lia]. simpl in Hlt. lia.
Qed.

Lemma go_drain_bounded numConnections timerFirst (fuel : nat) :
  (31 <= fuel)%nat ->
  exists closedAt who,
    doGracefulShutdown fuel numConnections timerFirst = Some (closedAt, who)
    /\ 0 < closedAt <= clientSideIdleTimeout.
Proof.
  intros Hf. unfold doGracefulShutdown.
  apply poll_bounded; [reflexivity | lia |].
  unfold clientSideIdleTimeout, tickInterval, Second, Millisecond. lia.
Qed.

(** With a connection that never closes it is the timer that ends the
    wait, at the deadline. *)
Lemma go_drain_leak timerFirst :
  doGracefulShutdown 31 (fun _ => 1) timerFirst
  = Some (clientSideIdleTimeout, ByTimer).
Proof. destruct timerFirst; vm_compute; reflexivity. Qed.

End Shutdown.

(** ** The drain loop of the Node.js demo *)

Section NodeDrain.
Import NodeDemo.

Lemma drain_loop_leak (fuel : nat) : forall (i : nat) (s : server),
  drain_loop fuel (fun _ => Some 1) i s
  = ({| draining := draining s; closeCalled := closeCalled s;
        clock := clock s + 500 * Z.of_nat fuel |}, Looping).
Proof.
  induction fuel as [|fuel IH]; intros i s.
  - destruct s as [d c k]. cbn [drain_loop draining closeCalled clock].
    replace (k + 500 * Z.of_nat 0) with k by lia. reflexivity.
  - cbn [drain_loop]. change (1 <=? 0) with false. cbv iota.
    rewrite IH. destruct s as [d c k]. cbn [delay draining closeCalled clock].
    replace (k + 500 + 500 * Z.of_nat fuel)
      with (k + 500 * Z.of_nat (S fuel)) by lia.
    reflexivity.
Qed.

(** C1 at the Node.js demo, with draining enabled, [DRAIN_TIMEOUT] 5000
    and a connection that never closes: after any number of polls, so at
    any time, also past the timeout, the loop is still running and
    [server.close] has not been called. *)
Theorem node_drain_never_closes (fuel : nat) :
  gracefulShutdown
    {| ENABLE_DRAIN := true; DRAIN_TIMEOUT := 5000;
       KEEP_ALIVE_TIMEOUT := 5000 |}
    fuel (fun _ => Some 1) listening
  = ({| draining := true; closeCalled := false;
        clock := 500 * Z.of_nat fuel |}, Looping).
Proof.
  unfold gracefulShutdown, drainConnections. simpl.
  rewrite drain_loop_leak. reflexivity.
Qed.

End NodeDrain.

(** ** The latency sampler *)

Section InverseCDF.
Import Float32 GoDemo Spec.

(** The running sums of the loop are the sums of the prefixes. *)
Lemma cumulate_prefix_sums probabilities : forall cumProb,
  cumulate cumProb probabilities
  = map (fun i => fold_left add (take (S i) probabilities) cumProb)
        (seq 0 (length probabilities)).
Proof.
  induction probabilities as [|p ps IH]; intros c; [reflexivity|].
  cbn [cumulate length seq map]. rewrite IH. f_equal.
  rewrite <- seq_shift, map_map. reflexivity.
Qed.

Lemma cumulate_cumulative probabilities :
  cumulate zero probabilities = cumulative probabilities.
Proof. apply cumulate_prefix_sums. Qed.

Lemma cumulate_length probabilities : forall cumProb,
  length (cumulate cumProb probabilities) = length probabilities.
Proof.
  induction probabilities as [|p ps IH]; intros c; simpl; [reflexivity|].
  rewrite IH. reflexivity.
Qed.

(** The loop of the closure stops at the first entry that reaches [r]. *)
Lemma first_reached_Some r cdf : forall (i0 i : nat),
  first_reached r cdf i0 = Some i ->
  exists (k : nat) cp,
    i = (i0 + k)%nat /\ cdf !! k = Some cp /\ leb r cp = true
    /\ (forall (j : nat) cq, (j < k)%nat -> cdf !! j = Some cq ->
          leb r cq = false).
Proof.
  induction cdf as [|c cdf IH]; intros i0 i Hf; [discriminate|].
  cbn [first_reached] in Hf. destruct (leb r c) eqn:Hc.
  - inversion Hf; subst. exists O, c. repeat split; [lia | exact Hc |].
    intros j cq Hj. lia.
  - destruct (IH _ _ Hf) as (k & cp & -> & Hk & Hcp & Hbefore).
    exists (S k), cp. repeat split; [lia | exact Hk | exact Hcp |].
    intros [|j] cq Hj Hq; simpl in Hq.
    + inversion Hq; subst. exact Hc.
    + apply (Hbefore j); [lia | exact Hq].
Qed.

Lemma first_reached_None r cdf : forall i0 : nat,
  first_reached r cdf i0 = None ->
  forall cp, In cp cdf -> leb r cp = false.
Proof.
  induction cdf as [|c cdf IH]; intros i0 Hf cp Hin; [destruct Hin|].
  cbn [first_reached] in Hf. destruct (leb r c) eqn:Hc; [discriminate|].
  destruct Hin as [<-|Hin]; [exact Hc | exact (IH _ Hf cp Hin)].
Qed.

Lemma last_In (values : list Z) d : last values = Some d -> In d values.
Proof.
  intros Hl. apply list_elem_of_In. apply last_Some_elem_of. exact Hl.
Qed.

(** The closure returns the duration of the first entry whose cumulative
    probability reaches the draw, and the last duration when none does;
    it does not panic on lists of one length that are not empty. *)
Lemma inverse_cdf_selected (values : list Z) (probabilities : list float32)
    (r : float32) :
  values <> [] ->
  length values = length probabilities ->
  exists d,
    buildInverseDiscreteCDF values probabilities r = Some d
    /\ selected r (cumulative probabilities) values d
    /\ In d values.
Proof.
  intros Hne Hlen. unfold buildInverseDiscreteCDF.
  rewrite cumulate_cumulative.
  destruct (first_reached r (cumulative probabilities) 0) as [i|] eqn:Hf.
  - destruct (first_reached_Some _ _ _ _ Hf) as (k & cp & -> & Hk & Hcp & Hb).
    simpl. assert (Hlt : (k < length values)%nat).
    { apply lookup_lt_Some in Hk. rewrite <- cumulate_cumulative in Hk.
      rewrite cumulate_length in Hk. lia. }
    destruct (lookup_lt_is_Some_2 values k Hlt) as [d Hd].
    exists d. split; [exact Hd|]. split.
    + left. exists k, cp. auto.
    + apply list_elem_of_In. eapply list_elem_of_lookup_2. exact Hd.
  - destruct (last values) as [d|] eqn:Hl.
    + exists d. split; [reflexivity|]. split.
      * right. split; [exact (first_reached_None _ _ _ Hf) | exact Hl].
      * apply last_In. exact Hl.
    + apply last_None in Hl. contradiction.
Qed.

End InverseCDF.

Section SleepFacts.
Import Int Float32 Duration Http Strings GoDemo Spec.
Variable ParseDuration : string -> option Z.
Variable Sscanf_f : string -> option float32.
Variable DurationString : Z -> string.

Lemma Split_nonempty sep s : Split sep s <> [].
Proof.
  destruct s as [|c s]; simpl; [discriminate|].
  destruct (Ascii.eqb c sep); [discriminate|].
  destruct (Split sep s); discriminate.
Qed.

(** A pair stands for no entry exactly when it is malformed or one of its
    two halves does not parse. *)
Lemma entry_None pair_ :
  entry ParseDuration Sscanf_f pair_ = None
  <-> malformed pair_ \/ bad_duration ParseDuration pair_
      \/ bad_weight Sscanf_f pair_.
Proof.
  unfold entry, malformed, bad_duration, bad_weight.
  destruct (SplitN2 ":" pair_) as [|a [|b [|c l]]] eqn:E.
  1, 2, 4: split; [intros _; left; intros d p; discriminate | reflexivity].
  destruct (ParseDuration a) as [dur|] eqn:Ea;
    [destruct (Sscanf_f b) as [prob|] eqn:Eb|].
  - split; [discriminate|].
    intros [Hm | [(d & p & Hs & Hd) | (d & p & Hs & Hp)]].
    + exfalso. apply (Hm a b). reflexivity.
    + inversion Hs; subst. congruence.
    + inversion Hs; subst. congruence.
  - split; [|reflexivity]. intros _. right. right. eauto.
  - split; [|reflexivity]. intros _. right. left. eauto.
Qed.

Lemma parse_pairs_cons_Some pair_ pairs values probabilities totalProb
    dur prob :
  entry ParseDuration Sscanf_f pair_ = Some (dur, prob) ->
  parse_pairs ParseDuration Sscanf_f (pair_ :: pairs) values probabilities
    totalProb
  = parse_pairs ParseDuration Sscanf_f pairs (values ++ [dur])
      (probabilities ++ [prob]) (add totalProb prob).
Proof.
  unfold entry. cbn [parse_pairs].
  destruct (SplitN2 ":" pair_) as [|a [|b [|c l]]]; try discriminate.
  destruct (ParseDuration a); [|discriminate].
  destruct (Sscanf_f b); [|discriminate].
  intros Heq. inversion Heq; subst. reflexivity.
Qed.

Lemma parse_pairs_cons_None pair_ pairs values probabilities totalProb :
  entry ParseDuration Sscanf_f pair_ = None ->
  exists msg,
    parse_pairs ParseDuration Sscanf_f (pair_ :: pairs) values probabilities
      totalProb = inl msg.
Proof.
  unfold entry. cbn [parse_pairs].
  destruct (SplitN2 ":" pair_) as [|a [|b [|c l]]]; eauto.
  destruct (ParseDuration a); eauto.
  destruct (Sscanf_f b); eauto. discriminate.
Qed.

(** The loop over the pairs either stops at a pair that stands for no
    entry, or appends every entry and adds up the weights in order. *)
Lemma parse_pairs_result pairs : forall values probabilities totalProb,
  (Exists (fun p => entry ParseDuration Sscanf_f p = None) pairs
   /\ exists msg,
        parse_pairs ParseDuration Sscanf_f pairs values probabilities
          totalProb = inl msg)
  \/ (Forall (fun p => entry ParseDuration Sscanf_f p <> None) pairs
      /\ let es := omap (entry ParseDuration Sscanf_f) pairs in
         parse_pairs ParseDuration Sscanf_f pairs values probabilities
           totalProb
         = inr (values ++ map fst es, probabilities ++ map snd es,
                fold_left add (map snd es) totalProb)).
Proof.
  induction pairs as [|p pairs IH]; intros vs ps tot.
  - right. split; [constructor|]. simpl. rewrite !app_nil_r. reflexivity.
  - destruct (entry ParseDuration Sscanf_f p) as [[dur prob]|] eqn:E.
    + rewrite (parse_pairs_cons_Some _ _ _ _ _ _ _ E).
      destruct (IH (vs ++ [dur]) (ps ++ [prob]) (add tot prob))
        as [[Hex Hmsg] | [Hall Heq]].
      * left. split; [apply Exists_cons_tl; exact Hex | exact Hmsg].
      * right. split; [constructor; [congruence | exact Hall]|].
        cbv zeta in *. rewrite Heq. cbn [omap list_omap]. rewrite E.
        cbn [map fst snd fold_left]. rewrite <- !app_assoc. reflexivity.
    + left. split; [apply Exists_cons_hd; exact E|].
      apply parse_pairs_cons_None. exact E.
Qed.

Lemma omap_entry_length pairs :
  Forall (fun p => entry ParseDuration Sscanf_f p <> None) pairs ->
  length (omap (entry ParseDuration Sscanf_f) pairs) = length pairs.
Proof.
  induction 1 as [|p pairs Hp _ IH]; [reflexivity|].
  cbn [omap list_omap]. destruct (entry ParseDuration Sscanf_f p);
    [|contradiction]. simpl. f_equal. exact IH.
Qed.

Section AnyWriter.
Context {W : Type} `{ResponseWriter W}.

(** The two outcomes of the weighted mode. *)
Lemma weighted_outcome (w : W) (r : SleepQuery) (rnd : Rand) :
  q_pdf r <> ""%string ->
  let es := entries ParseDuration Sscanf_f (q_pdf r) in
  (invalid ParseDuration Sscanf_f (q_pdf r)
   /\ exists msg,
        sleep ParseDuration Sscanf_f DurationString w r rnd
        = Return (Error msg StatusBadRequest w) [])
  \/ (~ invalid ParseDuration Sscanf_f (q_pdf r)
      /\ es <> []
      /\ exists d,
           buildInverseDiscreteCDF (map fst es) (normalized (map snd es))
             (Float32_ rnd) = Some d
           /\ sleep ParseDuration Sscanf_f DurationString w r rnd
              = Return (Write (slept_for DurationString d) w) [d]).
Proof.
  intros Hpdf es. unfold sleep.
  apply String.eqb_neq in Hpdf. rewrite Hpdf. cbn [negb].
  destruct (parse_pairs_result (Split "," (q_pdf r)) [] [] zero)
    as [[Hex [msg Hmsg]] | [Hall Heq]].
  - left. rewrite Hmsg. split; [|eauto].
    left. apply Exists_exists in Hex. destruct Hex as (p & Hin & Hp).
    exists p. split; [apply list_elem_of_In; exact Hin|].
    apply entry_None; exact Hp.
  - cbv zeta in Heq. rewrite Heq. cbn [app].
    fold (entries ParseDuration Sscanf_f (q_pdf r)). fold es.
    fold (total (map snd es)).
    destruct (leb (total (map snd es)) zero) eqn:Hle.
    + left. split; [right; exact Hle | eauto].
    + right.
      assert (Hne : es <> []).
      { intros Hnil. apply (f_equal (@length _)) in Hnil.
        unfold es, entries in Hnil. rewrite omap_entry_length in Hnil by exact Hall.
        apply (Split_nonempty "," (q_pdf r)).
        destruct (Split "," (q_pdf r)); [reflexivity | discriminate]. }
      split; [|split; [exact Hne|]].
      * intros [(p & Hin & Hp) | Hle']; [|unfold es in Hle; congruence].
        apply entry_None in Hp. rewrite Forall_forall in Hall.
        apply list_elem_of_In in Hin. exact (Hall p Hin Hp).
      * fold (normalized (map snd es)).
        destruct (inverse_cdf_selected (map fst es) (normalized (map snd es))
                    (Float32_ rnd)) as (d & Hd & _).
        { destruct es; [contradiction | discriminate]. }
        { unfold normalized. rewrite !length_map. reflexivity. }
        exists d. rewrite Hd. split; reflexivity.
Qed.

(** The uniform mode, with both bounds given and parsed. *)
Lemma uniform_outcome (w : W) (r : SleepQuery) (rnd : Rand) (lo hi : Z) :
  q_pdf r = ""%string ->
  ParseDuration (q_min r) = Some lo ->
  ParseDuration (q_max r) = Some hi ->
  sleep ParseDuration Sscanf_f DurationString w r rnd
  = match Int63n (Int63_ rnd) (wrap64 (wrap64 (hi - lo) + 1)) with
    | None => Panic
    | Some k =>
        Return (Write (slept_for DurationString (wrap64 (lo + k))) w)
               [wrap64 (lo + k)]
    end.
Proof.
  intros Hpdf Hlo Hhi. unfold sleep. rewrite Hpdf, Hlo, Hhi. reflexivity.
Qed.

End AnyWriter.

End SleepFacts.

Section ResponseStatus.
Import Http.

Lemma status_Error msg code (w : response) :
  wire w = None -> 200 <= code <= 999 ->
  status_of (Error msg code w) = Some code.
Proof.
  intros Hw Hc. unfold status_of, Error.
  set (w1 := HeaderSet "X-Content-Type-Options" "nosniff" _).
  assert (Hw1 : wire w1 = None) by exact Hw.
  cbn [Write WriteHeader response_writer log wire].
  rewrite send_wire, commit_wire. cbn [log wire].
  rewrite (commit_final code w1 Hw1 Hc). reflexivity.
Qed.

Lemma status_Write b (w : response) :
  wire w = None -> status_of (Write b w) = Some StatusOK.
Proof.
  intros Hw. unfold status_of. cbn [Write response_writer log wire].
  rewrite send_wire, (commit_OK w Hw). reflexivity.
Qed.

End ResponseStatus.

Section Sampler.
Import Int Float32 Duration Http Strings GoDemo Spec.
Variable ParseDuration : string -> option Z.
Variable Sscanf_f : string -> option float32.
Variable DurationString : Z -> string.

(** C7: a request to [/sleep] with a [pdf] parameter is answered with 400,
    without sleeping, exactly when the parameter is invalid (a pair
    without the shape [duration:weight], an unparsable duration, an
    unparsable weight, or a total weight that is zero or negative); a
    valid parameter is answered with 200 after one sleep. *)
Theorem sleep_weighted_rejects_iff_invalid (w : response) (r : SleepQuery)
    (rnd : Rand) :
  q_pdf r <> ""%string ->
  wire w = None ->
  ((exists w',
      sleep ParseDuration Sscanf_f DurationString w r rnd = Return w' []
      /\ status_of w' = Some StatusBadRequest)
   <-> invalid ParseDuration Sscanf_f (q_pdf r))
  /\ (~ invalid ParseDuration Sscanf_f (q_pdf r) ->
      exists w' d,
        sleep ParseDuration Sscanf_f DurationString w r rnd = Return w' [d]
        /\ status_of w' = Some StatusOK).
Proof.
  intros Hpdf Hw.
  destruct (weighted_outcome ParseDuration Sscanf_f DurationString w r rnd
              Hpdf) as [[Hinv [msg Hs]] | [Hval [_ [d [_ Hs]]]]].
  - split; [|contradiction]. split; [intros _; exact Hinv|].
    intros _. eexists. split; [exact Hs|].
    apply status_Error; [exact Hw | unfold StatusBadRequest; lia].
  - split.
    + split; [|contradiction].
      intros (w' & Hs' & _). rewrite Hs in Hs'. discriminate.
    + intros _. eexists _, d. split; [exact Hs | apply status_Write; exact Hw].
Qed.

(** C5: in the weighted mode, for a parameter that passes the validation
    (so for every distribution with non-negative weights and a strictly
    positive total), the handler sleeps for the duration of the first entry
    whose cumulative probability, the sum in the given order of the
    normalized weights up to it, is [>=] the draw [r], and for the last
    duration when no entry qualifies; that duration is one of the listed
    ones. *)
Theorem weighted_sample_selected (w : response) (r : SleepQuery)
    (rnd : Rand) :
  q_pdf r <> ""%string ->
  ~ invalid ParseDuration Sscanf_f (q_pdf r) ->
  let es := entries ParseDuration Sscanf_f (q_pdf r) in
  let values := map fst es in
  let cdf := cumulative (normalized (map snd es)) in
  exists d,
    sleep ParseDuration Sscanf_f DurationString w r rnd
    = Return (Write (slept_for DurationString d) w) [d]
    /\ selected (Float32_ rnd) cdf values d
    /\ In d values.
Proof.
  intros Hpdf Hval es values cdf.
  destruct (weighted_outcome ParseDuration Sscanf_f DurationString w r rnd
              Hpdf) as [[Hinv _] | [_ [Hne [d [Hd Hs]]]]]; [contradiction|].
  fold es in Hne, Hd.
  destruct (inverse_cdf_selected (map fst es) (normalized (map snd es))
              (Float32_ rnd)) as (d' & Hd' & Hsel & Hin).
  { destruct es; [contradiction | discriminate]. }
  { unfold normalized. rewrite !length_map. reflexivity. }
  rewrite Hd in Hd'. inversion Hd'; subst d'.
  exists d. auto.
Qed.

(** In the uniform mode with [lo <= hi] the duration slept is in
    [[lo, hi]], and it is [lo] when the bounds are equal. *)
Lemma sleep_uniform_in_range (w : response) (r : SleepQuery) (rnd : Rand)
    (lo hi : Z) :
  q_pdf r = ""%string ->
  ParseDuration (q_min r) = Some lo ->
  ParseDuration (q_max r) = Some hi ->
  in_int64 lo -> in_int64 hi ->
  lo <= hi -> hi - lo < max_int64 ->
  exists d,
    sleep ParseDuration Sscanf_f DurationString w r rnd
    = Return (Write (slept_for DurationString d) w) [d]
    /\ lo <= d <= hi
    /\ (hi = lo -> d = lo).
Proof.
  intros Hpdf Hlo Hhi Ilo Ihi Hle Hspan.
  rewrite (uniform_outcome _ _ _ w r rnd lo hi Hpdf Hlo Hhi).
  unfold in_int64, min_int64, max_int64 in *.
  change (2 ^ 63) with 9223372036854775808 in *.
  assert (Hn : wrap64 (wrap64 (hi - lo) + 1) = hi - lo + 1).
  { rewrite (wrap64_small (hi - lo)); [apply wrap64_small|];
      unfold in_int64, min_int64, max_int64;
      change (2 ^ 63) with 9223372036854775808; lia. }
  rewrite Hn. unfold Int63n.
  destruct (hi - lo + 1 <=? 0) eqn:Hz; [apply Z.leb_le in Hz; lia|].
  pose proof (Z.mod_pos_bound (Int63_ rnd) (hi - lo + 1) ltac:(lia)) as Hk.
  rewrite wrap64_small
    by (unfold in_int64, min_int64, max_int64;
        change (2 ^ 63) with 9223372036854775808; lia).
  eexists. split; [reflexivity|]. split; [lia|]. intros ->. lia.
Qed.

(** C6 at a maximum below the minimum: the argument of [rand.Int63n] is
    not positive, and the handler panics instead of sleeping for [lo]. *)
Theorem sleep_uniform_max_below_min_panics (w : response) (r : SleepQuery)
    (rnd : Rand) (lo hi : Z) :
  q_pdf r = ""%string ->
  ParseDuration (q_min r) = Some lo ->
  ParseDuration (q_max r) = Some hi ->
  in_int64 lo -> in_int64 hi ->
  hi < lo -> lo - hi <= max_int64 ->
  sleep ParseDuration Sscanf_f DurationString w r rnd = Panic.
Proof.
  intros Hpdf Hlo Hhi Ilo Ihi Hlt Hspan.
  rewrite (uniform_outcome _ _ _ w r rnd lo hi Hpdf Hlo Hhi).
  unfold in_int64, min_int64, max_int64 in *.
  change (2 ^ 63) with 9223372036854775808 in *.
  assert (Hn : wrap64 (wrap64 (hi - lo) + 1) = hi - lo + 1).
  { rewrite (wrap64_small (hi - lo)); [apply wrap64_small|];
      unfold in_int64, min_int64, max_int64;
      change (2 ^ 63) with 9223372036854775808; lia. }
  rewrite Hn. unfold Int63n.
  destruct (hi - lo + 1 <=? 0) eqn:Hz; [reflexivity|].
  apply Z.leb_gt in Hz. lia.
Qed.

End Sampler.

Section SamplerExamples.
Import Int Float32 Duration Http Strings GoDemo Spec.

(** The distribution [50ms:0,150ms:0] of the specification is rejected. *)
Lemma sleep_weighted_rejects_iff_invalid_witness :
  exists w',
    sleep Sample.ParseDuration Sample.Sscanf_f Sample.DurationString
      new_response
      {| q_min := ""; q_max := ""; q_pdf := "50ms:0,150ms:0" |}
      {| Float32_ := Sample.quarter; Int63_ := 0 |}
    = Return w' []
    /\ status_of w' = Some StatusBadRequest.
Proof.
  apply (proj1 (sleep_weighted_rejects_iff_invalid
                  Sample.ParseDuration Sample.Sscanf_f Sample.DurationString
                  new_response
                  {| q_min := ""; q_max := ""; q_pdf := "50ms:0,150ms:0" |}
                  {| Float32_ := Sample.quarter; Int63_ := 0 |}
                  ltac:(discriminate) eq_refl)).
  right. vm_compute. reflexivity.
Defined.

Lemma sample_valid :
  ~ invalid Sample.ParseDuration Sample.Sscanf_f "100ms:1,200ms:1".
Proof.
  intros [(p & Hin & Hbad) | Hle].
  - apply entry_None in Hbad. cbv in Hin.
    destruct Hin as [<- | [<- | []]]; vm_compute in Hbad; discriminate.
  - vm_compute in Hle. discriminate.
Qed.

(** The distribution [100ms:1,200ms:1] of the specification: the draw
    0.75 selects the second entry. *)
Lemma weighted_sample_selected_witness :
  exists d,
    sleep Sample.ParseDuration Sample.Sscanf_f Sample.DurationString
      new_response
      {| q_min := ""; q_max := ""; q_pdf := "100ms:1,200ms:1" |}
      {| Float32_ := Sample.three_quarters; Int63_ := 0 |}
    = Return (Write (slept_for Sample.DurationString d) new_response) [d]
    /\ In d [100 * Millisecond; 200 * Millisecond]
    /\ d = 200 * Millisecond.
Proof.
  destruct (weighted_sample_selected
              Sample.ParseDuration Sample.Sscanf_f Sample.DurationString
              new_response
              {| q_min := ""; q_max := ""; q_pdf := "100ms:1,200ms:1" |}
              {| Float32_ := Sample.three_quarters; Int63_ := 0 |}
              ltac:(discriminate) sample_valid) as (d & Hs & _ & Hin).
  exists d. split; [exact Hs|]. split; [exact Hin|].
  assert (Hrun : exists w0,
            sleep Sample.ParseDuration Sample.Sscanf_f Sample.DurationString
              new_response
              {| q_min := ""; q_max := ""; q_pdf := "100ms:1,200ms:1" |}
              {| Float32_ := Sample.three_quarters; Int63_ := 0 |}
            = Return w0 [200 * Millisecond])
    by (eexists; vm_compute; reflexivity).
  destruct Hrun as [w0 Hrun]. rewrite Hrun in Hs. inversion Hs. reflexivity.
Defined.

(** The request [min=200ms&max=100ms] of the specification. *)
Lemma sleep_uniform_max_below_min_panics_witness :
  sleep Sample.ParseDuration Sample.Sscanf_f Sample.DurationString
    new_response
    {| q_min := "200ms"; q_max := "100ms"; q_pdf := "" |}
    {| Float32_ := Sample.quarter; Int63_ := 0 |}
  = Panic.
Proof.
  apply (sleep_uniform_max_below_min_panics
           Sample.ParseDuration Sample.Sscanf_f Sample.DurationString
           new_response
           {| q_min := "200ms"; q_max := "100ms"; q_pdf := "" |}
           {| Float32_ := Sample.quarter; Int63_ := 0 |}
           (200 * Millisecond) (100 * Millisecond));
    try reflexivity; vm_compute; try split; congruence.
Defined.

(** The request [min=100ms&max=100ms] of the specification sleeps for
    100ms; the normalized weights of [100ms:1,200ms:1] are 0.5 and 0.5. *)
Example sleep_uniform_equal_bounds (v : Z) :
  sleep Sample.ParseDuration Sample.Sscanf_f Sample.DurationString
    new_response
    {| q_min := "100ms"; q_max := "100ms"; q_pdf := "" |}
    {| Float32_ := Sample.quarter; Int63_ := v |}
  = Return (Write (slept_for Sample.DurationString (100 * Millisecond))
              new_response) [100 * Millisecond].
Proof.
  unfold sleep. cbn [q_pdf q_min q_max String.eqb negb Int63_].
  change (Sample.ParseDuration "100ms") with (Some (100 * Millisecond)).
  cbv iota. unfold Int63n.
  change (wrap64 (wrap64 (100 * Millisecond - 100 * Millisecond) + 1))
    with 1.
  change (1 <=? 0) with false. cbv iota. rewrite Z.mod_1_r. reflexivity.
Qed.

Example normalized_halves :
  normalized [one; one]
  = [S754_finite false 8388608 (-24); S754_finite false 8388608 (-24)]
  /\ cumulative (normalized [one; one])
     = [S754_finite false 8388608 (-24); one].
Proof. split; vm_compute; reflexivity. Qed.

End SamplerExamples.

(** ** The proxy relay *)

Section ProxyFacts.
Import Http Strings GoDemo Spec.



Lemma SliceFrom_app (a b : string) : SliceFrom (String.length a) (a ++ b) = Some b.
Proof. induction a as [|x a IH]; [reflexivity | exact IH]. Qed.


Lemma Get_canonical (h : Header) (k k' : string) :
  CanonicalMIMEHeaderKey k = CanonicalMIMEHeaderKey k' -> Get h k = Get h k'.
Proof. unfold Get. intros ->. reflexivity. Qed.

Lemma Get_Set_same (h : Header) (k k' v : string) :
  CanonicalMIMEHeaderKey k = CanonicalMIMEHeaderKey k' ->
  Get (Set_ h k v) k' = v.
Proof. unfold Get, Set_. intros ->. rewrite lookup_insert_eq. reflexivity. Qed.

Lemma Get_Set_other (h : Header) (k k' v : string) :
  CanonicalMIMEHeaderKey k <> CanonicalMIMEHeaderKey k' ->
  Get (Set_ h k v) k' = Get h k'.
Proof. unfold Get, Set_. intros Hne. rewrite lookup_insert_ne by exact Hne. reflexivity. Qed.

Lemma Get_empty (k : string) : Get ∅ k = ""%string.
Proof. unfold Get. rewrite lookup_empty. reflexivity. Qed.

(** The loop of [forwardTraceHeaders] over any list of names: a name of
    the list with a non-empty value in the source gets that value, every
    other name keeps what the destination had. *)
Lemma forward_fold (src : Header) (l : list string) : forall dest h,
  Get (fold_left
         (fun dest h =>
            let v := Get src h in
            if negb (String.eqb v "") then Set_ dest h v else dest)
         l dest) h
  = if listed l h && negb (String.eqb (Get src h) "")
    then Get src h else Get dest h.
Proof.
  induction l as [|k l IH]; intros dest h; [reflexivity|].
  cbn [fold_left]. rewrite IH. unfold listed. cbn [map existsb].
  fold (listed l h).
  destruct (String.eqb_spec (CanonicalMIMEHeaderKey h)
                            (CanonicalMIMEHeaderKey k)) as [Heq|Hne].
  - rewrite (Get_canonical src k h) by congruence. cbn [orb].
    destruct (String.eqb (Get src h) "") eqn:Hv; cbn [negb].
    + rewrite !andb_false_r. reflexivity.
    + rewrite andb_true_r. rewrite Get_Set_same by congruence.
      destruct (listed l h); reflexivity.
  - cbn [orb].
    destruct (negb (String.eqb (Get src k) "")); [|reflexivity].
    rewrite Get_Set_other by congruence. reflexivity.
Qed.

(** Of the incoming headers the upstream request has the allow-listed
    ones, each with its value, and no other. *)
Lemma forwardTraceHeaders_Get (src : Header) (h : string) :
  Get (forwardTraceHeaders src ∅) h
  = if allow_listed h then Get src h else ""%string.
Proof.
  unfold forwardTraceHeaders. rewrite forward_fold, Get_empty.
  fold allow_listed. destruct (allow_listed h); [|reflexivity].
  cbn [andb]. destruct (String.eqb_spec (Get src h) ""); cbn [negb]; congruence.
Qed.


Lemma validMethod_nonempty (m : string) :
  validMethod m = true -> String.eqb m "" = false.
Proof.
  unfold validMethod. intros Hv. apply andb_true_iff in Hv.
  destruct Hv as [Hv _]. apply negb_true_iff in Hv. exact Hv.
Qed.

Lemma proxy_outcome {W : Type} `{ResponseWriter W} (service : string)
    (w : W) (r : Request) (path : string) client :
  validMethod (Method r) = true ->
  SliceFrom (1 + String.length service) (URL_Path r) = Some path ->
  proxy service w r client = relay w (client (upstream service r path)).
Proof.
  intros Hm Hp. unfold proxy, NewRequest.
  rewrite (validMethod_nonempty _ Hm), Hm. cbn [Method URL_Scheme URL_Host
    URL_Path URL_RawQuery ReqHeader Body]. rewrite Hp.
  unfold upstream, relay. destruct (client _); reflexivity.
Qed.


Lemma sends_panicked src : forall w : response,
  panicked (fold_left (fun acc c => send c acc) src w) = panicked w.
Proof.
  induction src as [|c src IH]; intros w; [reflexivity|].
  cbn [fold_left]. rewrite IH. apply send_panicked.
Qed.



End ProxyFacts.

Section Proxy.
Import Http Strings GoDemo Spec.



(** C10: the upstream request of the relay has no body, whatever the body
    of the incoming request: the outcome of [proxy] does not depend on
    that body, and the request handed to the client, when there is one,
    has [http.NoBody], the query string of the incoming request and, of
    its headers, the allow-listed ones only.  The same holds for the Java
    demo, whose [HttpEntity] is built from the headers alone. *)
Theorem proxy_sends_no_body :
  (forall (service : string) (w : response) (r : Request),
      (forall (b : Reader) client,
          proxy service w (with_body b r) client = proxy service w r client)
      /\ ((exists req : Request,
              Body req = NoBody
              /\ URL_RawQuery req = URL_RawQuery r
              /\ (forall h, Get (ReqHeader req) h
                            = if allow_listed h then Get (ReqHeader r) h
                              else ""%string)
              /\ forall client,
                   proxy service w r client = relay w (client req))
          \/ (forall client,
                 proxy service w r client
                 = Return (Error ("Failed to create request" ++ nl)%string
                             StatusInternalServerError w) [])
          \/ (forall client, proxy service w r client = Panic)))
  /\ (forall (serviceName : string) (request : JavaDemo.HttpServletRequest),
        (forall (b : string) restTemplate,
            JavaDemo.proxy serviceName (servlet_with_body b request)
              restTemplate
            = JavaDemo.proxy serviceName request restTemplate)
        /\ ((exists ex : JavaDemo.Exchange,
                JavaDemo.entityBody (JavaDemo.entity ex) = None
                /\ forall restTemplate,
                     JavaDemo.proxy serviceName request restTemplate
                     = restTemplate ex)
            \/ (forall restTemplate,
                   JavaDemo.proxy serviceName request restTemplate = None))).
Proof.
  split.
  - intros service w r. split; [reflexivity|].
    unfold proxy. destruct (NewRequest (Method r) service NoBody)
      as [req|] eqn:Hreq; [|right; left; reflexivity].
    destruct (SliceFrom (1 + String.length service) (URL_Path r))
      as [path|]; [|right; right; reflexivity].
    left. eexists. split; [|split; [|split]]; cycle 3.
    + intros client. unfold relay. reflexivity.
    + unfold NewRequest in Hreq.
      destruct (validMethod _); inversion Hreq; subst. reflexivity.
    + reflexivity.
    + intros h. cbn [ReqHeader].
      unfold NewRequest in Hreq.
      destruct (validMethod _); inversion Hreq; subst. cbn [ReqHeader].
      apply forwardTraceHeaders_Get.
  - intros serviceName request. split; [reflexivity|].
    unfold JavaDemo.proxy.
    destruct (SliceFrom _ (JavaDemo.getRequestURI request)) as [path|].
    + left. eexists. split; [|intros rt; reflexivity]. reflexivity.
    + right. reflexivity.
Qed.

End Proxy.

(** ** The routes, end to end *)

Section Routes.
Import Int Float32 Duration Http Strings GoDemo Spec.

(** Without [GRACEFUL_SHUTDOWN] the handlers are not decorated. *)
Lemma graceful_off sd (next : Handler) : graceful false sd next = next.
Proof. reflexivity. Qed.

(** An error written through the decorator keeps its status, and carries
    [Connection: close] when the process is draining. *)
Lemma decorated_Error sd msg code (w : response) :
  wire w = None -> 200 <= code <= 999 ->
  let cw := @Error _ (cw_writer sd) msg code (mkCloseWriter w false) in
  status_of (ResponseWriter_ cw) = Some code
  /\ (sd = true ->
      wire_header (ResponseWriter_ cw) "Connection" = Some "close"%string).
Proof.
  intros Hw Hc cw. subst cw. unfold status_of, wire_header.
  destruct sd.
  - match goal with
    | |- context [wire ?x] =>
        replace (wire x)
          with (Some (code,
                  Set_ (Set_ (Set_ (Del (header w) "Content-Length")
                                "Content-Type" "text/plain; charset=utf-8")
                          "X-Content-Type-Options" "nosniff")
                    "Connection" "close"))
    end.
    + split; [reflexivity|]. intros _. cbn [fmap option_fmap option_map snd].
      rewrite Get_Set. reflexivity.
    + symmetry.
      refine (WriteHeader_Write_wire code _
                (HeaderSet "Connection" "close"
                   (HeaderSet "X-Content-Type-Options" "nosniff"
                      (HeaderSet "Content-Type" "text/plain; charset=utf-8"
                         (HeaderDel "Content-Length" w)))) Hw Hc).
  - split; [|discriminate].
    match goal with
    | |- context [wire ?x] =>
        replace (wire x)
          with (Some (code,
                  Set_ (Set_ (Del (header w) "Content-Length")
                          "Content-Type" "text/plain; charset=utf-8")
                    "X-Content-Type-Options" "nosniff"))
    end; [reflexivity|].
    symmetry.
    refine (WriteHeader_Write_wire code _
              (HeaderSet "X-Content-Type-Options" "nosniff"
                 (HeaderSet "Content-Type" "text/plain; charset=utf-8"
                    (HeaderDel "Content-Length" w))) Hw Hc).
Qed.

(** [/sleep?pdf=100ms:1,200ms:1] while draining: the draw 0.25 selects
    100ms, and the response carries [Connection: close]. *)
Example sleep_route_draining :
  exists w',
    sleep_route Sample.ParseDuration Sample.Sscanf_f Sample.DurationString
      true true "Thu, 01 Jan 1970 00:00:00 GMT"
      {| q_min := ""; q_max := ""; q_pdf := "100ms:1,200ms:1" |}
      {| Float32_ := Sample.quarter; Int63_ := 0 |}
      response _ new_response
    = Return w' [100 * Millisecond]
    /\ status_of w' = Some StatusOK
    /\ wire_header w' "Connection" = Some "close"%string
    /\ body w' = ("Slept for 100ms" ++ nl)%string.
Proof.
  eexists. split; [vm_compute; reflexivity|].
  repeat split; vm_compute; reflexivity.
Qed.

(** [/sleep?pdf=50ms:0,150ms:0] while running: 400, no sleep and no
    [Connection] header. *)
Example sleep_route_rejected :
  exists w',
    sleep_route Sample.ParseDuration Sample.Sscanf_f Sample.DurationString
      true false "Thu, 01 Jan 1970 00:00:00 GMT"
      {| q_min := ""; q_max := ""; q_pdf := "50ms:0,150ms:0" |}
      {| Float32_ := Sample.quarter; Int63_ := 0 |}
      response _ new_response
    = Return w' []
    /\ status_of w' = Some StatusBadRequest
    /\ wire_header w' "Connection" = Some ""%string.
Proof.
  eexists. split; [vm_compute; reflexivity|].
  repeat split; vm_compute; reflexivity.
Qed.

(** [/nginx/sleep] relayed while draining: the upstream answer goes back
    with [Connection: close] added. *)
Example proxy_route_draining :
  let r := {| Method := "GET"; URL_Scheme := ""; URL_Host := "";
              URL_Path := "/nginx/sleep"; URL_RawQuery := "";
              ReqHeader := ∅; Body := NoBody |} in
  let client (req : Request) :=
    if String.eqb (URL_Host req) "nginx" && String.eqb (URL_Path req) "/sleep"
    then Some {| StatusCode := 200; RespBody := ["Slept "; "for 1s"]%string |}
    else None in
  exists w',
    proxy_route true true "nginx" r client response _ new_response
    = Return w' []
    /\ status_of w' = Some StatusOK
    /\ wire_header w' "Connection" = Some "close"%string
    /\ body w' = "Slept for 1s"%string
    /\ close_sets (calls w') = 1%nat.
Proof.
  intros r client. eexists. split; [vm_compute; reflexivity|].
  repeat split; vm_compute; reflexivity.
Qed.

End Routes.

(** ** More on the response decorator *)

Section DecoratorMore.
Import Http GoDemo Spec.

Lemma injectHeader_wire sd (cw : connectionCloseWriter response) :
  wire (ResponseWriter_ (injectHeader sd cw)) = wire (ResponseWriter_ cw).
Proof.
  unfold injectHeader. destruct (headerWritten cw), sd; reflexivity.
Qed.

Lemma sends_committed src : forall (w : response) x,
  wire w = Some x ->
  wire (fold_left (fun acc c => send c acc) src w) = Some x.
Proof.
  induction src as [|c src IH]; intros w x Hw; [exact Hw|].
  cbn [fold_left]. apply IH, send_committed, Hw.
Qed.

Lemma exec_wire_committed sd o (cw : connectionCloseWriter response) x :
  wire (ResponseWriter_ cw) = Some x ->
  wire (ResponseWriter_ (exec sd o cw)) = Some x.
Proof.
  intros Hw.
  assert (Hi : wire (ResponseWriter_ (injectHeader sd cw)) = Some x)
    by (rewrite injectHeader_wire; exact Hw).
  destruct o; unfold exec, cw_WriteHeader, cw_Write, cw_Flush, cw_ReadFrom;
    cbn [AsFlusher AsReaderFrom response_writer on_inner ResponseWriter_
         WriteHeader Write log wire].
  - rewrite (commit_committed _ _ _ Hi). exact Hi.
  - apply send_committed. exact Hi.
  - rewrite (commit_committed _ _ _ Hw). exact Hw.
  - apply sends_committed. exact Hi.
Qed.

Lemma run_wire_committed ops : forall (cw : connectionCloseWriter response) x,
  wire (ResponseWriter_ cw) = Some x ->
  wire (ResponseWriter_ (run ops cw)) = Some x.
Proof.
  induction ops as [|[sd o] ops IH]; intros cw x Hw; [exact Hw|].
  rewrite run_cons. apply IH, exec_wire_committed, Hw.
Qed.

(** A handler that flushes before it writes commits the header as it is
    then: [Flush] does not go through [injectHeader], so the header the
    client receives is the one of the undecorated response, without
    [Connection: close], whatever is written afterwards and whatever the
    shared flag says. *)
Theorem flush_first_commits_undecorated (sd : bool)
    (rest : list (bool * op)) (w : response) :
  wire w = None ->
  let w' := ResponseWriter_ (run ((sd, OpFlush) :: rest)
                               (mkCloseWriter w false)) in
  wire w' = Some (StatusOK, header w)
  /\ wire_header w' "Connection" = Some (Get (header w) "Connection").
Proof.
  intros Hw w'.
  assert (Hc : wire w' = Some (StatusOK, header w)).
  { subst w'. rewrite run_cons. apply run_wire_committed.
    cbn [fst snd exec cw_Flush AsFlusher response_writer on_inner
         ResponseWriter_ log wire].
    rewrite (commit_OK w Hw). reflexivity. }
  split; [exact Hc|]. unfold wire_header. rewrite Hc. reflexivity.
Qed.

Lemma flush_first_commits_undecorated_witness :
  let w' := ResponseWriter_
              (run [(true, OpFlush); (true, OpWrite "late"%string)]
                   (mkCloseWriter new_response false)) in
  wire_header w' "Connection" = Some ""%string
  /\ close_sets (calls w') = 1%nat.
Proof.
  intros w'. split; [|reflexivity].
  exact (proj2 (flush_first_commits_undecorated true
                  [(true, OpWrite "late"%string)] new_response eq_refl)).
Defined.

Import More.

Lemma same_answer_commit code (w1 w2 : response) :
  same_answer w1 w2 -> same_answer (commit code w1) (commit code w2).
Proof.
  intros [Hb Hst]. unfold same_answer, status_of in *.
  rewrite !commit_body, !commit_wire.
  split; [exact Hb|].
  destruct (wire w1) as [[c1 h1]|], (wire w2) as [[c2 h2]|];
    cbn in Hst; try discriminate; [exact Hst|].
  destruct (_ && _); reflexivity.
Qed.

Lemma same_answer_send c (w1 w2 : response) :
  same_answer w1 w2 -> same_answer (send c w1) (send c w2).
Proof.
  intros Hs. destruct (same_answer_commit StatusOK w1 w2 Hs) as [Hb Hst].
  unfold same_answer, status_of in *. rewrite !send_wire, !send_body.
  split; [|exact Hst].
  assert (Ha : bodyAllowed (commit StatusOK w1)
               = bodyAllowed (commit StatusOK w2)).
  { unfold bodyAllowed.
    destruct (wire (commit StatusOK w1)) as [[c1 h1]|],
             (wire (commit StatusOK w2)) as [[c2 h2]|];
      cbn in Hst; try discriminate; [|reflexivity].
    inversion Hst; subst. reflexivity. }
  rewrite Ha. rewrite !commit_body in Hb. rewrite Hb. reflexivity.
Qed.

Lemma same_answer_sends src : forall w1 w2 : response,
  same_answer w1 w2 ->
  same_answer (fold_left (fun acc c => send c acc) src w1)
              (fold_left (fun acc c => send c acc) src w2).
Proof.
  induction src as [|c src IH]; intros w1 w2 Hs; [exact Hs|].
  cbn [fold_left]. apply IH, same_answer_send, Hs.
Qed.

Lemma same_answer_exec_plain o (w1 w2 : response) :
  same_answer w1 w2 -> same_answer (exec_plain o w1) (exec_plain o w2).
Proof.
  intros Hs. destruct o; cbn.
  - exact (same_answer_commit code w1 w2 Hs).
  - exact (same_answer_send b w1 w2 Hs).
  - exact (same_answer_commit StatusOK w1 w2 Hs).
  - exact (same_answer_sends src w1 w2 Hs).
Qed.

Lemma same_answer_exec sd o (cw : connectionCloseWriter response)
    (u : response) :
  same_answer (ResponseWriter_ cw) u ->
  same_answer (ResponseWriter_ (exec sd o cw)) (exec_plain o u).
Proof.
  intros Hs.
  assert (Hi : same_answer (ResponseWriter_ (injectHeader sd cw)) u).
  { unfold injectHeader. destruct (headerWritten cw), sd; exact Hs. }
  destruct o; unfold exec, cw_WriteHeader, cw_Write, cw_Flush, cw_ReadFrom;
    cbn [AsFlusher AsReaderFrom response_writer on_inner ResponseWriter_].
  - apply (same_answer_exec_plain (OpWriteHeader code) _ _ Hi).
  - apply (same_answer_exec_plain (OpWrite b) _ _ Hi).
  - apply (same_answer_exec_plain OpFlush _ _ Hs).
  - apply (same_answer_exec_plain (OpReadFrom src) _ _ Hi).
Qed.

(** The decorator changes the header only: after any calls, under any
    values of the shared flag, the decorated response has the body and
    the status line of the undecorated one. *)
Theorem decorator_keeps_status_and_body (ops : list (bool * op))
    (w : response) :
  same_answer (ResponseWriter_ (run ops (mkCloseWriter w false)))
              (run_plain (map snd ops) w).
Proof.
  assert (Hgen : forall ops (cw : connectionCloseWriter response) u,
            same_answer (ResponseWriter_ cw) u ->
            same_answer (ResponseWriter_ (run ops cw))
                        (run_plain (map snd ops) u)).
  { clear. induction ops as [|[sd o] ops IH]; intros cw u Hs; [exact Hs|].
    rewrite run_cons. cbn [map snd fst].
    change (run_plain (o :: map snd ops) u)
      with (run_plain (map snd ops) (exec_plain o u)).
    apply IH, same_answer_exec, Hs. }
  apply Hgen. split; reflexivity.
Qed.

End DecoratorMore.

(** ** More on the handlers and their routes *)

Section HandlerShapes.
Import Int Float32 Duration Http Strings GoDemo Spec.
Variable ParseDuration : string -> option Z.
Variable Sscanf_f : string -> option float32.
Variable DurationString : Z -> string.
Context {W : Type} `{ResponseWriter W}.

(** Every path through [sleep] ends in a panic, in an [http.Error] with
    the status 400 before any sleep, or in one sleep followed by the one
    write of the answer. *)
Lemma sleep_shape (w : W) (r : SleepQuery) (rnd : Rand) :
  sleep ParseDuration Sscanf_f DurationString w r rnd = Panic
  \/ (exists msg,
        sleep ParseDuration Sscanf_f DurationString w r rnd
        = Return (Error msg StatusBadRequest w) [])
  \/ (exists d,
        sleep ParseDuration Sscanf_f DurationString w r rnd
        = Return (Write (slept_for DurationString d) w) [d]).
Proof.
  unfold sleep.
  repeat match goal with
         | |- context [match ?x with _ => _ end] => destruct x
         end; eauto.
Qed.

(** The four ways [proxy] ends. *)
Lemma proxy_shape (service : string) (w : W) (r : Request)
    (client : Request -> option Response) :
  proxy service w r client = Panic
  \/ (exists msg code,
        (code = StatusInternalServerError \/ code = StatusBadGateway)
        /\ proxy service w r client = Return (Error msg code w) [])
  \/ (exists req resp,
        client req = Some resp
        /\ Panicked (WriteHeader (StatusCode resp) w) = false
        /\ proxy service w r client
           = Return (Copy (RespBody resp) (WriteHeader (StatusCode resp) w))
                    []).
Proof.
  unfold proxy.
  destruct (NewRequest _ _ _) as [req|]; [|right; left; eauto].
  destruct (SliceFrom _ _) as [path|]; [|left; reflexivity].
  match goal with
  | |- context [client ?q] => destruct (client q) as [resp|] eqn:Hc
  end.
  - cbv zeta.
    destruct (Panicked (WriteHeader (StatusCode resp) w)) eqn:Hp;
      [left; reflexivity|].
    right. right. eauto.
  - right. left. eauto.
Qed.

End HandlerShapes.

Section Answers.
Import Http GoDemo Spec More.

Lemma Get_error_headers (h : Header) (k v1 v2 : string) :
  error_header k = false ->
  Get (Set_ (Set_ (Del h "Content-Length") "Content-Type" v1)
            "X-Content-Type-Options" v2) k
  = Get h k.
Proof.
  unfold error_header. cbn [existsb]. intros Hk.
  apply orb_false_iff in Hk. destruct Hk as [H1 Hk].
  apply orb_false_iff in Hk. destruct Hk as [H2 Hk].
  apply orb_false_iff in Hk. destruct Hk as [H3 _].
  apply String.eqb_neq in H1, H2, H3.
  unfold Get, Set_, Del.
  change (CanonicalMIMEHeaderKey "Content-Length")
    with "Content-Length"%string.
  change (CanonicalMIMEHeaderKey "Content-Type") with "Content-Type"%string.
  change (CanonicalMIMEHeaderKey "X-Content-Type-Options")
    with "X-Content-Type-Options"%string.
  rewrite !lookup_insert_ne by congruence.
  rewrite lookup_delete_ne by congruence. reflexivity.
Qed.

Lemma close_sets_snoc cs c :
  is_close_set c = false -> close_sets (cs ++ [c]) = close_sets cs.
Proof. intros Hc. rewrite close_sets_app. cbn. rewrite Hc. lia. Qed.

Lemma WriteHeader_Write_answer code b (w : response) (k : string) :
  wire w = None -> 200 <= code <= 999 ->
  let w' := Write b (WriteHeader code w) in
  status_of w' = Some code
  /\ wire_header w' k = Some (Get (header w) k)
  /\ body w'
     = (if bodyAllowedForStatus code then (body w ++ b)%string else body w)
  /\ close_sets (calls w') = close_sets (calls w).
Proof.
  intros Hw Hc w'. subst w'. unfold status_of, wire_header.
  rewrite (WriteHeader_Write_wire code b w Hw Hc).
  split; [reflexivity|]. split; [reflexivity|].
  cbn [WriteHeader Write response_writer log body calls].
  rewrite send_body, send_calls. cbn [log calls body].
  rewrite commit_calls, commit_body. split.
  - rewrite (commit_committed StatusOK _ (code, header w))
      by (cbn [log wire]; rewrite (commit_final code w Hw Hc); reflexivity).
    unfold bodyAllowed. cbn [log wire].
    rewrite (commit_final code w Hw Hc). reflexivity.
  - rewrite !close_sets_app. cbn. lia.
Qed.

(** What [http.Error] leaves on a response whose header is uncommitted. *)
Lemma Error_answer msg code (w : response) (k : string) :
  wire w = None -> 200 <= code <= 999 ->
  error_header k = false ->
  status_of (Error msg code w) = Some code
  /\ wire_header (Error msg code w) k = Some (Get (header w) k)
  /\ body (Error msg code w)
     = (if bodyAllowedForStatus code then (body w ++ (msg ++ nl))%string
        else body w)
  /\ close_sets (calls (Error msg code w)) = close_sets (calls w).
Proof.
  intros Hw Hcode Hk. unfold Error.
  set (w1 := HeaderSet "X-Content-Type-Options" "nosniff"
               (HeaderSet "Content-Type" "text/plain; charset=utf-8"
                  (HeaderDel "Content-Length" w))).
  assert (Hw1 : wire w1 = None) by exact Hw.
  destruct (WriteHeader_Write_answer code (msg ++ nl)%string w1 k Hw1 Hcode)
    as (Hst & Hh & Hb & Hc).
  split; [exact Hst|]. split; [|split].
  - rewrite Hh. subst w1. cbn [HeaderSet HeaderDel response_writer log
      set_header del_header header].
    rewrite Get_error_headers by exact Hk. reflexivity.
  - rewrite Hb. reflexivity.
  - rewrite Hc. subst w1. cbn [HeaderSet HeaderDel response_writer log calls
      set_header del_header].
    rewrite !close_sets_snoc by (vm_compute; reflexivity). reflexivity.
Qed.

Lemma Write_answer b (w : response) (k : string) :
  wire w = None ->
  status_of (Write b w) = Some StatusOK
  /\ wire_header (Write b w) k = Some (Get (header w) k)
  /\ body (Write b w) = (body w ++ b)%string
  /\ close_sets (calls (Write b w)) = close_sets (calls w).
Proof.
  intros Hw. unfold status_of, wire_header.
  cbn [Write response_writer log wire body calls].
  rewrite send_wire, send_body, send_calls, (commit_OK w Hw).
  cbn. repeat split.
  rewrite close_sets_app. cbn. lia.
Qed.

End Answers.

Section DecoratedAnswers.
Import Http GoDemo Spec More.
Context {W : Type} `{ResponseWriter W}.

(** [http.Error], a first [Write] and a relayed answer through the
    decorator: the header calls go to the embedded writer, and the flag
    is looked at once, at [WriteHeader] or at the first [Write]. *)
Lemma decorated_Error_inner sd msg code (w : W) :
  ResponseWriter_ (@Error _ (cw_writer sd) msg code (mkCloseWriter w false))
  = let w2 := HeaderSet "X-Content-Type-Options" "nosniff"
                (HeaderSet "Content-Type" "text/plain; charset=utf-8"
                   (HeaderDel "Content-Length" w)) in
    Write (msg ++ nl)%string
      (WriteHeader code
         (if sd then HeaderSet "Connection" "close" w2 else w2)).
Proof. destruct sd; reflexivity. Qed.

Lemma decorated_Write_inner sd b (w : W) :
  ResponseWriter_ (@Write _ (cw_writer sd) b (mkCloseWriter w false))
  = Write b (if sd then HeaderSet "Connection" "close" w else w).
Proof. destruct sd; reflexivity. Qed.

Lemma decorated_relay_inner sd code src (w : W) :
  ResponseWriter_
    (@Copy _ (cw_writer sd) src
       (@WriteHeader _ (cw_writer sd) code (mkCloseWriter w false)))
  = Copy src
      (WriteHeader code
         (if sd then HeaderSet "Connection" "close" w else w)).
Proof.
  destruct sd; unfold Copy;
    cbn [AsReaderFrom WriteHeader cw_writer];
    unfold cw_ReadFrom, cw_WriteHeader, injectHeader, on_inner, Copy;
    cbn [ResponseWriter_ headerWritten negb];
    destruct AsReaderFrom; reflexivity.
Qed.

End DecoratedAnswers.

Lemma Get_Del_other (h : Http.Header) (k k' : string) :
  Http.CanonicalMIMEHeaderKey k <> Http.CanonicalMIMEHeaderKey k' ->
  Http.Get (Http.Del h k) k' = Http.Get h k'.
Proof.
  unfold Http.Get, Http.Del. intros Hne.
  rewrite lookup_delete_ne by exact Hne. reflexivity.
Qed.

Lemma close_sets_snoc_close cs :
  Spec.close_sets (cs ++ [Http.CSet "Connection" "close"])
  = S (Spec.close_sets cs).
Proof.
  rewrite close_sets_app.
  change (Spec.close_sets [Http.CSet "Connection" "close"]) with 1%nat. lia.
Qed.

Ltac get_header :=
  repeat first
    [ rewrite Get_Set_same by (vm_compute; reflexivity)
    | rewrite Get_Set_other by (vm_compute; discriminate)
    | rewrite Get_Del_other by (vm_compute; discriminate) ].

Ltac count_sets :=
  repeat first
    [ rewrite close_sets_snoc by (vm_compute; reflexivity)
    | rewrite close_sets_snoc_close ].

Section RoutesMore.
Import Int Float32 Duration Http Strings GoDemo Spec More.
Variable ParseDuration : string -> option Z.
Variable Sscanf_f : string -> option float32.
Variable DurationString : Z -> string.

(** A request to [/sleep] that is answered with an error has not slept,
    and one that is answered with 200 has slept once, for the duration
    its body reports. *)
Theorem sleep_errors_never_sleep (w : response) (r : SleepQuery)
    (rnd : Rand) :
  wire w = None ->
  match sleep ParseDuration Sscanf_f DurationString w r rnd with
  | Panic => True
  | Return w' sleeps =>
      (sleeps = [] /\ status_of w' = Some StatusBadRequest)
      \/ (exists d,
            sleeps = [d] /\ status_of w' = Some StatusOK
            /\ body w' = (body w ++ slept_for DurationString d)%string)
  end.
Proof.
  intros Hw.
  destruct (sleep_shape ParseDuration Sscanf_f DurationString w r rnd)
    as [-> | [[msg ->] | [d ->]]]; [exact I | left | right].
  - split; [reflexivity|].
    exact (proj1 (Error_answer msg StatusBadRequest w "Connection" Hw
                    ltac:(unfold StatusBadRequest; lia) eq_refl)).
  - exists d. destruct (Write_answer (slept_for DurationString d) w
                          "Connection" Hw) as (Hs & _ & Hb & _).
    auto.
Qed.

(** The route of [/sleep], whatever the request: the header the handler
    commits carries [Last-Modified], and it carries [Connection: close],
    set once, exactly when [GRACEFUL_SHUTDOWN] is on and the shutdown has
    been initiated; otherwise the handlers leave the [Connection] header
    as it was. *)
Theorem sleep_route_connection (g sd : bool) (now : string)
    (r : SleepQuery) (rnd : Rand) (w : response) :
  wire w = None ->
  match sleep_route ParseDuration Sscanf_f DurationString g sd now r rnd
          response _ w with
  | Panic => True
  | Return w' _ =>
      wire_header w' "Last-Modified" = Some now
      /\ wire_header w' "Connection"
         = Some (if g && sd then "close"%string
                 else Get (header w) "Connection")
      /\ close_sets (calls w')
         = ((if g && sd then 1 else 0) + close_sets (calls w))%nat
  end.
Proof.
  intros Hw. unfold sleep_route, graceful, withLastModified.
  set (w1 := HeaderSet "Last-Modified" now w).
  assert (Hw1 : wire w1 = None) by exact Hw.
  destruct g; cbn [negb andb].
  - change (@HeaderSet _ (cw_writer sd) "Last-Modified" now
              (mkCloseWriter w false)) with (mkCloseWriter w1 false).
    destruct (sleep_shape ParseDuration Sscanf_f DurationString
                (H := cw_writer sd) (mkCloseWriter w1 false) r rnd)
      as [-> | [[msg ->] | [d ->]]]; [exact I | |].
    + rewrite decorated_Error_inner. cbv zeta.
      match goal with
      | |- context [WriteHeader _ ?x] => set (w3 := x)
      end.
      assert (Hw3 : wire w3 = None) by (subst w3; destruct sd; exact Hw).
      destruct (WriteHeader_Write_answer StatusBadRequest (msg ++ nl)%string
                  w3 "Last-Modified" Hw3 ltac:(unfold StatusBadRequest; lia)) as (_ & Hlm & _ & _).
      destruct (WriteHeader_Write_answer StatusBadRequest (msg ++ nl)%string
                  w3 "Connection" Hw3 ltac:(unfold StatusBadRequest; lia)) as (_ & Hco & _ & Hcs).
      cbv zeta in Hlm, Hco, Hcs. rewrite Hlm, Hco, Hcs. subst w3 w1.
      destruct sd;
        cbn [HeaderSet HeaderDel response_writer log calls set_header
             del_header header];
        get_header; count_sets; repeat split.
    + rewrite decorated_Write_inner.
      match goal with
      | |- context [Write _ ?x] => set (w3 := x)
      end.
      assert (Hw3 : wire w3 = None) by (subst w3; destruct sd; exact Hw).
      destruct (Write_answer (slept_for DurationString d) w3
                  "Last-Modified" Hw3) as (_ & Hlm & _ & _).
      destruct (Write_answer (slept_for DurationString d) w3
                  "Connection" Hw3) as (_ & Hco & _ & Hcs).
      rewrite Hlm, Hco, Hcs. subst w3 w1.
      destruct sd;
        cbn [HeaderSet response_writer log calls set_header header];
        get_header; count_sets; repeat split.
  - change (match sleep ParseDuration Sscanf_f DurationString w1 r rnd with
            | Return w' _ =>
                wire_header w' "Last-Modified" = Some now
                /\ wire_header w' "Connection"
                   = Some (Get (header w) "Connection")
                /\ close_sets (calls w') = (0 + close_sets (calls w))%nat
            | Panic => True
            end).
    destruct (sleep_shape ParseDuration Sscanf_f DurationString w1 r rnd)
      as [-> | [[msg ->] | [d ->]]]; [exact I | |].
    + destruct (Error_answer msg StatusBadRequest w1 "Last-Modified" Hw1
                  ltac:(unfold StatusBadRequest; lia) eq_refl) as (_ & Hlm & _ & _).
      destruct (Error_answer msg StatusBadRequest w1 "Connection" Hw1
                  ltac:(unfold StatusBadRequest; lia) eq_refl) as (_ & Hco & _ & Hcs).
      rewrite Hlm, Hco, Hcs. subst w1.
      cbn [HeaderSet response_writer log calls set_header header].
      get_header. count_sets. repeat split.
    + destruct (Write_answer (slept_for DurationString d) w1
                  "Last-Modified" Hw1) as (_ & Hlm & _ & _).
      destruct (Write_answer (slept_for DurationString d) w1
                  "Connection" Hw1) as (_ & Hco & _ & Hcs).
      rewrite Hlm, Hco, Hcs. subst w1.
      cbn [HeaderSet response_writer log calls set_header header].
      get_header. count_sets. repeat split.
Qed.

End RoutesMore.

Section RoutesWitnesses.
Import Int Float32 Duration Http Strings GoDemo Spec More.

Lemma sleep_errors_never_sleep_witness :
  exists w',
    sleep Sample.ParseDuration Sample.Sscanf_f Sample.DurationString
      new_response {| q_min := "soon"; q_max := ""; q_pdf := "" |}
      {| Float32_ := Sample.quarter; Int63_ := 0 |}
    = Return w' []
    /\ status_of w' = Some StatusBadRequest.
Proof.
  pose proof (sleep_errors_never_sleep
                Sample.ParseDuration Sample.Sscanf_f Sample.DurationString
                new_response {| q_min := "soon"; q_max := ""; q_pdf := "" |}
                {| Float32_ := Sample.quarter; Int63_ := 0 |} eq_refl) as Hs.
  destruct (sleep _ _ _ _ _ _) as [w' sleeps|] eqn:E; [|discriminate E].
  assert (sleeps = []) as -> by (vm_compute in E; congruence).
  exists w'. split; [reflexivity|].
  destruct Hs as [[_ Hst] | (d & Hd & _)]; [exact Hst | discriminate Hd].
Defined.

Lemma sleep_route_connection_witness :
  exists w',
    sleep_route Sample.ParseDuration Sample.Sscanf_f Sample.DurationString
      true true "Thu, 01 Jan 1970 00:00:00 GMT"
      {| q_min := "100ms"; q_max := "100ms"; q_pdf := "" |}
      {| Float32_ := Sample.quarter; Int63_ := 7 |}
      response _ new_response
    = Return w' [100 * Millisecond]
    /\ wire_header w' "Last-Modified"
       = Some "Thu, 01 Jan 1970 00:00:00 GMT"%string
    /\ wire_header w' "Connection" = Some "close"%string
    /\ close_sets (calls w') = 1%nat.
Proof.
  pose proof (sleep_route_connection
                Sample.ParseDuration Sample.Sscanf_f Sample.DurationString
                true true "Thu, 01 Jan 1970 00:00:00 GMT"
                {| q_min := "100ms"; q_max := "100ms"; q_pdf := "" |}
                {| Float32_ := Sample.quarter; Int63_ := 7 |}
                new_response eq_refl) as Hs.
  destruct (sleep_route _ _ _ _ _ _ _ _ _ _ _) as [w' sleeps|] eqn:E;
    [|discriminate E].
  assert (sleeps = [100 * Millisecond]) as ->
    by (vm_compute in E; injection E as _ <-; reflexivity).
  exists w'. split; [reflexivity | exact Hs].
Defined.

End RoutesWitnesses.

Section ProxyRoute.
Import Http Strings GoDemo Spec More.

Lemma wire_header_finish (w : response) (k v : string) :
  wire_header w k = Some v -> wire_header (finish w) k = Some v.
Proof.
  unfold wire_header, finish. intros Hv.
  destruct (panicked w); [exact Hv|].
  destruct (wire w) as [x|] eqn:E; [|discriminate Hv].
  rewrite (commit_committed _ _ _ E), E. exact Hv.
Qed.

Lemma relay_answer code src (w : response) (k : string) :
  wire w = None ->
  panicked (WriteHeader code w) = false ->
  let w' := Copy src (WriteHeader code w) in
  wire_header (finish w') k = Some (Get (header w) k)
  /\ close_sets (calls w') = close_sets (calls w).
Proof.
  intros Hw Hp w'.
  assert (Hc : carries (header w) w').
  { subst w'.
    apply (carries_exec_plain _ (OpReadFrom src)),
          (carries_exec_plain _ (OpWriteHeader code)).
    split; [reflexivity | left; exact Hw]. }
  split.
  - apply carries_finish; [exact Hc|]. subst w'. unfold Copy.
    cbn [AsReaderFrom response_writer log panicked].
    rewrite sends_panicked. exact Hp.
  - subst w'.
    change (Copy src (WriteHeader code w))
      with (exec_plain (OpReadFrom src) (exec_plain (OpWriteHeader code) w)).
    rewrite !close_sets_exec_plain. reflexivity.
Qed.

(** The routes of the relay, whatever the request and the upstream: the
    handler does not sleep, and the header that is committed, by the
    handler or by the server when the handler has returned, carries
    [Connection: close], set once, exactly when [GRACEFUL_SHUTDOWN] is on
    and the shutdown has been initiated, also on the 500 and 502
    answers; otherwise the handlers leave the [Connection] header as it
    was. *)
Theorem proxy_route_connection (g sd : bool) (service : string)
    (r : Request) (client : Request -> option Response) (w : response) :
  wire w = None ->
  match proxy_route g sd service r client response _ w with
  | Panic => True
  | Return w' sleeps =>
      sleeps = []
      /\ wire_header (finish w') "Connection"
         = Some (if g && sd then "close"%string
                 else Get (header w) "Connection")
      /\ close_sets (calls w')
         = ((if g && sd then 1 else 0) + close_sets (calls w))%nat
  end.
Proof.
  intros Hw. unfold proxy_route, graceful.
  assert (Hfinal : forall code,
            code = StatusInternalServerError \/ code = StatusBadGateway ->
            200 <= code <= 999).
  { intros code [-> | ->];
      unfold StatusInternalServerError, StatusBadGateway; lia. }
  destruct g; cbn [negb andb].
  - destruct (proxy_shape (H := cw_writer sd) service (mkCloseWriter w false)
                r client)
      as [-> | [(msg & code & Hcode & ->) | (req & resp & _ & Hp & ->)]];
      [exact I | |]; (split; [reflexivity|]).
    + rewrite decorated_Error_inner. cbv zeta.
      match goal with
      | |- context [WriteHeader _ ?x] => set (w3 := x)
      end.
      assert (Hw3 : wire w3 = None) by (subst w3; destruct sd; exact Hw).
      destruct (WriteHeader_Write_answer code (msg ++ nl)%string
                  w3 "Connection" Hw3 (Hfinal code Hcode))
        as (_ & Hco & _ & Hcs).
      cbv zeta in Hco, Hcs. rewrite (wire_header_finish _ _ _ Hco), Hcs.
      subst w3.
      destruct sd;
        cbn [HeaderSet HeaderDel response_writer log calls set_header
             del_header header];
        get_header; count_sets; repeat split.
    + rewrite decorated_relay_inner.
      match goal with
      | |- context [WriteHeader _ ?x] => set (w3 := x)
      end.
      assert (Hw3 : wire w3 = None) by (subst w3; destruct sd; exact Hw).
      assert (Hp3 : panicked (WriteHeader (StatusCode resp) w3) = false)
        by (subst w3; destruct sd; exact Hp).
      destruct (relay_answer (StatusCode resp) (RespBody resp) w3
                  "Connection" Hw3 Hp3) as (Hco & Hcs).
      cbv zeta in Hco, Hcs. rewrite Hco, Hcs. subst w3.
      destruct sd;
        cbn [HeaderSet response_writer log calls set_header header];
        get_header; count_sets; repeat split.
  - change (match proxy service w r client with
            | Return w' sleeps =>
                sleeps = []
                /\ wire_header (finish w') "Connection"
                   = Some (Get (header w) "Connection")
                /\ close_sets (calls w') = (0 + close_sets (calls w))%nat
            | Panic => True
            end).
    destruct (proxy_shape service w r client)
      as [-> | [(msg & code & Hcode & ->) | (req & resp & _ & Hp & ->)]];
      [exact I | |]; (split; [reflexivity|]).
    + destruct (Error_answer msg code w "Connection" Hw (Hfinal code Hcode)
                  eq_refl) as (_ & Hco & _ & Hcs).
      rewrite (wire_header_finish _ _ _ Hco), Hcs. split; reflexivity.
    + destruct (relay_answer (StatusCode resp) (RespBody resp) w
                  "Connection" Hw Hp) as (Hco & Hcs).
      cbv zeta in Hco, Hcs. rewrite Hco, Hcs. split; reflexivity.
Qed.

Lemma proxy_route_connection_witness :
  let r := {| Method := "GET"; URL_Scheme := ""; URL_Host := "";
              URL_Path := "/envoy/status"; URL_RawQuery := "code=204";
              ReqHeader := ∅; Body := NoBody |} in
  exists w',
    proxy_route true true "envoy" r (fun _ => None) response _ new_response
    = Return w' []
    /\ status_of w' = Some StatusBadGateway
    /\ wire_header (finish w') "Connection" = Some "close"%string.
Proof.
  intros r.
  pose proof (proxy_route_connection true true "envoy" r (fun _ => None)
                new_response eq_refl) as Hs.
  destruct (proxy_route _ _ _ _ _ _ _ _) as [w' sleeps|] eqn:E;
    [|discriminate E].
  destruct Hs as (-> & Hco & _).
  exists w'. split; [reflexivity|]. split; [|exact Hco].
  vm_compute in E. injection E as <-. reflexivity.
Defined.

End ProxyRoute.

(** ** More on the relay *)

Section ProxyMore.
Import Http Strings GoDemo Spec More.

Lemma SliceFrom_None (n : nat) : forall s : string,
  SliceFrom n s = None <-> (String.length s < n)%nat.
Proof.
  induction n as [|n IH]; intros s.
  - simpl. split; [discriminate | lia].
  - destruct s as [|c s]; simpl.
    + split; [lia | reflexivity].
    + rewrite IH. lia.
Qed.

Lemma SliceFrom_split (pre rest : string) :
  SliceFrom (String.length pre) (pre ++ rest) = Some rest.
Proof. apply SliceFrom_app. Qed.

Lemma SliceFrom_Some (n : nat) : forall s rest : string,
  SliceFrom n s = Some rest
  <-> exists pre : string, s = (pre ++ rest)%string /\ String.length pre = n.
Proof.
  induction n as [|n IH]; intros s rest.
  - cbn. split.
    + intros Hs. inversion Hs; subst. exists ""%string. split; reflexivity.
    + intros (pre & -> & Hl). destruct pre; [reflexivity | discriminate].
  - destruct s as [|c s]; cbn [SliceFrom].
    + split; [discriminate|]. intros (pre & Hs & Hl).
      destruct pre; discriminate.
    + rewrite IH. split.
      * intros (pre & -> & Hl). exists (String c pre).
        split; [reflexivity | cbn; lia].
      * intros (pre & Hs & Hl). destruct pre as [|c' pre]; [discriminate|].
        cbn in Hs, Hl. inversion Hs; subst. exists pre. split; [reflexivity | lia].
Qed.

(** [WriteHeader] on the server's response panics on an uncommitted
    header and a code outside 100 to 999. *)
Lemma WriteHeader_panics code (w : response) :
  wire w = None -> panicked w = false ->
  (Panicked (WriteHeader code w) = true <-> code < 100 \/ 999 < code).
Proof.
  intros Hw Hp. cbn [Panicked WriteHeader response_writer log panicked].
  rewrite commit_panicked, Hw, Hp. cbn [orb].
  unfold checkWriteHeaderCode. rewrite negb_true_iff, andb_false_iff.
  rewrite !Z.leb_gt. reflexivity.
Qed.

(** The relay cuts the path by length alone: it answers 500, without a
    call of the client, exactly for a method that is not a token; for a
    valid method (the empty one stands for [GET]) and a response whose
    header is uncommitted it panics exactly when the path is shorter than
    [/service], or when the upstream answers the request, the path cut,
    with a status code outside 100 to 999, which [WriteHeader] refuses;
    and otherwise it drops the first [1 + len(service)] bytes of the
    path, whatever they are, and relays the rest. *)
Theorem proxy_cuts_by_length (service : string) (w : response) (r : Request)
    (client : Request -> option Response) :
  wire w = None ->
  panicked w = false ->
  let method := if String.eqb (Method r) "" then "GET"%string
                else Method r in
  (validMethod method = false ->
     proxy service w r client
     = Return (Error ("Failed to create request" ++ nl)%string
                 StatusInternalServerError w) [])
  /\ (validMethod method = true ->
        (proxy service w r client = Panic
         <-> (String.length (URL_Path r) < 1 + String.length service)%nat
             \/ exists (pre rest : string) (resp : Response),
                  URL_Path r = (pre ++ rest)%string
                  /\ String.length pre = (1 + String.length service)%nat
                  /\ client {| Method := method; URL_Scheme := "http";
                               URL_Host := service; URL_Path := rest;
                               URL_RawQuery := URL_RawQuery r;
                               ReqHeader :=
                                 forwardTraceHeaders (ReqHeader r) ∅;
                               Body := NoBody |} = Some resp
                  /\ (StatusCode resp < 100 \/ 999 < StatusCode resp)))
  /\ (validMethod (Method r) = true ->
        forall pre rest : string,
          URL_Path r = (pre ++ rest)%string ->
          String.length pre = (1 + String.length service)%nat ->
          proxy service w r client
          = relay w (client (upstream service r rest))).
Proof.
  intros Hw Hpan method. split; [|split].
  - intros Hm. unfold proxy, NewRequest. fold method. rewrite Hm.
    reflexivity.
  - intros Hm. unfold proxy, NewRequest. fold method. rewrite Hm.
    cbn [Method URL_Scheme URL_Host URL_Path URL_RawQuery ReqHeader Body].
    rewrite <- SliceFrom_None.
    destruct (SliceFrom _ (URL_Path r)) as [path|] eqn:Hs.
    + apply SliceFrom_Some in Hs. destruct Hs as (pre & Hpath & Hlen).
      match goal with
      | |- context [client ?q] => destruct (client q) as [resp|] eqn:Hc
      end.
      * cbv zeta.
        destruct (Panicked (WriteHeader (StatusCode resp) w)) eqn:Hp.
        -- split; [|reflexivity]. intros _. right.
           exists pre, path, resp. repeat split; try assumption.
           apply (WriteHeader_panics _ w Hw Hpan). exact Hp.
        -- split; [discriminate|].
           intros [Hn | (pre' & rest' & resp' & Hpath' & Hlen' & Hc' & Hout)];
             [discriminate|].
           assert (rest' = path) as ->.
           { pose proof (SliceFrom_split pre' rest') as H1.
             pose proof (SliceFrom_split pre path) as H2.
             rewrite <- Hpath', Hlen' in H1. rewrite <- Hpath, Hlen in H2.
             congruence. }
           rewrite Hc in Hc'. inversion Hc'; subst resp'.
           apply (WriteHeader_panics _ w Hw Hpan) in Hout. congruence.
      * split; [discriminate|].
        intros [Hn | (pre' & rest' & resp' & Hpath' & Hlen' & Hc' & _)];
          [discriminate|].
        assert (rest' = path) as ->.
        { pose proof (SliceFrom_split pre' rest') as H1.
          pose proof (SliceFrom_split pre path) as H2.
          rewrite <- Hpath', Hlen' in H1. rewrite <- Hpath, Hlen in H2.
          congruence. }
        congruence.
    + split; [intros _; left; reflexivity | reflexivity].
  - intros Hm pre rest Hp Hlen. apply proxy_outcome; [exact Hm|].
    rewrite Hp, <- Hlen. apply SliceFrom_split.
Qed.

Lemma proxy_cuts_by_length_witness :
  let r1 := {| Method := "GET"; URL_Scheme := ""; URL_Host := "";
               URL_Path := "/nginx/ready"; URL_RawQuery := "";
               ReqHeader := ∅; Body := NoBody |} in
  let r2 := {| Method := "GET"; URL_Scheme := ""; URL_Host := "";
               URL_Path := "/java"; URL_RawQuery := "";
               ReqHeader := ∅; Body := NoBody |} in
  let r3 := {| Method := "G T"; URL_Scheme := ""; URL_Host := "";
               URL_Path := "/envoy/"; URL_RawQuery := "";
               ReqHeader := ∅; Body := NoBody |} in
  (forall client,
      proxy "envoy" new_response r1 client
      = relay new_response (client (upstream "envoy" r1 "/ready")))
  /\ (forall client, proxy "java-demo" new_response r2 client = Panic)
  /\ proxy "envoy" new_response r1
       (fun _ => Some {| StatusCode := 42; RespBody := [] |}) = Panic
  /\ (forall client,
        proxy "envoy" new_response r3 client
        = Return (Error ("Failed to create request" ++ nl)%string
                    StatusInternalServerError new_response) []).
Proof.
  intros r1 r2 r3. split; [|split; [|split]]; try intros client.
  - exact (proj2 (proj2 (proxy_cuts_by_length "envoy" new_response r1 client
                           eq_refl eq_refl))
             eq_refl "/nginx" "/ready" eq_refl eq_refl).
  - apply (proj1 (proj2 (proxy_cuts_by_length "java-demo" new_response r2
                           client eq_refl eq_refl)) eq_refl).
    left. simpl. lia.
  - apply (proj1 (proj2 (proxy_cuts_by_length "envoy" new_response r1
                           _ eq_refl eq_refl)) eq_refl).
    right. exists "/nginx"%string, "/ready"%string,
             {| StatusCode := 42; RespBody := [] |}.
    repeat split. left. simpl. lia.
  - exact (proj1 (proxy_cuts_by_length "envoy" new_response r3 client
                    eq_refl eq_refl)
             eq_refl).
Defined.

(** The loop of [forwardTraceHeaders], key by key. *)
Lemma forward_lookup (src : Header) (l : list string) :
  forall (dest : Header) (k : string),
    fold_left
      (fun dest h =>
         let v := Get src h in
         if negb (String.eqb v "") then Set_ dest h v else dest)
      l dest !! k
    = if existsb (String.eqb k) (map CanonicalMIMEHeaderKey l)
         && negb (String.eqb (first_value src k) "")
      then Some [first_value src k] else dest !! k.
Proof.
  induction l as [|h l IH]; intros dest k; [reflexivity|].
  cbn [fold_left map existsb]. rewrite IH.
  change (Get src h) with (first_value src (CanonicalMIMEHeaderKey h)).
  destruct (String.eqb_spec k (CanonicalMIMEHeaderKey h)) as [->|Hne].
  - cbn [orb].
    destruct (String.eqb (first_value src (CanonicalMIMEHeaderKey h)) "")
      eqn:Hv; cbn [negb].
    + rewrite !andb_false_r. reflexivity.
    + rewrite !andb_true_r. unfold Set_. rewrite lookup_insert_eq.
      destruct (existsb _ _); reflexivity.
  - cbn [orb].
    destruct (negb (String.eqb (first_value src (CanonicalMIMEHeaderKey h))
                      "")); [|reflexivity].
    unfold Set_. rewrite lookup_insert_ne by congruence. reflexivity.
Qed.

(** What [forwardTraceHeaders] does to any destination: a key of the
    allow-list whose first value in the source is not empty gets that
    one value, in place of whatever values the destination had; every
    other key, also an allow-listed one that is absent or empty in the
    source, keeps the values of the destination. *)
Theorem forwardTraceHeaders_lookup (src dest : Header) (k : string) :
  forwardTraceHeaders src dest !! k
  = if trace_key k && negb (String.eqb (first_value src k) "")
    then Some [first_value src k] else dest !! k.
Proof. unfold forwardTraceHeaders, trace_key. apply forward_lookup. Qed.

(** Forwarding twice is forwarding once. *)
Theorem forwardTraceHeaders_idempotent (src dest : Header) :
  forwardTraceHeaders src (forwardTraceHeaders src dest)
  = forwardTraceHeaders src dest.
Proof.
  apply map_eq. intros k. unfold forwardTraceHeaders.
  rewrite !forward_lookup.
  destruct (existsb (String.eqb k) _
            && negb (String.eqb (first_value src k) "")); reflexivity.
Qed.

End ProxyMore.

(** ** More on the latency sampler *)

Section SleepMore.
Import Int Float32 Duration Http Strings GoDemo Spec More.
Variable ParseDuration : string -> option Z.
Variable Sscanf_f : string -> option float32.
Variable DurationString : Z -> string.

(** With a [pdf] parameter the handler does not look at [min] and [max],
    not even to reject them, nor at the integer draw. *)
Theorem sleep_pdf_ignores_bounds {W : Type} `{ResponseWriter W} (w : W)
    (r : SleepQuery) (rnd : Rand) (minD maxD : string) (v : Z) :
  q_pdf r <> ""%string ->
  sleep ParseDuration Sscanf_f DurationString w
    {| q_min := minD; q_max := maxD; q_pdf := q_pdf r |}
    {| Float32_ := Float32_ rnd; Int63_ := v |}
  = sleep ParseDuration Sscanf_f DurationString w r rnd.
Proof.
  intros Hpdf. apply String.eqb_neq in Hpdf. unfold sleep.
  cbn [q_pdf Float32_]. rewrite Hpdf. reflexivity.
Qed.

(** In the uniform mode a bound that is given and does not parse is
    answered with 400 before any sleep, the minimum first; the maximum is
    not looked at when the minimum is rejected. *)
Theorem sleep_uniform_rejects {W : Type} `{ResponseWriter W} (w : W)
    (r : SleepQuery) (rnd : Rand) :
  q_pdf r = ""%string ->
  (q_min r <> ""%string -> ParseDuration (q_min r) = None ->
     sleep ParseDuration Sscanf_f DurationString w r rnd
     = Return (Error ("Failed to parse min duration" ++ nl)%string
                 StatusBadRequest w) [])
  /\ ((q_min r = ""%string \/ ParseDuration (q_min r) <> None) ->
      q_max r <> ""%string -> ParseDuration (q_max r) = None ->
      sleep ParseDuration Sscanf_f DurationString w r rnd
      = Return (Error ("Failed to parse max duration" ++ nl)%string
                  StatusBadRequest w) []).
Proof.
  intros Hpdf. unfold sleep. rewrite Hpdf. cbn [String.eqb negb]. split.
  - intros Hne Hmin. apply String.eqb_neq in Hne. rewrite Hmin, Hne.
    reflexivity.
  - intros Hmin Hne Hmax. apply String.eqb_neq in Hne. rewrite Hmax, Hne.
    cbn [negb].
    destruct (ParseDuration (q_min r)) as [lo|]; [reflexivity|].
    destruct Hmin as [-> | Hmin]; [reflexivity | contradiction].
Qed.

(** Without parameters the handler sleeps for a duration from 50ms to 1s,
    both included ([time.ParseDuration] fails on the empty string). *)
Theorem sleep_uniform_defaults (w : response) (rnd : Rand) :
  ParseDuration "" = None ->
  exists d,
    sleep ParseDuration Sscanf_f DurationString w
      {| q_min := ""; q_max := ""; q_pdf := "" |} rnd
    = Return (Write (slept_for DurationString d) w) [d]
    /\ 50 * Millisecond <= d <= 1 * Second.
Proof.
  intros Hempty. unfold sleep. cbn [q_min q_max q_pdf String.eqb negb].
  rewrite Hempty. cbv iota.
  change (wrap64 (wrap64 (1 * Second - 50 * Millisecond) + 1))
    with 950000001.
  unfold Int63n. change (950000001 <=? 0) with false. cbv iota.
  pose proof (Z.mod_pos_bound (Int63_ rnd) 950000001 ltac:(lia)) as Hk.
  rewrite wrap64_small
    by (unfold in_int64, min_int64, max_int64, Millisecond;
        change (2 ^ 63) with 9223372036854775808; lia).
  eexists. split; [reflexivity|]. unfold Millisecond, Second. lia.
Qed.

End SleepMore.

Section SleepMoreWitnesses.
Import Int Float32 Duration Http Strings GoDemo Spec More.

Lemma sleep_pdf_ignores_bounds_witness :
  sleep Sample.ParseDuration Sample.Sscanf_f Sample.DurationString
    new_response
    {| q_min := "never"; q_max := "100ms"; q_pdf := "100ms:1" |}
    {| Float32_ := Sample.quarter; Int63_ := 5 |}
  = sleep Sample.ParseDuration Sample.Sscanf_f Sample.DurationString
      new_response
      {| q_min := ""; q_max := ""; q_pdf := "100ms:1" |}
      {| Float32_ := Sample.quarter; Int63_ := 0 |}.
Proof.
  apply (sleep_pdf_ignores_bounds
           Sample.ParseDuration Sample.Sscanf_f Sample.DurationString
           new_response
           {| q_min := ""; q_max := ""; q_pdf := "100ms:1" |}
           {| Float32_ := Sample.quarter; Int63_ := 0 |}
           "never" "100ms" 5).
  discriminate.
Defined.

Lemma sleep_uniform_rejects_witness :
  sleep Sample.ParseDuration Sample.Sscanf_f Sample.DurationString
    new_response
    {| q_min := "100ms"; q_max := "later"; q_pdf := "" |}
    {| Float32_ := Sample.quarter; Int63_ := 0 |}
  = Return (Error ("Failed to parse max duration" ++ nl)%string
              StatusBadRequest new_response) [].
Proof.
  apply (proj2 (sleep_uniform_rejects
                  Sample.ParseDuration Sample.Sscanf_f Sample.DurationString
                  new_response
                  {| q_min := "100ms"; q_max := "later"; q_pdf := "" |}
                  {| Float32_ := Sample.quarter; Int63_ := 0 |} eq_refl)).
  - right. discriminate.
  - discriminate.
  - reflexivity.
Defined.

Lemma sleep_uniform_defaults_witness :
  exists d,
    sleep Sample.ParseDuration Sample.Sscanf_f Sample.DurationString
      new_response {| q_min := ""; q_max := ""; q_pdf := "" |}
      {| Float32_ := Sample.quarter; Int63_ := 123456789012 |}
    = Return (Write (slept_for Sample.DurationString d) new_response) [d]
    /\ 50 * Millisecond <= d <= 1 * Second.
Proof.
  exact (sleep_uniform_defaults
           Sample.ParseDuration Sample.Sscanf_f Sample.DurationString
           new_response {| Float32_ := Sample.quarter; Int63_ := 123456789012 |}
           eq_refl).
Defined.

Lemma sleep_uniform_in_range_witness :
  exists d,
    sleep Sample.ParseDuration Sample.Sscanf_f Sample.DurationString
      new_response {| q_min := "100ms"; q_max := "200ms"; q_pdf := "" |}
      {| Float32_ := Sample.quarter; Int63_ := 123456789012 |}
    = Return (Write (slept_for Sample.DurationString d) new_response) [d]
    /\ 100 * Millisecond <= d <= 200 * Millisecond.
Proof.
  destruct (sleep_uniform_in_range
              Sample.ParseDuration Sample.Sscanf_f Sample.DurationString
              new_response
              {| q_min := "100ms"; q_max := "200ms"; q_pdf := "" |}
              {| Float32_ := Sample.quarter; Int63_ := 123456789012 |}
              (100 * Millisecond) (200 * Millisecond))
    as (d & Hs & Hd & _).
  - reflexivity.
  - reflexivity.
  - reflexivity.
  - vm_compute. split; discriminate.
  - vm_compute. split; discriminate.
  - vm_compute. discriminate.
  - vm_compute. reflexivity.
  - exists d. split; [exact Hs | exact Hd].
Defined.

End SleepMoreWitnesses.

(** ** Weights that are not a number *)

Section NaNWeights.
Import Float32 Http Strings GoDemo Spec More.

Lemma add_nan_r x : add x S754_nan = S754_nan.
Proof. destruct x; reflexivity. Qed.

Lemma add_nan_l x : add S754_nan x = S754_nan.
Proof. destruct x; reflexivity. Qed.

Lemma mul_nan_r x : mul x S754_nan = S754_nan.
Proof. destruct x; reflexivity. Qed.

Lemma leb_nan_r x : leb x S754_nan = false.
Proof. destruct x; reflexivity. Qed.

Lemma sum_from_nan ws : fold_left add ws S754_nan = S754_nan.
Proof.
  induction ws as [|p ws IH]; [reflexivity|].
  cbn [fold_left]. rewrite add_nan_l. exact IH.
Qed.

(** One weight that is not a number makes the total not a number. *)
Lemma total_nan ws : In S754_nan ws -> total ws = S754_nan.
Proof.
  unfold total. generalize zero.
  induction ws as [|p ws IH]; intros acc Hin; [destruct Hin|].
  cbn [fold_left]. destruct Hin as [-> | Hin].
  - rewrite add_nan_r. apply sum_from_nan.
  - apply IH. exact Hin.
Qed.

Lemma cumulate_nan ps : forall c,
  Forall (fun p => p = S754_nan) ps ->
  Forall (fun cp => cp = S754_nan) (cumulate c ps).
Proof.
  induction ps as [|p ps IH]; intros c Hps; [constructor|].
  inversion Hps as [|? ? Hp Hps']; subst.
  cbn [cumulate]. rewrite add_nan_r. constructor; [reflexivity|].
  apply IH. exact Hps'.
Qed.

Lemma first_reached_nan r cdf : forall i : nat,
  Forall (fun cp => cp = S754_nan) cdf -> first_reached r cdf i = None.
Proof.
  induction cdf as [|c cdf IH]; intros i Hc; [reflexivity|].
  inversion Hc as [|? ? Hnan Hc']; subst.
  cbn [first_reached]. rewrite leb_nan_r. apply IH. exact Hc'.
Qed.

Variable ParseDuration : string -> option Z.
Variable Sscanf_f : string -> option float32.
Variable DurationString : Z -> string.

(** A [pdf] whose pairs all parse and one of whose weights is not a
    number passes the validation (the test [totalProb <= 0] is false),
    and the handler then sleeps for the last listed duration, whatever
    the draw. *)
Theorem sleep_nan_weight_selects_last {W : Type} `{ResponseWriter W}
    (w : W) (r : SleepQuery) (rnd : Rand) :
  q_pdf r <> ""%string ->
  (forall pair_, In pair_ (Split "," (q_pdf r)) ->
                 entry ParseDuration Sscanf_f pair_ <> None) ->
  In S754_nan (map snd (entries ParseDuration Sscanf_f (q_pdf r))) ->
  exists d,
    last (map fst (entries ParseDuration Sscanf_f (q_pdf r))) = Some d
    /\ sleep ParseDuration Sscanf_f DurationString w r rnd
       = Return (Write (slept_for DurationString d) w) [d].
Proof.
  intros Hpdf Hall Hnan.
  set (es := entries ParseDuration Sscanf_f (q_pdf r)) in *.
  pose proof (total_nan _ Hnan) as Htot.
  destruct (weighted_outcome ParseDuration Sscanf_f DurationString w r rnd
              Hpdf) as [[Hinv _] | (_ & Hne & d & Hd & Hs)].
  - exfalso. destruct Hinv as [(p & Hin & Hbad) | Hle].
    + apply entry_None in Hbad. exact (Hall p Hin Hbad).
    + fold es in Hle. rewrite Htot in Hle. discriminate Hle.
  - fold es in Hne, Hd. exists d. split; [|exact Hs].
    unfold buildInverseDiscreteCDF in Hd.
    rewrite first_reached_nan in Hd; [exact Hd|].
    apply cumulate_nan. unfold normalized. rewrite Htot.
    apply Forall_forall. intros p Hp. apply list_elem_of_In in Hp.
    apply in_map_iff in Hp. destruct Hp as (q & <- & _).
    change (div one S754_nan) with S754_nan. apply mul_nan_r.
Qed.

End NaNWeights.

Section NaNWitness.
Import Float32 Duration Http Strings GoDemo Spec More.

Lemma sleep_nan_weight_selects_last_witness :
  sleep Sample.ParseDuration SampleMore.Sscanf_f Sample.DurationString
    new_response
    {| q_min := ""; q_max := ""; q_pdf := "100ms:NaN,200ms:1,50ms:0" |}
    {| Float32_ := zero; Int63_ := 0 |}
  = Return (Write (slept_for Sample.DurationString (50 * Millisecond))
              new_response) [50 * Millisecond].
Proof.
  destruct (sleep_nan_weight_selects_last
              Sample.ParseDuration SampleMore.Sscanf_f Sample.DurationString
              new_response
              {| q_min := ""; q_max := "";
                 q_pdf := "100ms:NaN,200ms:1,50ms:0" |}
              {| Float32_ := zero; Int63_ := 0 |})
    as (d & Hl & Hs).
  - discriminate.
  - intros p Hin. cbv in Hin.
    destruct Hin as [<- | [<- | [<- | []]]]; vm_compute; discriminate.
  - left. reflexivity.
  - vm_compute in Hl. injection Hl as <-. exact Hs.
Defined.

End NaNWitness.

(** ** The status endpoint *)

Section StatusFacts.
Import Http GoDemo GoStatus Spec More.
Variable Sscanf_d : string -> option Z.
Variable FormatInt : Z -> string.

Lemma informational_range (code : Z) :
  informational code = true <-> 100 <= code <= 199 /\ code <> 101.
Proof.
  unfold informational, StatusSwitchingProtocols.
  rewrite !andb_true_iff, negb_true_iff, !Z.leb_le, Z.eqb_neq. tauto.
Qed.

(** An informational response, and then the answer with the status 200
    that the first write commits. *)
Lemma WriteHeader_Write_informational code b (w : response) :
  wire w = None -> 100 <= code <= 199 -> code <> 101 ->
  let w' := Write b (WriteHeader code w) in
  early w' = early w ++ [(code, informational_header (header w))]
  /\ status_of w' = Some StatusOK
  /\ body w' = (body w ++ b)%string
  /\ panicked w' = panicked w.
Proof.
  intros Hw Hr Hne w'. subst w'.
  assert (Hi : informational code = true)
    by (apply informational_range; auto).
  assert (Hv : checkWriteHeaderCode code = true).
  { unfold checkWriteHeaderCode. apply andb_true_iff.
    split; apply Z.leb_le; lia. }
  unfold status_of.
  cbn [Write WriteHeader response_writer log early wire body panicked].
  unfold send, bodyAllowed, commit. cbn [log wire].
  rewrite Hw, Hv, Hi. cbn. repeat split.
Qed.

(** A final status code, and then the one write of the answer. *)
Lemma WriteHeader_Write_final code b (w : response) :
  wire w = None -> 200 <= code <= 999 ->
  let w' := Write b (WriteHeader code w) in
  early w' = early w
  /\ status_of w' = Some code
  /\ body w'
     = (if bodyAllowedForStatus code then (body w ++ b)%string else body w)
  /\ panicked w' = panicked w.
Proof.
  intros Hw Hr w'. subst w'.
  destruct (final_code code Hr) as [Hv Hi].
  unfold status_of.
  cbn [Write WriteHeader response_writer log early wire body panicked].
  unfold send, bodyAllowed, commit. cbn [log wire].
  rewrite Hw, Hv, Hi. cbn.
  destruct (bodyAllowedForStatus code); repeat split.
Qed.

(** [/status] answers 400 when the code is missing, does not parse, or
    is below 100 or above 599.  Otherwise it answers with that very code
    and a body that reports it, but for the codes the server treats in
    its own way: 101, 204 and 304 are answered without a body, and a
    code from 100 to 199 other than 101 is sent as an informational
    response, followed by the answer with the status 200 and the body.
    The handler does not panic. *)
Theorem status_answers (w : response) (codeStr : string) :
  wire w = None ->
  let w' := status Sscanf_d FormatInt w codeStr in
  ((codeStr = ""%string \/ Sscanf_d codeStr = None
    \/ (exists code, Sscanf_d codeStr = Some code
                     /\ (code < 100 \/ 599 < code))) ->
     status_of w' = Some StatusBadRequest)
  /\ (forall code,
        codeStr <> ""%string -> Sscanf_d codeStr = Some code ->
        100 <= code <= 599 ->
        panicked w' = panicked w
        /\ (code <= 199 /\ code <> 101 ->
            early w' = early w ++ [(code, informational_header (header w))]
            /\ status_of w' = Some StatusOK
            /\ body w' = (body w ++ returned FormatInt code)%string)
        /\ (code = 101 \/ code = 204 \/ code = 304 ->
            early w' = early w
            /\ status_of w' = Some code
            /\ body w' = body w)
        /\ (200 <= code /\ code <> 204 /\ code <> 304 ->
            early w' = early w
            /\ status_of w' = Some code
            /\ body w' = (body w ++ returned FormatInt code)%string)).
Proof.
  intros Hw w'. subst w'. unfold status. split.
  - intros Hbad.
    assert (Hb : forall msg,
               status_of (Error msg StatusBadRequest w)
               = Some StatusBadRequest)
      by (intros msg;
          exact (proj1 (Error_answer msg StatusBadRequest w "Connection" Hw
                          ltac:(unfold StatusBadRequest; lia) eq_refl))).
    destruct (String.eqb_spec codeStr "") as [->|Hne]; [apply Hb|].
    destruct (Sscanf_d codeStr) as [code|]; [|apply Hb].
    destruct ((code <? 100) || (599 <? code)) eqn:Hr; [apply Hb|].
    apply orb_false_iff in Hr. destruct Hr as [H1 H2].
    apply Z.ltb_ge in H1, H2.
    destruct Hbad as [He | [Hn | (c & Hc & Hout)]];
      [contradiction | discriminate |].
    inversion Hc; subst. lia.
  - intros code Hne Hc Hr. apply String.eqb_neq in Hne. rewrite Hne, Hc.
    replace ((code <? 100) || (599 <? code)) with false
      by (symmetry; apply orb_false_iff; split; apply Z.ltb_ge; lia).
    cbv zeta.
    assert (Hcases : (code <= 199 /\ code <> 101) \/ code = 101
                     \/ 200 <= code) by lia.
    destruct Hcases as [[H1 H2] | [-> | H2]].
    + destruct (WriteHeader_Write_informational code
                  (returned FormatInt code) w Hw ltac:(lia) H2)
        as (He & Hs & Hb & Hp).
      split; [exact Hp|]. split; [auto|]. split; intros; lia.
    + cbn [Write WriteHeader response_writer log early wire body panicked].
      unfold status_of, send, bodyAllowed, commit. cbn [log wire].
      rewrite Hw. cbn.
      split; [reflexivity|]. split; [lia|]. split; [|lia].
      intros _. repeat split.
    + destruct (WriteHeader_Write_final code (returned FormatInt code) w Hw
                  ltac:(lia)) as (He & Hs & Hb & Hp).
      split; [exact Hp|]. split; [lia|]. split.
      * intros [-> | [-> | ->]]; [lia | |]; repeat split; assumption.
      * intros (_ & N1 & N2). repeat split; try assumption.
        rewrite Hb. unfold bodyAllowedForStatus, StatusNoContent,
          StatusNotModified.
        replace ((100 <=? code) && (code <=? 199)) with false
          by (symmetry; apply andb_false_iff; right; apply Z.leb_gt; lia).
        rewrite (proj2 (Z.eqb_neq code 204) N1).
        rewrite (proj2 (Z.eqb_neq code 304) N2). reflexivity.
Qed.

End StatusFacts.

Section StatusWitness.
Import Http GoDemo GoStatus Spec More.

Lemma status_answers_witness :
  let answer := status SampleMore.Sscanf_d SampleMore.FormatInt new_response in
  (status_of (answer "404") = Some 404
   /\ body (answer "404") = ("Returned status code 404" ++ nl)%string)
  /\ (status_of (answer "204") = Some 204 /\ body (answer "204") = ""%string)
  /\ (early (answer "103") = [(103, ∅)]
      /\ status_of (answer "103") = Some StatusOK)
  /\ status_of (answer "600") = Some StatusBadRequest.
Proof.
  intros answer.
  destruct (status_answers SampleMore.Sscanf_d SampleMore.FormatInt
              new_response "404" eq_refl) as [_ Hok].
  destruct (status_answers SampleMore.Sscanf_d SampleMore.FormatInt
              new_response "204" eq_refl) as [_ Hnone].
  destruct (status_answers SampleMore.Sscanf_d SampleMore.FormatInt
              new_response "103" eq_refl) as [_ Hinf].
  destruct (status_answers SampleMore.Sscanf_d SampleMore.FormatInt
              new_response "600" eq_refl) as [Hbad _].
  split; [|split; [|split]].
  - destruct (Hok 404) as (_ & _ & _ & H);
      [discriminate | reflexivity | lia |].
    destruct H as (_ & Hs & Hb); [lia|]. split; [exact Hs | exact Hb].
  - destruct (Hnone 204) as (_ & _ & H & _);
      [discriminate | reflexivity | lia |].
    destruct H as (_ & Hs & Hb); [lia|]. split; [exact Hs | exact Hb].
  - destruct (Hinf 103) as (_ & H & _);
      [discriminate | reflexivity | lia |].
    destruct H as (He & Hs & _); [lia|]. split; [exact He | exact Hs].
  - apply Hbad. right. right. exists 600. split; [reflexivity | lia].
Defined.

End StatusWitness.

(** ** More on the connection tracker *)

Section TrackerMore.
Import Int Http Spec More.

Lemma count_Permutation f (evs evs' : list ConnState) :
  evs ≡ₚ evs' -> count f evs = count f evs'.
Proof.
  induction 1 as [|x l l' _ IH|x y l|l l' l'' _ IH1 _ IH2]; simpl;
    [reflexivity | rewrite IH; reflexivity | lia | congruence].
Qed.

(** The count does not depend on the order in which the calls of the
    hook land: two sequences with the same events, in any order, leave
    the same count. *)
Theorem tracker_order_irrelevant (evs evs' : list ConnState) (n : Z) :
  - 2 ^ 31 <= n <= max_int32 ->
  evs ≡ₚ evs' ->
  GoDemo.replay evs n = GoDemo.replay evs' n.
Proof.
  intros Hn Hp. rewrite !replay_wrap by exact Hn. unfold opens, closes.
  rewrite (count_Permutation is_open _ _ Hp),
          (count_Permutation is_close _ _ Hp).
  reflexivity.
Qed.

Lemma tracker_order_irrelevant_witness :
  GoDemo.replay [StateNew; StateNew; StateClosed; StateActive] 3
  = GoDemo.replay [StateClosed; StateActive; StateNew; StateNew] 3.
Proof.
  apply tracker_order_irrelevant.
  - vm_compute. split; congruence.
  - apply (Permutation_app_comm [StateNew; StateNew]
             [StateClosed; StateActive]).
Defined.

End TrackerMore.

(** ** More on the shutdown sequence *)

Section ShutdownMore.
Import Int Duration Http GoDemo Spec More.

Lemma step_flag_matches g e p p' :
  flag_matches_pc p -> step g e p = Some p' -> flag_matches_pc p'.
Proof.
  destruct p as [l f n t]. unfold flag_matches_pc, step. simpl.
  intros Hinv Hs.
  destruct e, l; simpl in *;
    repeat match type of Hs with
           | context [if ?b then _ else _] => destruct b
           end;
    inversion Hs; subst; simpl; congruence.
Qed.

Lemma step_rank g e p p' :
  flag_matches_pc p -> step g e p = Some p' ->
  (rank (phase_of p) <= rank (phase_of p'))%nat.
Proof.
  destruct p as [l f n t]. unfold flag_matches_pc, step, phase_of. simpl.
  intros Hinv Hs.
  destruct e, l; simpl in *; subst;
    repeat match type of Hs with
           | context [if ?b then _ else _] => destruct b
           end;
    inversion Hs; subst; simpl; lia.
Qed.

Lemma steps_flag_matches g es : forall p p',
  flag_matches_pc p -> steps g es p = Some p' -> flag_matches_pc p'.
Proof.
  induction es as [|e es IH]; intros p p' Hinv Hs; simpl in Hs.
  - inversion Hs; subst. exact Hinv.
  - destruct (step g e p) as [p1|] eqn:H1; [|discriminate].
    exact (IH _ _ (step_flag_matches _ _ _ _ Hinv H1) Hs).
Qed.

(** The phases are passed in their order and never left for an earlier
    one: between two states of a run of the process, the later one is
    in the same phase or in a later phase; and the shared flag is unset
    exactly while the process waits for the signal or sleeps before the
    shutdown. *)
Theorem phases_in_order (g : bool) (es1 es2 : list event)
    (p p' : process) :
  steps g es1 start = Some p ->
  steps g es2 p = Some p' ->
  flag_matches_pc p'
  /\ (rank (phase_of p) <= rank (phase_of p'))%nat.
Proof.
  intros H1 H2.
  assert (Hp : flag_matches_pc p)
    by (apply (steps_flag_matches g es1 start p); [reflexivity | exact H1]).
  split; [exact (steps_flag_matches g es2 p p' Hp H2)|].
  clear H1. revert p Hp H2.
  induction es2 as [|e es IH]; intros p Hp H2; simpl in H2.
  - inversion H2; subst. lia.
  - destruct (step g e p) as [p1|] eqn:Hs; [|discriminate].
    pose proof (step_rank _ _ _ _ Hp Hs).
    pose proof (IH p1 (step_flag_matches _ _ _ _ Hp Hs) H2). lia.
Qed.

Lemma phases_in_order_witness :
  exists p p',
    steps true [Signal; SleepElapsed; Conn StateNew] start = Some p
    /\ steps true [Tick; TimerFired; ShutdownReturned] p = Some p'
    /\ phase_of p = Draining /\ phase_of p' = Stopped
    /\ (rank (phase_of p) <= rank (phase_of p'))%nat.
Proof.
  eexists _, _. split; [reflexivity|]. split; [reflexivity|].
  split; [reflexivity|]. split; [reflexivity|].
  exact (proj2 (phases_in_order true [Signal; SleepElapsed; Conn StateNew]
                  [Tick; TimerFired; ShutdownReturned] _ _
                  eq_refl eq_refl)).
Defined.

Lemma step_no_drain e p p' :
  at_pc p <> DrainWait -> at_pc p <> Crashed -> timerPending p = false ->
  step false e p = Some p' ->
  at_pc p' <> DrainWait /\ at_pc p' <> Crashed /\ timerPending p' = false.
Proof.
  destruct p as [l f n t]. unfold step. simpl. intros Hd Hc Ht Hs. subst t.
  destruct e, l; simpl in *;
    repeat match type of Hs with
           | context [if ?b then _ else _] => destruct b
           end;
    inversion Hs; subst; simpl; repeat split; congruence.
Qed.

(** Without [GRACEFUL_SHUTDOWN] the process never waits for connections
    to drain: from the pre-shutdown sleep it goes on to
    [server.Shutdown], no timer is armed, and the phase is never the
    draining one. *)
Theorem no_drain_without_graceful (es : list event) (p : process) :
  steps false es start = Some p ->
  at_pc p <> DrainWait /\ timerPending p = false
  /\ phase_of p <> Draining.
Proof.
  intros Hs.
  assert (Hgen : forall es q q',
            at_pc q <> DrainWait -> at_pc q <> Crashed ->
            timerPending q = false ->
            steps false es q = Some q' ->
            at_pc q' <> DrainWait /\ at_pc q' <> Crashed
            /\ timerPending q' = false).
  { clear. induction es as [|e es IH]; intros q q' Hd Hc Ht Hs; simpl in Hs.
    - inversion Hs; subst. auto.
    - destruct (step false e q) as [q1|] eqn:H1; [|discriminate].
      destruct (step_no_drain _ _ _ Hd Hc Ht H1) as (Hd1 & Hc1 & Ht1).
      exact (IH _ _ Hd1 Hc1 Ht1 Hs). }
  destruct (Hgen es start p) as (Hd & _ & Ht);
    [discriminate | discriminate | reflexivity | exact Hs |].
  split; [exact Hd|]. split; [exact Ht|].
  unfold phase_of. destruct (negb (shutdownInitiated p)); [discriminate|].
  destruct (at_pc p); try discriminate. contradiction.
Qed.

Lemma no_drain_without_graceful_witness :
  exists p,
    steps false [Conn StateNew; Signal; SleepElapsed] start = Some p
    /\ at_pc p <> DrainWait /\ timerPending p = false
    /\ phase_of p <> Draining.
Proof.
  eexists. split; [reflexivity|].
  exact (no_drain_without_graceful
           [Conn StateNew; Signal; SleepElapsed] _ eq_refl).
Defined.

End ShutdownMore.

(** ** More on the drain wait *)

Section DrainMore.
Import Int Duration Http GoDemo Spec More.

Lemma poll_first_idle numConnections timerFirst :
  forall (fuel : nat) (t0 closedAt : Z) (who : closer),
    poll fuel numConnections timerFirst t0 = Some (closedAt, who) ->
    (forall j : nat,
        t0 + tickInterval * Z.of_nat j < closedAt ->
        numConnections (t0 + tickInterval * Z.of_nat j) <> 0)
    /\ match who with
       | ByPoller =>
           numConnections closedAt = 0
           /\ (exists j : nat, closedAt = t0 + tickInterval * Z.of_nat j)
           /\ closedAt <= clientSideIdleTimeout
       | ByTimer => closedAt = clientSideIdleTimeout
       end.
Proof.
  assert (Hi : 0 < tickInterval) by reflexivity.
  induction fuel as [|fuel IH]; intros t0 closedAt who Hp; [discriminate|].
  cbn [poll] in Hp.
  destruct ((clientSideIdleTimeout <? t0)
            || (clientSideIdleTimeout =? t0) && timerFirst) eqn:Hdue.
  - inversion Hp; subst. split; [|reflexivity].
    intros j Hj. exfalso.
    apply orb_true_iff in Hdue. destruct Hdue as [Hlt | Heq].
    + apply Z.ltb_lt in Hlt. nia.
    + apply andb_true_iff in Heq. destruct Heq as [Heq _].
      apply Z.eqb_eq in Heq. nia.
  - assert (Hle : t0 <= clientSideIdleTimeout).
    { apply orb_false_iff in Hdue. destruct Hdue as [Hdue _].
      apply Z.ltb_ge in Hdue. exact Hdue. }
    destruct (numConnections t0 =? 0) eqn:Hz.
    + inversion Hp; subst. apply Z.eqb_eq in Hz. split.
      * intros j Hj. exfalso. nia.
      * split; [exact Hz|]. split; [exists O; lia | exact Hle].
    + apply Z.eqb_neq in Hz.
      destruct (IH _ _ _ Hp) as [Hbefore Hwho]. split.
      * intros [|j] Hj.
        -- replace (t0 + tickInterval * Z.of_nat 0) with t0 by lia.
           exact Hz.
        -- replace (t0 + tickInterval * Z.of_nat (S j))
             with (t0 + tickInterval + tickInterval * Z.of_nat j) in * by lia.
           apply Hbefore. exact Hj.
      * destruct who; [|exact Hwho].
        destruct Hwho as (Hz' & (j & Hj) & Hle').
        split; [exact Hz'|]. split; [|exact Hle'].
        exists (S j). lia.
Qed.

(** The wait of [doGracefulShutdown] ends, and it ends at the first tick
    of the ticker at which no connection is left, when that tick comes
    before the deadline, and at the deadline otherwise: the polling
    goroutine closes the channel only at a tick at which it has read a
    count of zero, the timer only at the deadline, and at no earlier tick
    was the count zero. *)
Theorem drain_ends_at_first_idle_tick (fuel : nat)
    (numConnections : Z -> Z) (timerFirst : bool) :
  ((31 <= fuel)%nat ->
   exists closedAt who,
     doGracefulShutdown fuel numConnections timerFirst
     = Some (closedAt, who))
  /\ forall (closedAt : Z) (who : closer),
       doGracefulShutdown fuel numConnections timerFirst
       = Some (closedAt, who) ->
       (forall j : nat,
           tickInterval * (1 + Z.of_nat j) < closedAt ->
           numConnections (tickInterval * (1 + Z.of_nat j)) <> 0)
       /\ match who with
          | ByPoller =>
              numConnections closedAt = 0
              /\ (exists j : nat, closedAt = tickInterval * (1 + Z.of_nat j))
              /\ closedAt <= clientSideIdleTimeout
          | ByTimer => closedAt = clientSideIdleTimeout
          end.
Proof.
  unfold doGracefulShutdown. split.
  - intros Hf.
    destruct (poll_bounded numConnections timerFirst fuel tickInterval)
      as (closedAt & who & Hp & _);
      [reflexivity | lia | | eauto].
    unfold clientSideIdleTimeout, tickInterval, Second, Millisecond. lia.
  - intros closedAt who Hp.
    destruct (poll_first_idle _ _ _ _ _ _ Hp) as [Hbefore Hwho]. split.
    + intros j Hj.
      replace (tickInterval * (1 + Z.of_nat j))
        with (tickInterval + tickInterval * Z.of_nat j) in * by lia.
      apply Hbefore. exact Hj.
    + destruct who; [|exact Hwho].
      destruct Hwho as (Hz & (j & Hj) & Hle).
      split; [exact Hz|]. split; [|exact Hle]. exists j. lia.
Qed.

(** Connections that are gone by the third tick: the wait ends there,
    after 1.5 s. *)
Lemma drain_ends_at_first_idle_tick_witness :
  let numConnections t := if t <? 3 * tickInterval then 2 else 0 in
  doGracefulShutdown 31 numConnections true
  = Some (3 * tickInterval, ByPoller)
  /\ numConnections (3 * tickInterval) = 0
  /\ numConnections (1 * tickInterval) <> 0.
Proof.
  intros numConnections.
  assert (Hp : doGracefulShutdown 31 numConnections true
               = Some (3 * tickInterval, ByPoller))
    by (vm_compute; reflexivity).
  destruct (proj2 (drain_ends_at_first_idle_tick 31 numConnections true)
              _ _ Hp)
    as [Hbefore (Hz & _ & _)].
  split; [exact Hp|]. split; [exact Hz|].
  apply (Hbefore O). vm_compute. reflexivity.
Defined.

Lemma go_drain_bounded_witness :
  exists closedAt who,
    doGracefulShutdown 40 (fun t => t / tickInterval) false
    = Some (closedAt, who)
    /\ 0 < closedAt <= clientSideIdleTimeout.
Proof.
  apply (go_drain_bounded (fun t => t / tickInterval) false 40). lia.
Defined.

End DrainMore.

(** ** More on the Node.js demo *)

Section NodeMore.
Import NodeDemo NodeRespond.

Lemma delay_delay a b (s : server) : delay a (delay b s) = delay (b + a) s.
Proof. destruct s; unfold delay; simpl. f_equal. lia. Qed.

Lemma delay_zero (s : server) : delay 0 s = s.
Proof. destruct s; unfold delay; simpl. f_equal. lia. Qed.

(** While the polls answer with a positive count the loop goes on, half
    a second per poll. *)
Lemma drain_loop_busy (getConnections : nat -> option Z) (k : nat) :
  forall (fuel i : nat) (s : server),
    (forall j : nat, (j < k)%nat ->
       exists c, getConnections (i + j)%nat = Some c /\ 0 < c) ->
    drain_loop (k + fuel) getConnections i s
    = drain_loop fuel getConnections (i + k)%nat
        (delay (500 * Z.of_nat k) s).
Proof.
  induction k as [|k IH]; intros fuel i s Hbusy.
  - rewrite Nat.add_0_r. simpl. rewrite delay_zero. reflexivity.
  - destruct (Hbusy O ltac:(lia)) as (c & Hc & Hpos).
    rewrite Nat.add_0_r in Hc.
    cbn [Nat.add drain_loop]. rewrite Hc.
    destruct (c <=? 0) eqn:Hle; [apply Z.leb_le in Hle; lia|].
    rewrite IH.
    + rewrite delay_delay. f_equal; [lia|]. f_equal. lia.
    + intros j Hj. destruct (Hbusy (S j) ltac:(lia)) as (c' & Hc' & Hpos').
      exists c'. split; [|exact Hpos'].
      rewrite <- Hc'. f_equal. lia.
Qed.

(** With draining enabled the server is closed at the first poll that
    reports no connection, half a second after each earlier poll; the
    value of [DRAIN_TIMEOUT], as long as it is positive, plays no part. *)
Theorem node_drain_closes_at_first_idle_poll (cfg : config)
    (getConnections : nat -> option Z) (k fuel : nat) (c : Z) (s : server) :
  ENABLE_DRAIN cfg = true -> 0 < DRAIN_TIMEOUT cfg ->
  (forall j : nat, (j < k)%nat ->
     exists c', getConnections j = Some c' /\ 0 < c') ->
  getConnections k = Some c -> c <= 0 ->
  (k < fuel)%nat ->
  gracefulShutdown cfg fuel getConnections s
  = ({| draining := true; closeCalled := true;
        clock := clock s + 500 * Z.of_nat k |}, Returned).
Proof.
  intros He Ht Hbusy Hk Hc Hf. unfold gracefulShutdown, drainConnections.
  rewrite He. cbn [negb orb].
  destruct (DRAIN_TIMEOUT cfg <=? 0) eqn:Hle; [apply Z.leb_le in Hle; lia|].
  replace fuel with (k + S (fuel - S k))%nat by lia.
  rewrite drain_loop_busy by exact Hbusy.
  cbn [Nat.add drain_loop]. rewrite Hk.
  destruct (c <=? 0) eqn:Hc0; [|apply Z.leb_gt in Hc0; lia].
  reflexivity.
Qed.

Lemma node_drain_closes_at_first_idle_poll_witness :
  gracefulShutdown
    {| ENABLE_DRAIN := true; DRAIN_TIMEOUT := 1; KEEP_ALIVE_TIMEOUT := 5000 |}
    10 (fun i => Some (2 - Z.of_nat i)) listening
  = ({| draining := true; closeCalled := true; clock := 1000 |}, Returned).
Proof.
  apply (node_drain_closes_at_first_idle_poll
           {| ENABLE_DRAIN := true; DRAIN_TIMEOUT := 1;
              KEEP_ALIVE_TIMEOUT := 5000 |}
           (fun i => Some (2 - Z.of_nat i)) 2 10 0 listening);
    try reflexivity; try lia.
  intros j Hj. eexists. split; [reflexivity | lia].
Defined.

(** A poll that fails ends the drain loop without closing the server:
    [server.close] is not called, and [draining] stays set. *)
Theorem node_failed_poll_leaves_server_open (cfg : config)
    (getConnections : nat -> option Z) (k fuel : nat) (s : server) :
  ENABLE_DRAIN cfg = true -> 0 < DRAIN_TIMEOUT cfg ->
  (forall j : nat, (j < k)%nat ->
     exists c', getConnections j = Some c' /\ 0 < c') ->
  getConnections k = None ->
  (k < fuel)%nat ->
  gracefulShutdown cfg fuel getConnections s
  = ({| draining := true; closeCalled := closeCalled s;
        clock := clock s + 500 * Z.of_nat k |}, Returned).
Proof.
  intros He Ht Hbusy Hk Hf. unfold gracefulShutdown, drainConnections.
  rewrite He. cbn [negb orb].
  destruct (DRAIN_TIMEOUT cfg <=? 0) eqn:Hle; [apply Z.leb_le in Hle; lia|].
  replace fuel with (k + S (fuel - S k))%nat by lia.
  rewrite drain_loop_busy by exact Hbusy.
  cbn [Nat.add drain_loop]. rewrite Hk. reflexivity.
Qed.

Lemma node_failed_poll_leaves_server_open_witness :
  gracefulShutdown
    {| ENABLE_DRAIN := true; DRAIN_TIMEOUT := 5000;
       KEEP_ALIVE_TIMEOUT := 5000 |}
    10 (fun i => if (i <? 1)%nat then Some 3 else None) listening
  = ({| draining := true; closeCalled := false; clock := 500 |}, Returned).
Proof.
  apply (node_failed_poll_leaves_server_open
           {| ENABLE_DRAIN := true; DRAIN_TIMEOUT := 5000;
              KEEP_ALIVE_TIMEOUT := 5000 |}
           (fun i => if (i <? 1)%nat then Some 3 else None) 1 10 listening);
    try reflexivity; try lia.
  intros j Hj. exists 3. destruct j; [split; [reflexivity | lia] | lia].
Defined.

Lemma drain_loop_draining getConnections fuel : forall i s,
  draining (fst (drain_loop fuel getConnections i s)) = draining s.
Proof.
  induction fuel as [|fuel IH]; intros i s; [reflexivity|].
  cbn [drain_loop]. destruct (getConnections i) as [c|]; [|reflexivity].
  destruct (c <=? 0); [reflexivity|]. rewrite IH. reflexivity.
Qed.

(** After the signal a response carries [Connection: close] exactly when
    draining is enabled and the drain loop has been entered, that is,
    with [ENABLE_DRAIN] and a positive [DRAIN_TIMEOUT] (or when
    [draining] was set before); with draining disabled, or with a
    timeout that is not positive, the header is never added. *)
Theorem node_close_advertised_iff_draining (cfg : config) (fuel : nat)
    (getConnections : nat -> option Z) (s : server) (r : res) (status : Z)
    (msg : string) :
  let s' := fst (gracefulShutdown cfg fuel getConnections s) in
  let r' := respond cfg s' r status msg in
  statusCode r' = status /\ ended r' = Some msg
  /\ headers r' !! "content-type"%string = Some "text/plain"%string
  /\ headers r' !! "connection"%string
     = if ENABLE_DRAIN cfg && ((0 <? DRAIN_TIMEOUT cfg) || draining s)
       then Some "close"%string else headers r !! "connection"%string.
Proof.
  intros s' r'. subst r'.
  assert (Hd : draining s'
               = (ENABLE_DRAIN cfg && (0 <? DRAIN_TIMEOUT cfg)) || draining s).
  { subst s'. unfold gracefulShutdown, drainConnections.
    destruct (ENABLE_DRAIN cfg); cbn [negb orb andb]; [|reflexivity].
    destruct (DRAIN_TIMEOUT cfg <=? 0) eqn:Hle.
    - apply Z.leb_le in Hle.
      replace (0 <? DRAIN_TIMEOUT cfg) with false
        by (symmetry; apply Z.ltb_ge; lia).
      reflexivity.
    - apply Z.leb_gt in Hle.
      replace (0 <? DRAIN_TIMEOUT cfg) with true
        by (symmetry; apply Z.ltb_lt; lia).
      rewrite drain_loop_draining. reflexivity. }
  unfold respond. rewrite Hd.
  destruct (ENABLE_DRAIN cfg); cbn [andb orb];
    [destruct ((0 <? DRAIN_TIMEOUT cfg) || draining s)|];
    cbn [setHeader statusCode headers ended]; repeat split;
    rewrite ?lookup_insert_eq; try reflexivity;
    rewrite ?lookup_insert_ne by discriminate;
    rewrite ?lookup_insert_eq; reflexivity.
Qed.

End NodeMore.

(** ** More on the Java demo *)

Section JavaMore.
Import Int Strings JavaDemo JavaSleep More.

Lemma java_forward_fold (from : HttpServletRequest) (l : list string) :
  forall (to : HttpHeaders) (h v : string),
    In (h, v)
       (fold_left
          (fun to header =>
             match getHeader from header with
             | Some value => to ++ [(header, value)]
             | None => to
             end) l to)
    <-> In (h, v) to \/ (In h l /\ getHeader from h = Some v).
Proof.
  induction l as [|k l IH]; intros to h v; cbn [fold_left].
  - simpl. tauto.
  - rewrite IH. destruct (getHeader from k) as [value|] eqn:Hk.
    + rewrite in_app_iff. simpl. split.
      * intros [[Hin | [Heq | []]] | [Hin Hv]]; auto.
        inversion Heq; subst. auto.
      * intros [Hin | [[-> | Hin] Hv]]; auto.
        left. right. left. congruence.
    + simpl. split.
      * intros [Hin | [Hin Hv]]; auto.
      * intros [Hin | [[-> | Hin] Hv]]; auto. congruence.
Qed.

(** The headers the Java relay forwards are the trace headers the
    request has, each with its value, also an empty one, and nothing
    else. *)
Theorem java_forwards_trace_headers (from : HttpServletRequest)
    (h v : string) :
  In (h, v) (forwardTraceHeaders from [])
  <-> In h TRACE_HEADERS /\ getHeader from h = Some v.
Proof.
  unfold forwardTraceHeaders. rewrite java_forward_fold. simpl. tauto.
Qed.

(** The Java relay cuts the request URI by the length of [/service]: a
    shorter URI is the exception of [substring], without a call
    upstream; otherwise the first bytes are dropped, whatever they are,
    and the rest, the query string and the method go upstream with the
    trace headers and no body. *)
Theorem java_proxy_cuts_by_length (serviceName : string)
    (request : HttpServletRequest) (restTemplate : Exchange -> option string) :
  ((String.length (getRequestURI request)
    < String.length ("/" ++ serviceName))%nat ->
     proxy serviceName request restTemplate = None)
  /\ (forall pre rest : string,
        getRequestURI request = (pre ++ rest)%string ->
        String.length pre = String.length ("/" ++ serviceName)%string ->
        proxy serviceName request restTemplate
        = restTemplate
            {| uriHost := serviceName; uriPath := rest;
               uriQuery := getQueryString request;
               method := getMethod request;
               entity := {| headers := forwardTraceHeaders request [];
                            entityBody := None |} |}).
Proof.
  unfold proxy. split.
  - intros Hlen. apply SliceFrom_None in Hlen. rewrite Hlen. reflexivity.
  - intros pre rest Hu Hlen. rewrite Hu, <- Hlen, SliceFrom_split.
    reflexivity.
Qed.

Lemma java_proxy_cuts_by_length_witness :
  let request := {| getMethod := "POST"; getRequestURI := "/nginx/sleep";
                    getQueryString := Some "min=5"%string;
                    getHeader := fun _ => None; getBody := "" |} in
  (forall restTemplate,
      proxy "go-demo-long-name" request restTemplate = None)
  /\ (forall restTemplate,
        proxy "envoy" request restTemplate
        = restTemplate
            {| uriHost := "envoy"; uriPath := "/sleep";
               uriQuery := Some "min=5"%string; method := "POST";
               entity := {| headers := []; entityBody := None |} |}).
Proof.
  intros request. split; intros restTemplate.
  - apply (proj1 (java_proxy_cuts_by_length "go-demo-long-name" request
                    restTemplate)). simpl. lia.
  - exact (proj2 (java_proxy_cuts_by_length "envoy" request restTemplate)
             "/nginx" "/sleep" eq_refl eq_refl).
Defined.

(** The sleep of the Java demo is never negative; for a minimum of at
    most 30000 it lies between the minimum (zero for a negative one) and
    the maximum, capped at 30000; for a larger minimum the cap does not
    hold: the sleep lies between 30000 and the minimum. *)
Theorem java_sleep_bounds (scaled : Z -> Z) (min max : Z) :
  scales scaled ->
  min <= 2 ^ 53 ->
  let t := JavaSleep.sleep scaled min max in
  0 <= t
  /\ (min <= 30000 ->
      Z.max 0 min <= t <= Z.min 30000 (Z.max (Z.max 0 min) max))
  /\ (30000 < min -> 30000 <= t <= min).
Proof.
  intros Hsc Hmin t. subst t. unfold JavaSleep.sleep.
  set (lo := Z.max 0 min). set (hi := Z.min 30000 (Z.max lo max)).
  assert (Hlo : 0 <= lo <= 2 ^ 53) by (subst lo; lia).
  assert (Hhi : hi <= 30000) by (subst hi; lia).
  assert (Hhi' : Z.min 30000 lo <= hi) by (subst hi; lia).
  assert (Hd : - 2 ^ 53 <= hi - lo <= 2 ^ 53).
  { change (2 ^ 53) with 9007199254740992 in *. lia. }
  assert (Hw : wrap64 (hi - lo) = hi - lo).
  { apply wrap64_small. unfold in_int64, min_int64, max_int64.
    change (2 ^ 53) with 9007199254740992 in *.
    change (2 ^ 63) with 9223372036854775808. lia. }
  rewrite Hw. destruct (Hsc (hi - lo) Hd) as [Hpos Hneg].
  assert (Hk : Z.min 0 (hi - lo) <= scaled (hi - lo) <= Z.max 0 (hi - lo)).
  { destruct (Z.le_ge_cases 0 (hi - lo)) as [H0 | H0];
      [specialize (Hpos H0) | specialize (Hneg H0)]; lia. }
  rewrite wrap64_small.
  2:{ unfold in_int64, min_int64, max_int64.
      change (2 ^ 53) with 9007199254740992 in *.
      change (2 ^ 63) with 9223372036854775808. lia. }
  repeat split; try lia.
Qed.

Lemma java_sleep_bounds_witness :
  let scaled x := x / 2 in
  JavaSleep.sleep scaled 50 1000 = 525
  /\ 30000 <= JavaSleep.sleep scaled 40000 50000 <= 40000.
Proof.
  intros scaled.
  assert (Hsc : scales scaled).
  { intros x _. subst scaled. cbv beta. split; intros Hx.
    - split; [apply Z.div_pos; lia | apply Z.div_le_upper_bound; lia].
    - split; [apply Z.div_le_lower_bound; lia|].
      apply Z.div_le_upper_bound; lia. }
  split; [reflexivity|].
  apply (proj2 (proj2 (java_sleep_bounds scaled 40000 50000 Hsc
                         ltac:(vm_compute; congruence)))).
  lia.
Defined.

End JavaMore.

(** ** The sampler on an empty distribution *)

Section EmptyDistribution.
Import Float32 GoDemo Spec.

(** On lists of one length the closure of [buildInverseDiscreteCDF]
    panics exactly for the empty distribution: with no entry no
    cumulative probability is reached, and the fallback indexes the last
    of no values. *)
Theorem inverse_cdf_panics_iff_empty (values : list Z)
    (probabilities : list float32) (r : float32) :
  length values = length probabilities ->
  buildInverseDiscreteCDF values probabilities r = None <-> values = [].
Proof.
  intros Hlen. split.
  - intros Hnone. destruct values as [|v values]; [reflexivity|].
    destruct (inverse_cdf_selected (v :: values) probabilities r)
      as (d & Hd & _); [discriminate | exact Hlen |].
    rewrite Hd in Hnone. discriminate.
  - intros ->. destruct probabilities; [reflexivity | discriminate].
Qed.

Lemma inverse_cdf_panics_iff_empty_witness :
  buildInverseDiscreteCDF [] [] one = None.
Proof.
  apply (inverse_cdf_panics_iff_empty [] [] one eq_refl). reflexivity.
Defined.

End EmptyDistribution.
